(** * PingCy: the monitoring pipeline, embedded and verified

    A shallow embedding of the Go monitoring core of PingCy
    (checker, aggregator, incident collector, scheduler) together with
    the properties its specification states about it.

    Conventions of the embedding:
    - Go [string]s are [string]s of bytes; the Unicode-aware library
      functions ([strings.TrimSpace], [strings.ToUpper], [%q]) are modelled
      on their ASCII behaviour, bytes above 127 being left untouched;
    - Go [int], [int64] and [time.Duration] are [Z] with the 64-bit
      wrap-around written out ([wrap64]);
    - [time.Time] is a [Z] (an instant on some fixed scale);
    - what the environment decides (the outcome of the HTTP exchange, the
      clock, the random source, the readiness of a channel) is an explicit
      argument of the function that observes it. *)

From Stdlib Require Import ZArith Lia Bool List Ascii String.
From Stdlib Require Import Numbers.DecimalString Sorting.Sorted.
From stdpp Require Import base option list gmap strings.

Local Open Scope Z_scope.
Local Open Scope string_scope.

(** ** Go library functions used by the program *)

(** [strings.HasPrefix]. *)
Fixpoint strings_HasPrefix (s p : string) {struct p} : bool :=
  match p with
  | EmptyString => true
  | String c p' =>
      match s with
      | EmptyString => false
      | String d s' => Ascii.eqb d c && strings_HasPrefix s' p'
      end
  end.

(** [strings.Contains]: [substr] occurs somewhere in [s]. *)
Fixpoint strings_Contains (s substr : string) : bool :=
  strings_HasPrefix s substr ||
  match s with
  | EmptyString => false
  | String _ s' => strings_Contains s' substr
  end.

(** The six ASCII white-space bytes of [strings.TrimSpace]. *)
Definition asciiSpace (c : ascii) : bool :=
  let n := nat_of_ascii c in
  (Nat.eqb n 9 || Nat.eqb n 10 || Nat.eqb n 11 ||
   Nat.eqb n 12 || Nat.eqb n 13 || Nat.eqb n 32)%bool.

Fixpoint trimLeft (s : string) : string :=
  match s with
  | EmptyString => EmptyString
  | String c s' => if asciiSpace c then trimLeft s' else s
  end.

Fixpoint trimRight (s : string) : string :=
  match s with
  | EmptyString => EmptyString
  | String c s' =>
      match trimRight s' with
      | EmptyString => if asciiSpace c then EmptyString else String c EmptyString
      | r => String c r
      end
  end.

(** [strings.TrimSpace]. *)
Definition strings_TrimSpace (s : string) : string := trimRight (trimLeft s).

Definition upperByte (c : ascii) : ascii :=
  let n := nat_of_ascii c in
  if (Nat.leb 97 n && Nat.leb n 122)%bool then ascii_of_nat (n - 32) else c.

(** [strings.ToUpper]. *)
Fixpoint strings_ToUpper (s : string) : string :=
  match s with
  | EmptyString => EmptyString
  | String c s' => String (upperByte c) (strings_ToUpper s')
  end.

(** The verb [%d] of [fmt.Sprintf]. *)
Definition fmt_d (n : Z) : string := NilZero.string_of_int (Z.to_int n).

Definition hexDigit (n : nat) : ascii :=
  if Nat.ltb n 10 then ascii_of_nat (48 + n) else ascii_of_nat (87 + n).

(** The double quote, byte 34. *)
Definition dquote : ascii := "034"%char.

Definition quoteByte (c : ascii) : string :=
  let n := nat_of_ascii c in
  if Nat.eqb n 34 then String "\" (String dquote EmptyString)
  else if Nat.eqb n 92 then "\\"
  else if Nat.eqb n 7 then "\a"
  else if Nat.eqb n 8 then "\b"
  else if Nat.eqb n 12 then "\f"
  else if Nat.eqb n 10 then "\n"
  else if Nat.eqb n 13 then "\r"
  else if Nat.eqb n 9 then "\t"
  else if Nat.eqb n 11 then "\v"
  else if (Nat.ltb n 32 || Nat.eqb n 127)%bool then
    String "\" (String "x" (String (hexDigit (n / 16))
                              (String (hexDigit (n mod 16)) EmptyString)))
  else String c EmptyString.

Fixpoint quoteBody (s : string) : string :=
  match s with
  | EmptyString => EmptyString
  | String c s' => quoteByte c ++ quoteBody s'
  end.

(** [strconv.Quote], which implements the verb [%q]. *)
Definition strconv_Quote (s : string) : string :=
  String dquote (quoteBody s ++ String dquote EmptyString).

(** Go's [int] and [int64]: the representative of [n] modulo [2^64] in
    [[-2^63, 2^63)]. *)
Definition wrap64 (n : Z) : Z := (n + 2 ^ 63) mod 2 ^ 64 - 2 ^ 63.

(** ** Data model (src/internal/monitor/types.go) *)

(** [time.Time] and [time.Duration] (nanoseconds). *)
Definition Time := Z.
Definition Duration := Z.

Definition Millisecond : Duration := 1000000.

Record Target := {
  Name : string;
  URL : string;
  Method : string;
  Interval : Duration;
  Timeout : Duration;
  ExpectedStatus : Z;
  Contains : string;
  MaxBodyBytes : Z;
  Enabled : bool;
  Tags : list string
}.

Record CheckJob := {
  job_Target : Target;
  ScheduledAt : Time;
  job_Attempt : Z
}.

Record CheckResult := {
  TargetName : string;
  res_URL : string;
  At : Time;
  Latency : Duration;
  Up : bool;
  StatusCode : Z;
  Error : string;
  Validation : string;
  Attempt : Z
}.

Record State := {
  st_Name : string;
  st_URL : string;
  LastUp : bool;
  LastChecked : Time;
  LastLatency : Duration;
  LastStatusCode : Z;
  LastError : string;
  ConsecutiveSuccess : Z;
  ConsecutiveFail : Z;
  TotalChecks : Z;
  TotalFails : Z;
  History : list CheckResult
}.

(** The [Event] of the aggregator that persists and notifies: it carries
    the reason and the status code of the result that caused it. *)
Record Event := {
  ev_TargetName : string;
  ev_URL : string;
  From : bool;
  To : bool;
  ev_At : Time;
  Reason : string;
  ev_StatusCode : Z
}.

(** ** The checker (src/backend/internal/monitor/httpcheck.go) *)

(** Go [error] values as the checker meets them: the two sentinels of
    package [context], the [*url.Error] in which [http.Client.Do] wraps
    every failure, and any other error, known by its text. *)
Inductive GoError :=
| context_DeadlineExceeded
| context_Canceled
| url_Error (Op URL_ : string) (Err : GoError)
| errors_New (text : string).

(** The method [Error()]; [*url.Error] prints as [%s %q: %s]. *)
Fixpoint err_Error (e : GoError) : string :=
  match e with
  | context_DeadlineExceeded => "context deadline exceeded"
  | context_Canceled => "context canceled"
  | url_Error op u inner => op ++ " " ++ strconv_Quote u ++ ": " ++ err_Error inner
  | errors_New text => text
  end.

Definition errorsIsContextDeadline (err : GoError) : bool :=
  match err with context_DeadlineExceeded => true | _ => false end
  || strings_Contains (err_Error err) "context deadline exceeded".

Definition errorsIsContextCanceled (err : GoError) : bool :=
  match err with context_Canceled => true | _ => false end
  || strings_Contains (err_Error err) "context canceled".

Definition classifyHTTPError (err : GoError) : string :=
  if errorsIsContextDeadline err then "timeout"
  else if errorsIsContextCanceled err then "canceled"
  else err_Error err.

(** A response body as a stream: the bytes it delivers, then either the
    end of the stream or an error (raised by a read of its own, after the
    last byte). *)
Record Body := {
  body_data : string;
  body_err : option GoError
}.

Record Response := {
  resp_StatusCode : Z;
  resp_Body : Body
}.

(** What the network answers to one probe. *)
Inductive Exchange :=
| BuildFailed (err : GoError)
| DoFailed (err : GoError)
| Responded (resp : Response).

(** The readings of the clock taken by one probe: [time.Now()] for [At]
    and [time.Since(start)] at the point where the latency is taken. *)
Record Clock := {
  now_at : Time;
  since_start : Duration
}.

(** [io.ReadAll(io.LimitReader(body, maxBytes))]: the bytes or the error,
    and the number of bytes taken from the stream.  The limited reader
    reports the end of the stream once [maxBytes] bytes are read, without
    asking the body again. *)
Definition readAllLimited (b : Body) (maxBytes : Z) : (string + GoError) * nat :=
  let n := Z.to_nat maxBytes in
  if (n <=? String.length (body_data b))%nat
  then (inl (substring 0 n (body_data b)), n)
  else match body_err b with
       | Some e => (inr e, String.length (body_data b))
       | None => (inl (body_data b), String.length (body_data b))
       end.

Arguments readAllLimited : simpl never.

(** The [CheckResult] that [CheckOnce] initialises and then completes. *)
Definition result (clk : Clock) (t : Target) (up : bool) (code : Z)
    (err validation : string) : CheckResult :=
  {| TargetName := Name t; res_URL := URL t; At := now_at clk;
     Latency := since_start clk; Up := up; StatusCode := code;
     Error := err; Validation := validation; Attempt := 1 |}.

(** [CheckOnce], with the number of body bytes it has read. *)
Definition CheckOnce_run (clk : Clock) (t : Target) (ex : Exchange)
    : CheckResult * nat :=
  match ex with
  | BuildFailed err =>
      (result clk t false 0 ("build request: " ++ err_Error err) "", O)
  | DoFailed err =>
      (result clk t false 0 (classifyHTTPError err) "", O)
  | Responded resp =>
      let code := resp_StatusCode resp in
      if negb (Z.eqb (ExpectedStatus t) 0) && negb (Z.eqb code (ExpectedStatus t)) then
        (result clk t false code ""
           ("unexpected status: got " ++ fmt_d code ++ " want "
              ++ fmt_d (ExpectedStatus t)), O)
      else if Z.eqb (ExpectedStatus t) 0 && (Z.ltb code 200 || Z.geb code 400) then
        (result clk t false code "" ("bad status: " ++ fmt_d code), O)
      else
        let contains := strings_TrimSpace (Contains t) in
        if negb (String.eqb contains "") then
          if String.eqb (strings_ToUpper (Method t)) "HEAD" then
            (result clk t false code ""
               "contains check configured but method is HEAD (no body)", O)
          else
            let maxBytes :=
              if Z.leb (MaxBodyBytes t) 0 then 64 * 1024 else MaxBodyBytes t in
            match readAllLimited (resp_Body resp) maxBytes with
            | (inr readErr, k) =>
                (result clk t false code ("read body: " ++ err_Error readErr) "", k)
            | (inl bodyBytes, k) =>
                if negb (strings_Contains bodyBytes contains) then
                  (result clk t false code ""
                     ("keyword missing: " ++ strconv_Quote contains), k)
                else (result clk t true code "" "", k)
            end
        else (result clk t true code "" "", O)
  end.

Definition CheckOnce (clk : Clock) (t : Target) (ex : Exchange) : CheckResult :=
  fst (CheckOnce_run clk t ex).

(** The bytes of the response body consumed by one [CheckOnce]. *)
Definition bodyBytesRead (clk : Clock) (t : Target) (ex : Exchange) : nat :=
  snd (CheckOnce_run clk t ex).

(** ** The aggregator (package monitor in src/backend/internal/config/config.go)

    The variant that persists results and hydrates the state of a target
    from the database.  What [loadStateFromDB] returns is an input of the
    model ([loaded]); the delivery of an event on [eventsCh] waits for
    room in the channel and yields to the cancellation of the context,
    and the model records the event the aggregator offers. *)

(** [updateState] at clock reading [now]. *)
Definition updateState (now : Time) (state : State) (res : CheckResult) : State :=
  {| st_Name := TargetName res;
     st_URL := res_URL res;
     LastUp := Up res;
     LastChecked := now;
     LastLatency := Latency res;
     LastStatusCode := StatusCode res;
     LastError := if Up res then LastError state else Error res;
     ConsecutiveSuccess :=
       if Up res then wrap64 (ConsecutiveSuccess state + 1)
       else ConsecutiveSuccess state;
     ConsecutiveFail :=
       if Up res then 0 else wrap64 (ConsecutiveFail state + 1);
     TotalChecks := wrap64 (TotalChecks state + 1);
     TotalFails :=
       if Up res then TotalFails state else wrap64 (TotalFails state + 1);
     History := History state |}.

(** The state created for a target that has no history:
    [&State{Name: res.TargetName, URL: res.URL}]. *)
Definition emptyState (res : CheckResult) : State :=
  {| st_Name := TargetName res; st_URL := res_URL res; LastUp := false;
     LastChecked := 0; LastLatency := 0; LastStatusCode := 0;
     LastError := ""; ConsecutiveSuccess := 0; ConsecutiveFail := 0;
     TotalChecks := 0; TotalFails := 0; History := [] |}.

(** The state the aggregator works on for [res]: the one of the map, else
    the one [loadStateFromDB] hands back ([loaded], [None] for nil), else
    an empty one. *)
Definition locateState (loaded : string -> option State)
    (state : gmap string State) (res : CheckResult) : State :=
  match state !! TargetName res with
  | Some st => st
  | None =>
      match loaded (TargetName res) with
      | Some st => st
      | None => emptyState res
      end
  end.

(** One iteration of the loop of [Aggregator] on a received result: the
    new state map and the event offered to [eventsCh], if any. *)
Definition Aggregator_step (loaded : string -> option State) (now : Time)
    (state : gmap string State) (res : CheckResult)
    : gmap string State * option Event :=
  let st := locateState loaded state res in
  let prevUp := LastUp st in
  let st' := updateState now st res in
  let event :=
    if Z.gtb (TotalChecks st') 1 && negb (Bool.eqb prevUp (Up res)) then
      Some {| ev_TargetName := TargetName res; ev_URL := res_URL res;
              From := prevUp; To := Up res; ev_At := At res;
              Reason := Error res; ev_StatusCode := StatusCode res |}
    else None in
  (<[TargetName res := st']> state, event).

(** The loop of [Aggregator] over the results it receives, each with the
    clock reading of its update: the final state map and the events
    offered, in order. *)
Fixpoint Aggregator (loaded : string -> option State)
    (state : gmap string State) (results : list (Time * CheckResult))
    : gmap string State * list Event :=
  match results with
  | [] => (state, [])
  | (now, res) :: rest =>
      let '(state', event) := Aggregator_step loaded now state res in
      let '(final, events) := Aggregator loaded state' rest in
      (final, match event with Some e => e :: events | None => events end)
  end.

(** ** The incident collector (src/unnamed/part_004) and table [incidents]
    (src/unnamed/part_002)

    A statement of the collector is modelled by what it does to the table
    when the database executes it; a statement that fails is logged and
    changes nothing. *)

(** A row of table [incidents]; a nullable column is an [option]. *)
Record Incident := {
  id : Z;
  target_name : string;
  probe : string;
  started_at : Time;
  ended_at : option Time;
  start_status : string;
  start_status_code : option Z;
  start_error : option string;
  end_status : option string;
  end_status_code : option Z;
  end_error : option string;
  created_at : Time;
  updated_at : Time
}.

(** The table with the sequence of its [bigserial] key. *)
Record Incidents := {
  rows : list Incident;
  next_id : Z
}.

(** The row is an active incident of [(target, prb)]:
    [target_name = $1 AND probe = $2 AND ended_at IS NULL]. *)
Definition active (target prb : string) (r : Incident) : bool :=
  String.eqb (target_name r) target && String.eqb (probe r) prb
  && match ended_at r with None => true | Some _ => false end.

(** The unique index [uq_incidents_one_active]: one active row at most
    for each [(target_name, probe)]. *)
Definition uq_incidents_one_active (tbl : Incidents) : Prop :=
  forall target prb : string,
    (List.length (List.filter (active target prb) (rows tbl)) <= 1)%nat.

(** SQL [NULLIF] on integers and on text. *)
Definition NULLIF_int (x y : Z) : option Z := if Z.eqb x y then None else Some x.
Definition NULLIF_text (x y : string) : option string :=
  if String.eqb x y then None else Some x.

Definition statusFromEvent (ev : Event) : string :=
  if To ev then "UP" else "DOWN".

(** [persistIncident], the statement executing at time [now] of the
    database: the conditional [INSERT] on a down event, the [UPDATE] of
    the active rows on an up event. *)
Definition persistIncident (now : Time) (ev : Event) (tbl : Incidents) : Incidents :=
  if negb (To ev) then
    if existsb (active (ev_TargetName ev) "primary") (rows tbl) then tbl
    else
      {| rows := rows tbl ++
           [ {| id := next_id tbl;
                target_name := ev_TargetName ev;
                probe := "primary";
                started_at := ev_At ev;
                ended_at := None;
                start_status := statusFromEvent ev;
                start_status_code := NULLIF_int (ev_StatusCode ev) 0;
                start_error := NULLIF_text (Reason ev) "";
                end_status := None;
                end_status_code := None;
                end_error := None;
                created_at := now;
                updated_at := now |} ];
         next_id := next_id tbl + 1 |}
  else
    {| rows :=
         List.map (fun r =>
           if active (ev_TargetName ev) "primary" r then
             {| id := id r;
                target_name := target_name r;
                probe := probe r;
                started_at := started_at r;
                ended_at := Some (ev_At ev);
                start_status := start_status r;
                start_status_code := start_status_code r;
                start_error := start_error r;
                end_status := Some "UP";
                end_status_code := NULLIF_int (ev_StatusCode ev) 0;
                end_error := NULLIF_text (Reason ev) "";
                created_at := created_at r;
                updated_at := now |}
           else r) (rows tbl);
       next_id := next_id tbl |}.

(** [IncidentCollector] over the events it receives, each with the time
    of the database at its statement. *)
Fixpoint IncidentCollector (events : list (Time * Event)) (tbl : Incidents)
    : Incidents :=
  match events with
  | [] => tbl
  | (now, e) :: rest => IncidentCollector rest (persistIncident now e tbl)
  end.

(** ** The scheduler with jitter (src/unnamed/part_004) *)

(** *** The [float64] arithmetic of the jitter

    A finite non-negative [float64] is a pair [(m, e)] standing for
    [m * 2^e] with [m < 2^53] (up to the carry of a rounding, [m = 2^53]).
    The values met here are far from the subnormal and the overflow
    ranges, so the exponent is unbounded. *)
Definition float64 : Type := Z * Z.

(** Rounding of [m * 2^e], [0 <= m], to 53 significant bits, to nearest,
    ties to even. *)
Definition round53 (m e : Z) : float64 :=
  let k := if Z.eqb m 0 then 0 else Z.log2 m + 1 in
  if Z.leb k 53 then (m, e)
  else
    let sh := k - 53 in
    let q := m / 2 ^ sh in
    let r := m mod 2 ^ sh in
    let half := 2 ^ (sh - 1) in
    let q' := if Z.gtb r half || (Z.eqb r half && Z.odd q) then q + 1 else q in
    (q', e + sh).

(** The conversion [float64(n)] of a non-negative [int64]. *)
Definition float64_of_int64 (n : Z) : float64 := round53 n 0.

(** The product of two [float64]. *)
Definition float64_mul (x y : float64) : float64 :=
  round53 (fst x * fst y) (snd x + snd y).

(** The conversion [int64(x)], which truncates. *)
Definition int64_of_float64 (x : float64) : Z :=
  if Z.leb 0 (snd x) then fst x * 2 ^ snd x else fst x / 2 ^ (- snd x).

(** The constant [jitterFraction = 0.2] as a [float64]: the double nearest
    to one fifth, [0x3FC999999999999A]. *)
Definition jitterFraction : float64 := (7205759403792794, -55).

(** [rand.Int63n(n)] on the draw [raw] of the source ([0 <= raw < 2^63]):
    it panics ([None]) when [n <= 0]. *)
Definition rand_Int63n (raw n : Z) : option Z :=
  if Z.leb n 0 then None else Some (raw mod n).

(** [jitteredInterval]; [None] is a panic. *)
Definition jitteredInterval (raw : Z) (interval : Duration) : option Duration :=
  if Z.leb interval 0 then Some Millisecond
  else
    let maxJitter :=
      int64_of_float64 (float64_mul (float64_of_int64 interval) jitterFraction) in
    match rand_Int63n raw (wrap64 (wrap64 (maxJitter * 2) + 1)) with
    | None => None
    | Some n =>
        let jitter := wrap64 (n - maxJitter) in
        let delay := wrap64 (interval + jitter) in
        if Z.ltb delay Millisecond then Some Millisecond else Some delay
    end.

(** *** Channels and [select] *)

(** A buffered channel: its queue, oldest first, and its capacity. *)
Record Chan (A : Type) := {
  chan_buf : list A;
  chan_cap : nat
}.
Arguments chan_buf {A} _.
Arguments chan_cap {A} _.

Definition chan_full {A} (ch : Chan A) : bool :=
  Nat.leb (chan_cap ch) (List.length (chan_buf ch)).

Definition chan_send {A} (ch : Chan A) (x : A) : Chan A :=
  {| chan_buf := chan_buf ch ++ [x]; chan_cap := chan_cap ch |}.

(** The arm a [select] takes among a send, a receive from [ctx.Done()]
    and, when it has one, a default: one of the arms that can proceed,
    picked by the runtime ([pick]); else the default; else it blocks. *)
Inductive Arm := ArmSend | ArmDone | ArmDefault | ArmBlock.

Definition select (sendReady doneReady hasDefault pick : bool) : Arm :=
  match sendReady, doneReady with
  | true, true => if pick then ArmSend else ArmDone
  | true, false => ArmSend
  | false, true => ArmDone
  | false, false => if hasDefault then ArmDefault else ArmBlock
  end.

(** What a call leaves behind: the channel and the lines logged. *)
Record Enqueued := {
  jobsCh' : Chan CheckJob;
  logged : list string
}.

(** [enqueueJob] at clock reading [now]; [ctxDone] tells whether the
    context is cancelled.  [None]: the call blocks. *)
Definition enqueueJob (ctxDone pick : bool) (now : Time)
    (jobsCh : Chan CheckJob) (target : Target) : option Enqueued :=
  let job := {| job_Target := target; ScheduledAt := now; job_Attempt := 1 |} in
  match select (negb (chan_full jobsCh)) ctxDone true pick with
  | ArmSend => Some {| jobsCh' := chan_send jobsCh job; logged := [] |}
  | ArmDefault =>
      Some {| jobsCh' := jobsCh;
              logged := ["[WARN] jobsCh full; dropping job for target="
                           ++ Name target] |}
  | ArmDone => Some {| jobsCh' := jobsCh; logged := [] |}
  | ArmBlock => None
  end.

(** ** The notions of the specification *)

(** The status policy: an exact match when a status is expected, else any
    code of [[200, 400)]. *)
Definition statusMatchesPolicy (t : Target) (code : Z) : bool :=
  if Z.eqb (ExpectedStatus t) 0 then Z.leb 200 code && Z.ltb code 400
  else Z.eqb code (ExpectedStatus t).

(** The substring a target requires: its [Contains], which the checker
    takes without the white space around it; none when empty. *)
Definition substringRequirement (t : Target) : string :=
  strings_TrimSpace (Contains t).

(** The limit on the bytes read from a body. *)
Definition bodyLimit (t : Target) : Z :=
  if Z.leb (MaxBodyBytes t) 0 then 65536 else MaxBodyBytes t.

(** The body read for a target: nothing under [HEAD], else the bytes up
    to the limit, or the error of the read. *)
Definition bodyRead (t : Target) (resp : Response) : option (string + GoError) :=
  if String.eqb (strings_ToUpper (Method t)) "HEAD" then None
  else Some (fst (readAllLimited (resp_Body resp) (bodyLimit t))).

(** The byte [c] occurs in [s]. *)
Fixpoint byteIn (c : ascii) (s : string) : bool :=
  match s with
  | EmptyString => false
  | String d s' => Ascii.eqb d c || byteIn c s'
  end.

(** The target with another limit on the body. *)
Definition with_MaxBodyBytes (n : Z) (t : Target) : Target :=
  {| Name := Name t; URL := URL t; Method := Method t; Interval := Interval t;
     Timeout := Timeout t; ExpectedStatus := ExpectedStatus t;
     Contains := Contains t; MaxBodyBytes := n; Enabled := Enabled t;
     Tags := Tags t |}.

(** The result of [name] is about target [name]. *)
Definition isFor (name : string) (x : Time * CheckResult) : bool :=
  String.eqb (TargetName (snd x)) name.

(** The most recent result for [name] among those received, oldest
    first, and the number of results for [name]. *)
Definition lastResultFor (name : string) (history : list (Time * CheckResult))
    : option CheckResult :=
  option_map snd (List.find (isFor name) (List.rev history)).

Definition countFor (name : string) (history : list (Time * CheckResult)) : nat :=
  List.length (List.filter (isFor name) history).

(** The transition event from [prevUp] caused by [res]. *)
Definition transition (prevUp : bool) (res : CheckResult) : Event :=
  {| ev_TargetName := TargetName res; ev_URL := res_URL res;
     From := prevUp; To := Up res; ev_At := At res;
     Reason := Error res; ev_StatusCode := StatusCode res |}.

(** No history in the database: [loadStateFromDB] finds no row, or there
    is no database. *)
Definition noHistory : string -> option State := fun _ => None.

(** ** Sample inputs: target Alpha and the scenarios of the specification *)

Definition alpha : Target :=
  {| Name := "Alpha"; URL := "https://alpha.example/health"; Method := "GET";
     Interval := 30000000000; Timeout := 5000000000; ExpectedStatus := 200;
     Contains := ""; MaxBodyBytes := 65536; Enabled := true; Tags := [] |}.

Definition alphaOK : Target :=
  {| Name := "Alpha"; URL := "https://alpha.example/health"; Method := "GET";
     Interval := 30000000000; Timeout := 5000000000; ExpectedStatus := 200;
     Contains := "OK"; MaxBodyBytes := 0; Enabled := true; Tags := [] |}.

Definition respond (code : Z) (data : string) : Exchange :=
  Responded {| resp_StatusCode := code;
               resp_Body := {| body_data := data; body_err := None |} |}.

Definition timedOut : Exchange :=
  DoFailed (url_Error "Get" "https://alpha.example/health"
              context_DeadlineExceeded).

Definition clockAt (now : Time) : Clock :=
  {| now_at := now; since_start := 42 * Millisecond |}.

(** Scenario A then a failure: HTTP 200, then HTTP 500. *)
Definition upThenDown : list (Time * CheckResult) :=
  [ (1001, CheckOnce (clockAt 1000) alpha (respond 200 "fine"));
    (2001, CheckOnce (clockAt 2000) alpha (respond 500 "broken")) ].

(** Scenarios A and B: HTTP 200, then a timeout. *)
Definition upThenTimeout : list (Time * CheckResult) :=
  [ (1001, CheckOnce (clockAt 1000) alpha (respond 200 "fine"));
    (2001, CheckOnce (clockAt 2000) alpha timedOut) ].

(** The active incidents of [(target, prb)] in the table. *)
Definition activeRows (target prb : string) (tbl : Incidents) : list Incident :=
  List.filter (active target prb) (rows tbl).

(** The row that closes [r] on event [ev] at time [now]. *)
Definition closed (now : Time) (ev : Event) (r : Incident) : Incident :=
  {| id := id r; target_name := target_name r; probe := probe r;
     started_at := started_at r; ended_at := Some (ev_At ev);
     start_status := start_status r;
     start_status_code := start_status_code r;
     start_error := start_error r; end_status := Some "UP";
     end_status_code := NULLIF_int (ev_StatusCode ev) 0;
     end_error := NULLIF_text (Reason ev) "";
     created_at := created_at r; updated_at := now |}.

(** The row that opens an incident on event [ev] at time [now]. *)
Definition opened (now : Time) (ev : Event) (key : Z) : Incident :=
  {| id := key; target_name := ev_TargetName ev; probe := "primary";
     started_at := ev_At ev; ended_at := None;
     start_status := "DOWN";
     start_status_code := NULLIF_int (ev_StatusCode ev) 0;
     start_error := NULLIF_text (Reason ev) "";
     end_status := None; end_status_code := None; end_error := None;
     created_at := now; updated_at := now |}.

(** The event of scenario B for target [t], observed at [at_]. *)
Definition timeoutEvent (t : Target) (at_ : Time) : Event :=
  {| ev_TargetName := Name t; ev_URL := URL t; From := true; To := false;
     ev_At := at_; Reason := "timeout"; ev_StatusCode := 0 |}.

(** The table before any incident. *)
Definition noIncidents : Incidents := {| rows := []; next_id := 1 |}.

(** The warning of [enqueueJob] for a dropped job. *)
Definition droppedWarning (target : Target) : string :=
  "[WARN] jobsCh full; dropping job for target=" ++ Name target.

(** The largest jitter of [jitteredInterval] for a positive interval. *)
Definition maxJitterOf (interval : Duration) : Z :=
  int64_of_float64 (float64_mul (float64_of_int64 interval) jitterFraction).

(** A job queue of capacity 1 that holds one job. *)
Definition fullQueue : Chan CheckJob :=
  {| chan_buf := [ {| job_Target := alpha; ScheduledAt := 1; job_Attempt := 1 |} ];
     chan_cap := 1 |}.

(** ** Notions for the further properties *)

(** The results of target [name] among those received, oldest first. *)
Definition resultsFor (name : string) (history : list (Time * CheckResult))
    : list CheckResult :=
  List.map snd (List.filter (isFor name) history).

(** The numbers of successes and of failures of a list of results. *)
Definition ups (l : list CheckResult) : nat := List.length (List.filter Up l).
Definition downs (l : list CheckResult) : nat :=
  List.length (List.filter (fun r => negb (Up r)) l).

(** The failures at the head of a list, and at the end of a list. *)
Fixpoint leadingDowns (l : list CheckResult) : nat :=
  match l with
  | [] => O
  | r :: l' => if Up r then O else S (leadingDowns l')
  end.

Definition trailingDowns (l : list CheckResult) : nat := leadingDowns (List.rev l).

(** The last event about [name] in a list of events, oldest first. *)
Definition lastEventFor (name : string) (events : list Event) : option Event :=
  List.find (fun e => String.eqb (ev_TargetName e) name) (List.rev events).

(** The events of a run of the aggregator handed to the collector, each
    with the time [dbtime] of the database at its statement. *)
Definition collect (dbtime : Event -> Time) (events : list Event)
    (tbl : Incidents) : Incidents :=
  IncidentCollector (List.map (fun e => (dbtime e, e)) events) tbl.

(** Scenarios A, B and C: HTTP 200, then a timeout, then HTTP 200. *)
Definition upTimeoutUp : list (Time * CheckResult) :=
  [ (1001, CheckOnce (clockAt 1000) alpha (respond 200 "fine"));
    (2001, CheckOnce (clockAt 2000) alpha timedOut);
    (3001, CheckOnce (clockAt 3000) alpha (respond 200 "fine")) ].

(** The event of scenario C for target [t], observed at [at_]. *)
Definition recoveryEvent (t : Target) (at_ : Time) : Event :=
  {| ev_TargetName := Name t; ev_URL := URL t; From := false; To := true;
     ev_At := at_; Reason := ""; ev_StatusCode := 200 |}.

(** A target that is down from its first check on. *)
Definition downFromStart : list (Time * CheckResult) :=
  [ (1001, CheckOnce (clockAt 1000) alpha (respond 503 "unavailable"));
    (2001, CheckOnce (clockAt 2000) alpha timedOut) ].

(** ** The workers (src/internal/monitor/worker.go) *)

(** The check of one job by a worker: [CheckOnce] on the target of the
    job, then the fields that belong to the job. *)
Definition runJob (clk : Clock) (job : CheckJob) (ex : Exchange) : CheckResult :=
  let result := CheckOnce clk (job_Target job) ex in
  {| TargetName := Name (job_Target job);
     res_URL := URL (job_Target job);
     At := At result;
     Latency := Latency result;
     Up := Up result;
     StatusCode := StatusCode result;
     Error := Error result;
     Validation := Validation result;
     Attempt := job_Attempt job |}.

(** What an iteration of a worker leaves behind: the result channel and
    whether the worker goes on with the next job. *)
Record Published := {
  resultsCh' : Chan CheckResult;
  goesOn : bool
}.

(** One iteration of the loop of a worker of [StartWorkers] on a job it
    has received: the check, then the [select] between the send of the
    result and the cancellation, which has no default.  [None]: the
    worker blocks on the send. *)
Definition workerStep (ctxDone pick : bool) (clk : Clock) (job : CheckJob)
    (ex : Exchange) (resultsCh : Chan CheckResult) : option Published :=
  let result := runJob clk job ex in
  match select (negb (chan_full resultsCh)) ctxDone false pick with
  | ArmSend => Some {| resultsCh' := chan_send resultsCh result; goesOn := true |}
  | ArmDone => Some {| resultsCh' := resultsCh; goesOn := false |}
  | ArmDefault => None
  | ArmBlock => None
  end.

(** ** Calls of [enqueueJob] in a row *)



(** A full result queue of capacity 1. *)
Definition fullResults : Chan CheckResult :=
  {| chan_buf := [CheckOnce (clockAt 1000) alpha (respond 200 "fine")];
     chan_cap := 1 |}.

(** ** The persistence of results (package monitor in
    src/backend/internal/config/config.go) and table [check_results]
    (src/backend/internal/migrations/check_results.sql) *)

Definition lowerByte (c : ascii) : ascii :=
  let n := nat_of_ascii c in
  if (Nat.leb 65 n && Nat.leb n 90)%bool then ascii_of_nat (n + 32) else c.

(** [strings.ToLower]. *)
Fixpoint strings_ToLower (s : string) : string :=
  match s with
  | EmptyString => EmptyString
  | String c s' => String (lowerByte c) (strings_ToLower s')
  end.

(** [Time.IsZero]: the instant 0 of the scale stands for the zero value
    of [time.Time]. *)
Definition time_IsZero (t : Time) : bool := Z.eqb t 0.

(** [Duration.Milliseconds]: a division that truncates. *)
Definition Milliseconds (d : Duration) : Z := Z.quot d 1000000.

(** A row of table [check_results]. *)
Record CheckRow := {
  cr_id : Z;
  cr_target_name : string;
  checked_at : Time;
  status : string;
  status_code : option Z;
  latency_ms : option Z;
  error : option string;
  cr_probe : string
}.

Record CheckResults := {
  cr_rows : list CheckRow;
  cr_next_id : Z
}.

(** The status text that [persistCheckResult] computes for a result. *)
Definition resultStatus (res : CheckResult) : string :=
  if Up res then "UP"
  else if errorsIsContextDeadline (errors_New (Error res))
          || strings_Contains (strings_ToLower (Error res)) "timeout"
  then "TIMEOUT"
  else "DOWN".

(** [nullableString]: the first part that is not blank, else NULL. *)
Fixpoint nullableString (parts : list string) : option string :=
  match parts with
  | [] => None
  | p :: rest =>
      if negb (String.eqb (strings_TrimSpace p) "") then Some p
      else nullableString rest
  end.

(** The row that [persistCheckResult] inserts for [res] at clock reading
    [now]. *)
Definition checkRow (now : Time) (res : CheckResult) (key : Z) : CheckRow :=
  {| cr_id := key;
     cr_target_name := TargetName res;
     checked_at := if time_IsZero (At res) then now else At res;
     status := resultStatus res;
     status_code := Some (StatusCode res);
     latency_ms := Some (Milliseconds (Latency res));
     error := nullableString [Error res; Validation res];
     cr_probe := "primary" |}.

(** [persistCheckResult], the [INSERT] executing. *)
Definition persistCheckResult (now : Time) (res : CheckResult)
    (tbl : CheckResults) : CheckResults :=
  {| cr_rows := cr_rows tbl ++ [checkRow now res (cr_next_id tbl)];
     cr_next_id := cr_next_id tbl + 1 |}.

(** The rows that the aggregator writes for the results it receives. *)
Fixpoint persistAll (results : list (Time * CheckResult)) (tbl : CheckResults)
    : CheckResults :=
  match results with
  | [] => tbl
  | (now, res) :: rest => persistAll rest (persistCheckResult now res tbl)
  end.

Definition noResults : CheckResults := {| cr_rows := []; cr_next_id := 1 |}.

(** ** The uptime query (src/backend/internal/handlers/handler.go) *)

(** The query of [GetUptime]: the number of rows of the target checked
    at [from] or later, and the number of them whose status is UP. *)
Definition uptimeQuery (target : string) (from : Time) (tbl : CheckResults)
    : Z * Z :=
  let inWindow :=
    List.filter (fun r => String.eqb (cr_target_name r) target
                          && Z.geb (checked_at r) from) (cr_rows tbl) in
  (Z.of_nat (List.length inWindow),
   Z.of_nat (List.length
               (List.filter (fun r => String.eqb (status r) "UP") inWindow))).

(** The time under which a result is filed. *)
Definition filedAt (x : Time * CheckResult) : Time :=
  if time_IsZero (At (snd x)) then fst x else At (snd x).

(** The results of [name] filed at [from] or later. *)
Definition resultsSince (name : string) (from : Time)
    (history : list (Time * CheckResult)) : list CheckResult :=
  List.map snd
    (List.filter (fun x => isFor name x && Z.geb (filedAt x) from) history).

(** ** The snapshot (package snapshot and [buildSnapshot] in
    src/backend/internal/config/config.go) *)

(** What the API exposes for a target. *)
Record StateDTO := {
  dto_Name : string;
  dto_URL : string;
  dto_Up : bool;
  dto_LastChecked : string;
  LatencyMs : Z;
  dto_StatusCode : Z;
  dto_LastError : string;
  dto_ConsecutiveSuccess : Z;
  dto_ConsecutiveFail : Z;
  dto_TotalChecks : Z;
  dto_TotalFails : Z
}.

Record Snapshot := {
  All : list StateDTO;
  ByName : gmap string StateDTO
}.

(** The entry of a state; [format] is [t.UTC().Format(time.RFC3339)]. *)
Definition toDTO (format : Time -> string) (st : State) : StateDTO :=
  {| dto_Name := st_Name st;
     dto_URL := st_URL st;
     dto_Up := LastUp st;
     dto_LastChecked := format (LastChecked st);
     LatencyMs := Milliseconds (LastLatency st);
     dto_StatusCode := LastStatusCode st;
     dto_LastError := LastError st;
     dto_ConsecutiveSuccess := ConsecutiveSuccess st;
     dto_ConsecutiveFail := ConsecutiveFail st;
     dto_TotalChecks := TotalChecks st;
     dto_TotalFails := TotalFails st |}.

(** [buildSnapshot] over the states in the order [order] in which the
    runtime ranges over the map. *)
Definition buildSnapshot (format : Time -> string) (order : list State) : Snapshot :=
  List.fold_left
    (fun snap st =>
       let dto := toDTO format st in
       {| All := All snap ++ [dto];
          ByName := <[dto_Name dto := dto]> (ByName snap) |})
    order {| All := []; ByName := ∅ |}.

(** The states of a map, in the order of its list of entries; the
    runtime ranges over them in any order. *)
Definition statesOf (state : gmap string State) : list State :=
  List.map snd (map_to_list state).

(** [snapshot.Publish] and [snapshot.Get] on the holder [current]. *)
Definition snapshot_Publish (s : Snapshot) (current : option Snapshot)
    : option Snapshot := Some s.

Definition snapshot_Get (current : option Snapshot) : Snapshot :=
  match current with
  | Some s => s
  | None => {| All := []; ByName := ∅ |}
  end.

(** The last state of [order] whose name is [name]. *)
Definition lastNamed (name : string) (order : list State) : option State :=
  List.find (fun st => String.eqb (st_Name st) name) (List.rev order).

(** ** The configuration (package config in
    src/backend/internal/config/config.go and [toMonitorTargets] in
    src/backend/server/main.go) *)

(** The outcome of a Go function that returns a value and an error; an
    error is known by its text. *)
Inductive Result (A : Type) :=
| Ok (a : A)
| Err (text : string).
Arguments Ok {A} _.
Arguments Err {A} _.

Module config.

Record ServerConfig := {
  Addr : string
}.

Record MonitoringConfig := {
  Workers : Z;
  JobsBuffer : Z;
  ResultsBuffer : Z;
  UserAgent : string
}.

(** A target as the file gives it; [Enabled] is a pointer, [None] for
    nil, and the two durations are filled by the validation. *)
Record Target := {
  Name : string;
  URL : string;
  Method : string;
  Interval : string;
  Timeout : string;
  ExpectedStatus : Z;
  Contains : string;
  MaxBodyBytes : Z;
  Enabled : option bool;
  Tags : list string;
  IntervalDur : Duration;
  TimeoutDur : Duration
}.

Record Config := {
  Server : ServerConfig;
  Monitoring : MonitoringConfig;
  Targets : list Target
}.

Definition blank (s : string) : bool := String.eqb (strings_TrimSpace s) "".

(** The defaults of one target. *)
Definition defaultTarget (t : Target) : Target :=
  {| Name := Name t;
     URL := URL t;
     Method := if blank (Method t) then "GET" else Method t;
     Interval := if blank (Interval t) then "30s" else Interval t;
     Timeout := if blank (Timeout t) then "5s" else Timeout t;
     ExpectedStatus := if Z.eqb (ExpectedStatus t) 0 then 200 else ExpectedStatus t;
     Contains := Contains t;
     MaxBodyBytes := if Z.eqb (MaxBodyBytes t) 0 then 64 * 1024 else MaxBodyBytes t;
     Enabled := match Enabled t with None => Some true | Some v => Some v end;
     Tags := Tags t;
     IntervalDur := IntervalDur t;
     TimeoutDur := TimeoutDur t |}.

Definition applyDefaults (cfg : Config) : Config :=
  {| Server :=
       {| Addr := if blank (Addr (Server cfg)) then ":8080"
                  else Addr (Server cfg) |};
     Monitoring :=
       {| Workers := if Z.leb (Workers (Monitoring cfg)) 0 then 8
                     else Workers (Monitoring cfg);
          JobsBuffer := if Z.leb (JobsBuffer (Monitoring cfg)) 0 then 200
                        else JobsBuffer (Monitoring cfg);
          ResultsBuffer := if Z.leb (ResultsBuffer (Monitoring cfg)) 0 then 200
                           else ResultsBuffer (Monitoring cfg);
          UserAgent := if blank (UserAgent (Monitoring cfg))
                       then "CyprusStatusMonitor/0.1"
                       else UserAgent (Monitoring cfg) |};
     Targets := List.map defaultTarget (Targets cfg) |}.

(** The body of the loop of [validateAndNormalize] for the target of
    index [i], the names in [seen] being taken: the target normalised,
    or the error.  [ParseDuration] is [time.ParseDuration]. *)
Definition validateTarget (ParseDuration : string -> Result Duration)
    (i : Z) (seen : gset string) (t : Target) : Result Target :=
  let name := strings_TrimSpace (Name t) in
  let url := strings_TrimSpace (URL t) in
  let method := strings_ToUpper (strings_TrimSpace (Method t)) in
  if String.eqb name "" then
    Err ("config: target[" ++ fmt_d i ++ "] missing name")
  else if bool_decide (name ∈ seen) then
    Err ("config: duplicate target name " ++ strconv_Quote name)
  else if String.eqb url "" then
    Err ("config: target " ++ strconv_Quote name ++ " missing url")
  else if negb (strings_HasPrefix url "http://")
          && negb (strings_HasPrefix url "https://") then
    Err ("config: target " ++ strconv_Quote name
           ++ " url must start with http:// or https://")
  else if negb (String.eqb method "GET" || String.eqb method "HEAD") then
    Err ("config: target " ++ strconv_Quote name ++ " invalid method "
           ++ strconv_Quote method ++ " (use GET or HEAD)")
  else
    match ParseDuration (Interval t) with
    | Err e =>
        Err ("config: target " ++ strconv_Quote name ++ " invalid interval "
               ++ strconv_Quote (Interval t) ++ ": " ++ e)
    | Ok intervalDur =>
        if Z.leb intervalDur 0 then
          Err ("config: target " ++ strconv_Quote name
                 ++ " interval must be > 0")
        else
          match ParseDuration (Timeout t) with
          | Err e =>
              Err ("config: target " ++ strconv_Quote name
                     ++ " invalid timeout " ++ strconv_Quote (Timeout t)
                     ++ ": " ++ e)
          | Ok timeoutDur =>
              if Z.leb timeoutDur 0 then
                Err ("config: target " ++ strconv_Quote name
                       ++ " timeout must be > 0")
              else if Z.ltb (ExpectedStatus t) 100
                      || Z.gtb (ExpectedStatus t) 599 then
                Err ("config: target " ++ strconv_Quote name
                       ++ " expected_status must be 100..599")
              else if Z.ltb (MaxBodyBytes t) 0 then
                Err ("config: target " ++ strconv_Quote name
                       ++ " max_body_bytes cannot be negative")
              else if String.eqb method "HEAD" && negb (blank (Contains t)) then
                Err ("config: target " ++ strconv_Quote name
                       ++ " uses method HEAD but has contains check; use GET instead")
              else
                Ok {| Name := name; URL := url; Method := method;
                      Interval := Interval t; Timeout := Timeout t;
                      ExpectedStatus := ExpectedStatus t;
                      Contains := Contains t;
                      MaxBodyBytes := MaxBodyBytes t;
                      Enabled := Enabled t; Tags := Tags t;
                      IntervalDur := intervalDur;
                      TimeoutDur := timeoutDur |}
          end
    end.

(** The loop of [validateAndNormalize] from index [i] on. *)
Fixpoint validateTargets (ParseDuration : string -> Result Duration)
    (i : Z) (seen : gset string) (ts : list Target) : Result (list Target) :=
  match ts with
  | [] => Ok []
  | t :: rest =>
      match validateTarget ParseDuration i seen t with
      | Err e => Err e
      | Ok t' =>
          match validateTargets ParseDuration (i + 1)
                  ({[Name t']} ∪ seen) rest with
          | Err e => Err e
          | Ok rest' => Ok (t' :: rest')
          end
      end
  end.

(** [validateAndNormalize]: the configuration normalised in place, or
    the first error. *)
Definition validateAndNormalize (ParseDuration : string -> Result Duration)
    (cfg : Config) : Result Config :=
  match Targets cfg with
  | [] => Err "config: no targets provided"
  | _ :: _ =>
      match validateTargets ParseDuration 0 ∅ (Targets cfg) with
      | Err e => Err e
      | Ok ts =>
          Ok {| Server := Server cfg; Monitoring := Monitoring cfg;
                Targets := ts |}
      end
  end.

(** [Load]: [file] is the outcome of [os.ReadFile] and [unmarshal] is
    [yaml.Unmarshal] into a fresh [Config]. *)
Definition Load (ParseDuration : string -> Result Duration)
    (file : Result string) (unmarshal : string -> Result Config)
    : Result Config :=
  match file with
  | Err e => Err ("read config: " ++ e)
  | Ok b =>
      match unmarshal b with
      | Err e => Err ("parse yaml: " ++ e)
      | Ok cfg => validateAndNormalize ParseDuration (applyDefaults cfg)
      end
  end.

End config.

(** [toMonitorTargets] of the server. *)
Definition toMonitorTargets (ct : list config.Target) : list Target :=
  List.map (fun t =>
    {| Name := config.Name t;
       URL := config.URL t;
       Method := config.Method t;
       Interval := config.IntervalDur t;
       Timeout := config.TimeoutDur t;
       ExpectedStatus := config.ExpectedStatus t;
       Contains := config.Contains t;
       MaxBodyBytes := config.MaxBodyBytes t;
       Enabled := match config.Enabled t with Some v => v | None => true end;
       Tags := config.Tags t |}) ct.

(** A target of a validated configuration is well formed. *)
Definition wellFormed (t : Target) : Prop :=
  Name t <> "" /\
  (strings_HasPrefix (URL t) "http://" = true
   \/ strings_HasPrefix (URL t) "https://" = true) /\
  (Method t = "GET" \/ Method t = "HEAD") /\
  0 < Interval t /\ 0 < Timeout t /\
  100 <= ExpectedStatus t <= 599 /\
  0 <= MaxBodyBytes t /\
  (Method t = "HEAD" -> substringRequirement t = "").

(** A sample file of one target and a parser of the durations it uses. *)
Definition sampleParse (s : string) : Result Duration :=
  if String.eqb s "30s" then Ok 30000000000
  else if String.eqb s "5s" then Ok 5000000000
  else Err ("time: invalid duration " ++ strconv_Quote s).

Definition sampleConfig : config.Config :=
  {| config.Server := {| config.Addr := "" |};
     config.Monitoring :=
       {| config.Workers := 0; config.JobsBuffer := 0;
          config.ResultsBuffer := 0; config.UserAgent := "" |};
     config.Targets :=
       [ {| config.Name := " Alpha "; config.URL := "https://alpha.example/health";
            config.Method := "get"; config.Interval := ""; config.Timeout := "";
            config.ExpectedStatus := 0; config.Contains := "OK";
            config.MaxBodyBytes := 0; config.Enabled := None;
            config.Tags := []; config.IntervalDur := 0;
            config.TimeoutDur := 0 |} ] |}.

(** What [validateTarget] makes of a target [t] that it accepts. *)
Definition accepted (ParseDuration : string -> Result Duration)
    (t t' : config.Target) : Prop :=
  config.Name t' = strings_TrimSpace (config.Name t) /\
  config.URL t' = strings_TrimSpace (config.URL t) /\
  config.Method t' = strings_ToUpper (strings_TrimSpace (config.Method t)) /\
  ParseDuration (config.Interval t) = Ok (config.IntervalDur t') /\
  ParseDuration (config.Timeout t) = Ok (config.TimeoutDur t') /\
  config.ExpectedStatus t' = config.ExpectedStatus t /\
  config.Contains t' = config.Contains t /\
  config.MaxBodyBytes t' = config.MaxBodyBytes t /\
  config.Enabled t' = config.Enabled t /\
  config.Tags t' = config.Tags t.

(** The validation texts of [CheckOnce] for a target of a loaded
    configuration and a response of status [code]. *)
Definition statusMessage (t : Target) (code : Z) : string :=
  "unexpected status: got " ++ fmt_d code ++ " want " ++ fmt_d (ExpectedStatus t).

Definition keywordMessage (t : Target) : string :=
  "keyword missing: " ++ strconv_Quote (substringRequirement t).


(** What [config.Load] makes of the sample file. *)
Definition sampleLoaded : config.Config :=
  {| config.Server := {| config.Addr := ":8080" |};
     config.Monitoring :=
       {| config.Workers := 8; config.JobsBuffer := 200;
          config.ResultsBuffer := 200;
          config.UserAgent := "CyprusStatusMonitor/0.1" |};
     config.Targets :=
       [ {| config.Name := "Alpha"; config.URL := "https://alpha.example/health";
            config.Method := "GET"; config.Interval := "30s";
            config.Timeout := "5s"; config.ExpectedStatus := 200;
            config.Contains := "OK"; config.MaxBodyBytes := 65536;
            config.Enabled := Some true; config.Tags := [];
            config.IntervalDur := 30000000000;
            config.TimeoutDur := 5000000000 |} ] |}.

(** The sample target as the monitor gets it. *)
Definition sampleTarget : Target :=
  {| Name := "Alpha"; URL := "https://alpha.example/health"; Method := "GET";
     Interval := 30000000000; Timeout := 5000000000; ExpectedStatus := 200;
     Contains := "OK"; MaxBodyBytes := 65536; Enabled := true; Tags := [] |}.

(** ** Restoring a state from table [check_results]
    ([loadStateFromDB] in src/backend/internal/config/config.go)

    The queries are modelled by what they return when the database
    executes them. *)

(** [strings.EqualFold] on ASCII text. *)
Definition strings_EqualFold (s t : string) : bool :=
  String.eqb (strings_ToLower s) (strings_ToLower t).

(** The rows [WHERE target_name = $1]. *)
Definition rowsOf (target : string) (tbl : CheckResults) : list CheckRow :=
  List.filter (fun r => String.eqb (cr_target_name r) target) (cr_rows tbl).

(** [byTime] is an answer to [WHERE target_name = $1 ORDER BY checked_at
    DESC]: the rows of the target, no row before a more recent one. *)
Definition newestFirst (target : string) (tbl : CheckResults)
    (byTime : list CheckRow) : Prop :=
  Permutation byTime (rowsOf target tbl) /\
  StronglySorted (fun a b => checked_at b <= checked_at a) byTime.

(** The loop over the statuses fetched for the streak. *)
Fixpoint streakLoop (statuses : list string) (streak : Z) (firstStatus : string)
    : Z :=
  match statuses with
  | [] => streak
  | s :: rest =>
      let firstStatus := if Z.eqb streak 0 then s else firstStatus in
      if negb (strings_EqualFold s firstStatus) then streak
      else streakLoop rest (wrap64 (streak + 1)) firstStatus
  end.

(** [loadStateFromDB] for [target]: [db] is the table, [None] for a nil
    pool; [latest] and [recent] are the answers of the database to the
    first and to the last query, both ordered by [checked_at DESC], before
    their [LIMIT]. *)
Definition loadStateFromDB (target : string) (db : option CheckResults)
    (latest recent : list CheckRow) : Result (option State) :=
  match db with
  | None => Err "db pool nil"
  | Some tbl =>
      match latest with
      | [] => Ok None
      | r :: _ =>
          let lastUp := strings_EqualFold (status r) "UP" in
          let total := Z.of_nat (List.length (rowsOf target tbl)) in
          let fails :=
            Z.of_nat (List.length
                        (List.filter (fun r => negb (String.eqb (status r) "UP"))
                           (rowsOf target tbl))) in
          let streak :=
            streakLoop (List.map status (List.firstn 100 recent)) 0 "" in
          Ok (Some
            {| st_Name := target;
               st_URL := "";
               LastUp := lastUp;
               LastChecked := checked_at r;
               LastLatency :=
                 wrap64 (match latency_ms r with Some v => v | None => 0 end
                         * Millisecond);
               LastStatusCode :=
                 match status_code r with Some v => v | None => 0 end;
               LastError := match error r with Some e => e | None => "" end;
               ConsecutiveSuccess := if lastUp then streak else 0;
               ConsecutiveFail := if lastUp then 0 else streak;
               TotalChecks := total;
               TotalFails := fails;
               History := [] |})
      end
  end.

(** One iteration of the loop of [Aggregator] with its database: the
    result is written to [check_results] at clock reading [insertAt],
    then the state is looked up, restored from the table when the map
    has none, and updated at clock reading [now]. *)
Definition Aggregator_receive (insertAt now : Time)
    (latest recent : list CheckRow) (db : option CheckResults)
    (state : gmap string State) (res : CheckResult)
    : option CheckResults * (gmap string State * option Event) :=
  let db' := option_map (persistCheckResult insertAt res) db in
  let loaded := fun name =>
    match loadStateFromDB name db' latest recent with
    | Ok l => l
    | Err _ => None
    end in
  (db', Aggregator_step loaded now state res).

(** A table with one failure of Alpha, and the success that follows a
    restart of the monitor. *)
Definition oneFailure : CheckResults :=
  persistCheckResult 2001 (CheckOnce (clockAt 2000) alpha (respond 500 "broken"))
    noResults.

Definition afterRestart : CheckResult :=
  CheckOnce (clockAt 3000) alpha (respond 200 "fine").

Definition afterRestartRows : list CheckRow :=
  [ checkRow 3001 afterRestart 2;
    checkRow 2001 (CheckOnce (clockAt 2000) alpha (respond 500 "broken")) 1 ].

(** The results at the head of a list that are stored under status [s],
    and the results at the end of a list that are stored under the status
    of the last one. *)
Fixpoint leadingRun (s : string) (l : list CheckResult) : nat :=
  match l with
  | [] => O
  | r :: l' => if String.eqb (resultStatus r) s then S (leadingRun s l') else O
  end.

Definition trailingRun (l : list CheckResult) : nat :=
  match List.rev l with
  | [] => O
  | r :: _ => leadingRun (resultStatus r) (List.rev l)
  end.

(** Three checks of Alpha: a success, then two server errors. *)
Definition upDownDown : list (Time * CheckResult) :=
  [ (1001, CheckOnce (clockAt 1000) alpha (respond 200 "fine"));
    (2001, CheckOnce (clockAt 2000) alpha (respond 500 "broken"));
    (3001, CheckOnce (clockAt 3000) alpha (respond 503 "broken")) ].

Definition upDownDownRows : list CheckRow :=
  [ checkRow 3001 (CheckOnce (clockAt 3000) alpha (respond 503 "broken")) 3;
    checkRow 2001 (CheckOnce (clockAt 2000) alpha (respond 500 "broken")) 2;
    checkRow 1001 (CheckOnce (clockAt 1000) alpha (respond 200 "fine")) 1 ].

(** ** The alerts ([IncidentCollector] with a Telegram bot,
    [formatTelegramDownMessage] and [formatTelegramUpMessage] in
    src/unnamed/part_004) *)

(** A line feed and the UTF-8 bytes of the three signs of the alerts:
    U+1F6A8, U+2705 and U+2014. *)
Definition lineFeed : string := String "010"%char "".
Definition sirenSign : string :=
  String "240"%char (String "159"%char (String "154"%char (String "168"%char ""))).
Definition checkSign : string :=
  String "226"%char (String "156"%char (String "133"%char "")).
Definition emDash : string :=
  String "226"%char (String "128"%char (String "148"%char "")).

(** [format] is [t.UTC().Format] with the layout of the alerts. *)
Definition formatTelegramDownMessage (format : Time -> string) (ev : Event)
    : string :=
  let statusLine := "Status: " in
  let statusLine :=
    if Z.eqb (ev_StatusCode ev) 0 && negb (String.eqb (Reason ev) "") then
      statusLine ++ ("TIMEOUT (" ++ Reason ev ++ ")")
    else if Z.eqb (ev_StatusCode ev) 0 then statusLine ++ "TIMEOUT"
    else if Z.geb (ev_StatusCode ev) 500 then
      statusLine ++ ("HTTP " ++ fmt_d (ev_StatusCode ev) ++ " (server error)")
    else statusLine ++ ("HTTP " ++ fmt_d (ev_StatusCode ev)) in
  let statusLine :=
    if negb (String.eqb (Reason ev) "") && negb (Z.eqb (ev_StatusCode ev) 0)
    then statusLine ++ (" " ++ emDash ++ " " ++ Reason ev)
    else statusLine in
  sirenSign ++ " DOWN: " ++ ev_TargetName ev ++ lineFeed
    ++ statusLine ++ lineFeed
    ++ "Probe: primary" ++ lineFeed
    ++ "At: " ++ format (ev_At ev).

Definition formatTelegramUpMessage (format : Time -> string) (ev : Event)
    : string :=
  let statusLine := "Status: " in
  let statusLine :=
    if Z.eqb (ev_StatusCode ev) 0 then statusLine ++ "UP"
    else
      let statusLine := statusLine ++ ("HTTP " ++ fmt_d (ev_StatusCode ev)) in
      if negb (String.eqb (Reason ev) "")
      then statusLine ++ (" " ++ emDash ++ " " ++ Reason ev)
      else statusLine in
  checkSign ++ " UP: " ++ ev_TargetName ev ++ lineFeed
    ++ statusLine ++ lineFeed
    ++ "Probe: primary" ++ lineFeed
    ++ "At: " ++ format (ev_At ev).

(** The text that the collector sends for an event. *)
Definition telegramText (format : Time -> string) (ev : Event) : string :=
  if negb (To ev) then formatTelegramDownMessage format ev
  else formatTelegramUpMessage format ev.

(** A refused connection. *)
Definition refused : Exchange :=
  DoFailed (url_Error "Get" "https://alpha.example/health"
              (errors_New "dial tcp 192.0.2.1:443: connect: connection refused")).

(** A sample layout of the time of an alert. *)
Definition sampleFormat (t : Time) : string := "t" ++ fmt_d t.

(** * Properties *)

(** Case analysis on the test of a conditional of the goal. *)
Ltac case_if :=
  match goal with
  | |- context [if ?c then _ else _] => destruct c
  end.

(** ** The checker *)

Lemma statusMatchesPolicy_code (t : Target) (code : Z) :
  statusMatchesPolicy t code =
  negb ((negb (Z.eqb (ExpectedStatus t) 0) && negb (Z.eqb code (ExpectedStatus t)))
        || (Z.eqb (ExpectedStatus t) 0 && (Z.ltb code 200 || Z.geb code 400))).
Proof.
  unfold statusMatchesPolicy.
  destruct (Z.eqb_spec (ExpectedStatus t) 0) as [E|E]; simpl.
  - destruct (Z.leb_spec 200 code), (Z.ltb_spec code 200),
      (Z.ltb_spec code 400); rewrite Z.geb_leb;
      destruct (Z.leb_spec 400 code); simpl; try reflexivity; lia.
  - destruct (Z.eqb code (ExpectedStatus t)); reflexivity.
Qed.

(** What [CheckOnce] answers to a response, by cases on the status policy
    and on the substring requirement. *)
Lemma CheckOnce_responded (clk : Clock) (t : Target) (resp : Response) :
  CheckOnce clk t (Responded resp) =
  let code := resp_StatusCode resp in
  if negb (statusMatchesPolicy t code) then
    result clk t false code ""
      (if Z.eqb (ExpectedStatus t) 0 then "bad status: " ++ fmt_d code
       else "unexpected status: got " ++ fmt_d code ++ " want "
              ++ fmt_d (ExpectedStatus t))
  else if String.eqb (substringRequirement t) "" then result clk t true code "" ""
  else match bodyRead t resp with
       | None =>
           result clk t false code ""
             "contains check configured but method is HEAD (no body)"
       | Some (inr readErr) =>
           result clk t false code ("read body: " ++ err_Error readErr) ""
       | Some (inl bodyBytes) =>
           if strings_Contains bodyBytes (substringRequirement t)
           then result clk t true code "" ""
           else result clk t false code ""
                  ("keyword missing: " ++ strconv_Quote (substringRequirement t))
       end.
Proof.
  unfold CheckOnce, CheckOnce_run, bodyRead, substringRequirement, bodyLimit.
  cbv zeta. rewrite statusMatchesPolicy_code.
  destruct (Z.eqb (ExpectedStatus t) 0) eqn:E0; simpl.
  - destruct (Z.ltb (resp_StatusCode resp) 200 || Z.geb (resp_StatusCode resp) 400);
      simpl; [reflexivity|].
    destruct (String.eqb (strings_TrimSpace (Contains t)) ""); simpl; [reflexivity|].
    destruct (String.eqb (strings_ToUpper (Method t)) "HEAD"); simpl; [reflexivity|].
    change (64 * 1024) with 65536.
    destruct (readAllLimited _ _) as [[b|e] k]; simpl; [|reflexivity].
    destruct (strings_Contains b _); reflexivity.
  - destruct (Z.eqb (resp_StatusCode resp) (ExpectedStatus t)); simpl; [|reflexivity].
    destruct (String.eqb (strings_TrimSpace (Contains t)) ""); simpl; [reflexivity|].
    destruct (String.eqb (strings_ToUpper (Method t)) "HEAD"); simpl; [reflexivity|].
    change (64 * 1024) with 65536.
    destruct (readAllLimited _ _) as [[b|e] k]; simpl; [|reflexivity].
    destruct (strings_Contains b _); reflexivity.
Qed.

(** C3. A check is up exactly when the exchange brought a response (no
    transport error), the status code matches the policy (the expected
    status when there is one, else any code of [200,400)), and either no
    substring is required or the required substring occurs in the body
    that was read without error; and a status that does not match the
    policy gives a result that is down, with a validation message and no
    transport error. *)
Theorem C3_CheckOnce_up_iff (clk : Clock) (t : Target) (ex : Exchange) :
  (Up (CheckOnce clk t ex) = true <->
   exists resp,
     ex = Responded resp /\
     statusMatchesPolicy t (resp_StatusCode resp) = true /\
     (substringRequirement t = "" \/
      exists body, bodyRead t resp = Some (inl body) /\
                   strings_Contains body (substringRequirement t) = true)) /\
  (forall resp,
     ex = Responded resp ->
     statusMatchesPolicy t (resp_StatusCode resp) = false ->
     Up (CheckOnce clk t ex) = false /\
     Validation (CheckOnce clk t ex) <> "" /\
     Error (CheckOnce clk t ex) = "").
Proof.
  split.
  - destruct ex as [err|err|resp].
    + split; [discriminate|]. intros (resp & H & _). discriminate.
    + split; [discriminate|]. intros (resp & H & _). discriminate.
    + rewrite CheckOnce_responded. cbv zeta.
      destruct (statusMatchesPolicy t (resp_StatusCode resp)) eqn:Hs; simpl.
      * destruct (String.eqb_spec (substringRequirement t) "") as [Hc|Hc]; simpl.
        { split; [|reflexivity]. intros _. exists resp. auto. }
        destruct (bodyRead t resp) as [[b|e]|] eqn:Hb; simpl.
        { destruct (strings_Contains b (substringRequirement t)) eqn:Hk; simpl.
          - split; [|reflexivity]. intros _. exists resp.
            split; [reflexivity|]. split; [assumption|]. right. exists b. auto.
          - split; [discriminate|].
            intros (resp' & H & _ & [Hc'|(b' & Hb' & Hk')]); [contradiction|].
            injection H as <-. rewrite Hb in Hb'. injection Hb' as <-. congruence. }
        { split; [discriminate|].
          intros (resp' & H & _ & [Hc'|(b' & Hb' & _)]); [contradiction|].
          injection H as <-. rewrite Hb in Hb'. discriminate. }
        { split; [discriminate|].
          intros (resp' & H & _ & [Hc'|(b' & Hb' & _)]); [contradiction|].
          injection H as <-. rewrite Hb in Hb'. discriminate. }
      * split; [discriminate|]. intros (resp' & H & Hs' & _).
        injection H as <-. congruence.
  - intros resp -> Hs. rewrite CheckOnce_responded. cbv zeta. rewrite Hs. simpl.
    split; [reflexivity|]. split; [|reflexivity].
    destruct (Z.eqb (ExpectedStatus t) 0); discriminate.
Qed.

Lemma C3_CheckOnce_up_iff_witness :
  Up (CheckOnce (clockAt 1000) alpha (respond 404 "gone")) = false /\
  Validation (CheckOnce (clockAt 1000) alpha (respond 404 "gone")) <> "" /\
  Error (CheckOnce (clockAt 1000) alpha (respond 404 "gone")) = "".
Proof.
  apply (proj2 (C3_CheckOnce_up_iff (clockAt 1000) alpha (respond 404 "gone"))
           {| resp_StatusCode := 404;
              resp_Body := {| body_data := "gone"; body_err := None |} |});
    reflexivity.
Defined.

(** C9. A GET target that requires the substring OK, a response whose
    status passes and whose body, read up to the limit, lacks OK: the
    result is down, its validation text is the keyword message with the
    keyword quoted, and its transport-error text is empty. *)
Theorem C9_keyword_missing (clk : Clock) (t : Target) (resp : Response)
    (body : string) :
  Method t = "GET" ->
  Contains t = "OK" ->
  statusMatchesPolicy t (resp_StatusCode resp) = true ->
  fst (readAllLimited (resp_Body resp) (bodyLimit t)) = inl body ->
  strings_Contains body "OK" = false ->
  Up (CheckOnce clk t (Responded resp)) = false /\
  Validation (CheckOnce clk t (Responded resp)) =
    "keyword missing: " ++ String dquote ("OK" ++ String dquote EmptyString) /\
  Error (CheckOnce clk t (Responded resp)) = "".
Proof.
  intros Hm Hc Hs Hb Hk. rewrite CheckOnce_responded. cbv zeta.
  unfold bodyRead, substringRequirement. rewrite Hs, Hc, Hm, Hb.
  change (strings_TrimSpace "OK") with "OK".
  change (strings_ToUpper "GET") with "GET".
  change (String.eqb "GET" "HEAD") with false.
  change (String.eqb "OK" "") with false. cbv iota.
  rewrite Hk. repeat split.
Qed.

Lemma C9_keyword_missing_witness :
  Up (CheckOnce (clockAt 1000) alphaOK (respond 200 "hello")) = false /\
  Validation (CheckOnce (clockAt 1000) alphaOK (respond 200 "hello")) =
    "keyword missing: " ++ String dquote ("OK" ++ String dquote EmptyString) /\
  Error (CheckOnce (clockAt 1000) alphaOK (respond 200 "hello")) = "".
Proof.
  apply (C9_keyword_missing (clockAt 1000) alphaOK
           {| resp_StatusCode := 200;
              resp_Body := {| body_data := "hello"; body_err := None |} |}
           "hello"); vm_compute; reflexivity.
Defined.

Lemma readAllLimited_bytes (b : Body) (maxBytes : Z) :
  snd (readAllLimited b maxBytes) =
  Nat.min (Z.to_nat maxBytes) (String.length (body_data b)).
Proof.
  unfold readAllLimited.
  destruct (Nat.leb_spec (Z.to_nat maxBytes) (String.length (body_data b))).
  - simpl. lia.
  - destruct (body_err b); simpl; lia.
Qed.

Lemma bodyBytesRead_responded (clk : Clock) (t : Target) (resp : Response) :
  bodyBytesRead clk t (Responded resp) =
  if negb (statusMatchesPolicy t (resp_StatusCode resp)) then O
  else if String.eqb (substringRequirement t) "" then O
  else if String.eqb (strings_ToUpper (Method t)) "HEAD" then O
  else snd (readAllLimited (resp_Body resp) (bodyLimit t)).
Proof.
  unfold bodyBytesRead, CheckOnce_run, substringRequirement, bodyLimit.
  cbv zeta. rewrite statusMatchesPolicy_code. change (64 * 1024) with 65536.
  destruct (negb (Z.eqb (ExpectedStatus t) 0)
            && negb (Z.eqb (resp_StatusCode resp) (ExpectedStatus t)));
    [reflexivity|].
  destruct (Z.eqb (ExpectedStatus t) 0
            && (Z.ltb (resp_StatusCode resp) 200
                || Z.geb (resp_StatusCode resp) 400)); [reflexivity|].
  cbn [orb negb].
  destruct (String.eqb (strings_TrimSpace (Contains t)) ""); cbn [negb];
    [reflexivity|].
  destruct (String.eqb (strings_ToUpper (Method t)) "HEAD"); [reflexivity|].
  destruct (readAllLimited _ _) as [[b|e] k]; cbn [snd]; [|reflexivity].
  destruct (negb _); reflexivity.
Qed.

Lemma bodyBytesRead_cases (clk : Clock) (t : Target) (ex : Exchange) :
  bodyBytesRead clk t ex = O \/
  exists resp, ex = Responded resp /\
    bodyBytesRead clk t ex = snd (readAllLimited (resp_Body resp) (bodyLimit t)).
Proof.
  destruct ex as [e|e|resp]; [left; reflexivity..|].
  rewrite bodyBytesRead_responded.
  repeat (case_if; [left; reflexivity|]).
  right. exists resp. split; reflexivity.
Qed.

Lemma bodyBytesRead_le (clk : Clock) (t : Target) (ex : Exchange) :
  (bodyBytesRead clk t ex <= Z.to_nat (bodyLimit t))%nat.
Proof.
  destruct (bodyBytesRead_cases clk t ex) as [->|(resp & _ & ->)]; [lia|].
  rewrite readAllLimited_bytes. lia.
Qed.

Lemma CheckOnce_limit_only (clk : Clock) (t : Target) (ex : Exchange) (n : Z) :
  bodyLimit t = bodyLimit (with_MaxBodyBytes n t) ->
  CheckOnce clk t ex = CheckOnce clk (with_MaxBodyBytes n t) ex.
Proof.
  intros Hl. destruct ex as [e|e|resp]; [reflexivity..|].
  rewrite !CheckOnce_responded. unfold bodyRead. rewrite <- Hl. reflexivity.
Qed.

(** C10. A target that requires a substring and whose limit on the body
    is zero or negative is checked under the limit of 65536 bytes: no more
    than 65536 bytes of the body are read, the result is the one of the
    same target with the limit 65536, and when the body is read (the
    status passes, the requirement is not blank, the method is not HEAD)
    the bytes read are the first 65536 at most, in which alone the
    substring is looked for. *)
Theorem C10_default_body_limit (clk : Clock) (t : Target) (ex : Exchange) :
  Contains t <> "" ->
  (MaxBodyBytes t <= 0)%Z ->
  bodyLimit t = 65536 /\
  (Z.of_nat (bodyBytesRead clk t ex) <= 65536)%Z /\
  CheckOnce clk t ex = CheckOnce clk (with_MaxBodyBytes 65536 t) ex /\
  (forall resp,
     ex = Responded resp ->
     statusMatchesPolicy t (resp_StatusCode resp) = true ->
     substringRequirement t <> "" ->
     strings_ToUpper (Method t) <> "HEAD" ->
     Z.of_nat (bodyBytesRead clk t ex) =
       Z.min 65536 (Z.of_nat (String.length (body_data (resp_Body resp)))) /\
     ((65536 <= Z.of_nat (String.length (body_data (resp_Body resp))))%Z ->
      Error (CheckOnce clk t ex) = "" /\
      Up (CheckOnce clk t ex) =
        strings_Contains
          (substring 0 (Z.to_nat 65536) (body_data (resp_Body resp)))
          (substringRequirement t))).
Proof.
  intros _ Hmax.
  assert (Hl : bodyLimit t = 65536).
  { unfold bodyLimit. destruct (Z.leb_spec (MaxBodyBytes t) 0); [reflexivity|lia]. }
  split; [exact Hl|]. split.
  { pose proof (bodyBytesRead_le clk t ex) as H. rewrite Hl in H. lia. }
  split.
  { apply CheckOnce_limit_only. rewrite Hl. reflexivity. }
  intros resp -> Hs Hreq Hm.
  assert (Hb : bodyRead t resp
               = Some (fst (readAllLimited (resp_Body resp) 65536))).
  { unfold bodyRead. rewrite Hl.
    destruct (String.eqb_spec (strings_ToUpper (Method t)) "HEAD");
      [contradiction|reflexivity]. }
  split.
  - rewrite bodyBytesRead_responded, Hs.
    destruct (String.eqb_spec (substringRequirement t) "") as [|_];
      [contradiction|].
    destruct (String.eqb_spec (strings_ToUpper (Method t)) "HEAD") as [|_];
      [contradiction|].
    cbn [negb]. rewrite readAllLimited_bytes, Hl. lia.
  - intros Hlen. rewrite CheckOnce_responded. cbv zeta. rewrite Hs, Hb.
    destruct (String.eqb_spec (substringRequirement t) "") as [|_];
      [contradiction|].
    unfold readAllLimited.
    destruct (Nat.leb_spec (Z.to_nat 65536)
                (String.length (body_data (resp_Body resp)))) as [_|Hlt];
      [|lia].
    cbn [fst negb]. destruct (strings_Contains _ _); split; reflexivity.
Qed.

Lemma C10_default_body_limit_witness :
  bodyLimit alphaOK = 65536 /\
  (Z.of_nat (bodyBytesRead (clockAt 1000) alphaOK (respond 200 "hello"))
   <= 65536)%Z /\
  Z.of_nat (bodyBytesRead (clockAt 1000) alphaOK (respond 200 "hello"))
  = Z.min 65536 (Z.of_nat (String.length "hello")).
Proof.
  assert (H1 : Contains alphaOK <> "") by (vm_compute; discriminate).
  assert (H2 : (MaxBodyBytes alphaOK <= 0)%Z) by (vm_compute; discriminate).
  assert (H3 : substringRequirement alphaOK <> "") by (vm_compute; discriminate).
  assert (H4 : strings_ToUpper (Method alphaOK) <> "HEAD")
    by (vm_compute; discriminate).
  destruct (C10_default_body_limit (clockAt 1000) alphaOK
              (respond 200 "hello") H1 H2) as (Ha & Hb & _ & Hd).
  destruct (Hd _ eq_refl eq_refl H3 H4) as [He _].
  exact (conj Ha (conj Hb He)).
Defined.

(** *** Substrings *)


Lemma append_cons (x : ascii) (a s : string) :
  String x a ++ s = String x (a ++ s).
Proof. reflexivity. Qed.

Lemma HasPrefix_app (m b : string) : strings_HasPrefix (m ++ b) m = true.
Proof.
  induction m as [|c m IH]; [reflexivity|].
  rewrite append_cons. cbn [strings_HasPrefix]. rewrite Ascii.eqb_refl. exact IH.
Qed.

Lemma Contains_cons (x : ascii) (s m : string) :
  strings_Contains (String x s) m
  = strings_HasPrefix (String x s) m || strings_Contains s m.
Proof. reflexivity. Qed.

Lemma Contains_app_l (a s m : string) :
  strings_Contains s m = true -> strings_Contains (a ++ s) m = true.
Proof.
  intros H. induction a as [|c a IH]; [exact H|].
  rewrite append_cons, Contains_cons, IH. apply orb_true_r.
Qed.



Lemma byteIn_app (c : ascii) (a b : string) :
  byteIn c (a ++ b) = byteIn c a || byteIn c b.
Proof.
  induction a as [|x a IH]; [reflexivity|].
  rewrite append_cons. cbn [byteIn]. rewrite IH, orb_assoc. reflexivity.
Qed.

Lemma append_assoc (a b c : string) : (a ++ b) ++ c = a ++ (b ++ c).
Proof.
  induction a as [|x a IH]; [reflexivity|]. rewrite !append_cons. now rewrite IH.
Qed.

(** *** The text of the errors of [http.Client.Do] *)

Lemma url_Error_text (op u : string) (inner : GoError) :
  err_Error (url_Error op u inner)
  = (op ++ " " ++ strconv_Quote u) ++ String ":" (" " ++ err_Error inner).
Proof.
  cbn [err_Error]. rewrite !append_assoc. reflexivity.
Qed.

Lemma url_Error_has_space (op u : string) (inner : GoError) :
  byteIn " " (err_Error (url_Error op u inner)) = true.
Proof.
  cbn [err_Error]. rewrite byteIn_app, append_cons. cbn [byteIn Ascii.eqb].
  apply orb_true_r.
Qed.

Lemma url_Error_wraps (op u : string) (inner : GoError) (m : string) :
  strings_Contains (err_Error inner) m = true ->
  strings_Contains (err_Error (url_Error op u inner)) m = true.
Proof.
  intros H. cbn [err_Error]. repeat apply Contains_app_l. exact H.
Qed.

Lemma url_Error_deadline (op u : string) :
  errorsIsContextDeadline (url_Error op u context_DeadlineExceeded) = true.
Proof.
  unfold errorsIsContextDeadline. cbn [orb]. apply url_Error_wraps. reflexivity.
Qed.






(** ** The aggregator *)

Lemma wrap64_small (n : Z) : - 2 ^ 63 <= n < 2 ^ 63 -> wrap64 n = n.
Proof.
  intros H. unfold wrap64. rewrite Z.mod_small; lia.
Qed.

Lemma Aggregator_app (loaded : string -> option State)
    (state : gmap string State) (h1 h2 : list (Time * CheckResult)) :
  Aggregator loaded state (h1 ++ h2) =
  let '(s1, e1) := Aggregator loaded state h1 in
  let '(s2, e2) := Aggregator loaded s1 h2 in
  (s2, (e1 ++ e2)%list).
Proof.
  revert state. induction h1 as [|[now res] h1 IH]; intros state.
  - simpl. destruct (Aggregator loaded state h2). reflexivity.
  - rewrite <- app_comm_cons. cbn [Aggregator].
    destruct (Aggregator_step loaded now state res) as [s' ev].
    rewrite IH.
    destruct (Aggregator loaded s' h1) as [s1 e1].
    destruct (Aggregator loaded s1 h2) as [s2 e2].
    destruct ev; reflexivity.
Qed.

Lemma lastResultFor_snoc (name : string) (h : list (Time * CheckResult))
    (x : Time * CheckResult) :
  lastResultFor name (h ++ [x]) =
  if isFor name x then Some (snd x) else lastResultFor name h.
Proof.
  unfold lastResultFor. rewrite rev_unit. cbn [List.find].
  destruct (isFor name x); reflexivity.
Qed.

Lemma countFor_snoc (name : string) (h : list (Time * CheckResult))
    (x : Time * CheckResult) :
  countFor name (h ++ [x]) =
  (countFor name h + if isFor name x then 1 else 0)%nat.
Proof.
  unfold countFor. rewrite List.filter_app, List.length_app. cbn [List.filter].
  destruct (isFor name x); reflexivity.
Qed.

Lemma countFor_le (name : string) (h : list (Time * CheckResult)) :
  (countFor name h <= List.length h)%nat.
Proof. apply List.filter_length_le. Qed.

(** What the state map holds after a run from nothing: for each target
    the up-value of its last result and the number of its results. *)
Lemma Aggregator_state_inv (h : list (Time * CheckResult)) (name : string) :
  Z.of_nat (List.length h) < 2 ^ 63 ->
  match lastResultFor name h with
  | None => fst (Aggregator noHistory ∅ h) !! name = None /\ countFor name h = O
  | Some p =>
      exists st, fst (Aggregator noHistory ∅ h) !! name = Some st /\
                 LastUp st = Up p /\
                 TotalChecks st = Z.of_nat (countFor name h) /\
                 (1 <= countFor name h)%nat
  end.
Proof.
  revert name. induction h as [|[now res] h IH] using rev_ind; intros name Hlen.
  - split; [apply lookup_empty|reflexivity].
  - rewrite List.length_app in Hlen. cbn [List.length] in Hlen.
    rewrite Aggregator_app. cbv zeta.
    destruct (Aggregator noHistory ∅ h) as [s1 e1] eqn:Hagg.
    cbn [Aggregator]. unfold Aggregator_step. cbv zeta. cbn [fst].
    rewrite lastResultFor_snoc, countFor_snoc. unfold isFor. cbn [snd].
    destruct (String.eqb_spec (TargetName res) name) as [<-|Hne].
    + exists (updateState now (locateState noHistory s1 res) res).
      rewrite lookup_insert_eq. split; [reflexivity|]. split; [reflexivity|].
      split; [|lia].
      cbn [updateState TotalChecks].
      pose proof (countFor_le (TargetName res) h) as Hc.
      specialize (IH (TargetName res) ltac:(lia)). cbn [fst] in IH.
      unfold locateState, noHistory.
      destruct (lastResultFor (TargetName res) h) as [p|].
      * destruct IH as (st & -> & _ & -> & _). rewrite wrap64_small; lia.
      * destruct IH as [-> ->]. reflexivity.
    + rewrite lookup_insert_ne by exact Hne.
      specialize (IH name ltac:(lia)). cbn [fst] in IH.
      rewrite Nat.add_0_r. exact IH.
Qed.

Lemma Aggregator_step_event (loaded : string -> option State) (now : Time)
    (state : gmap string State) (res : CheckResult) :
  snd (Aggregator_step loaded now state res) =
  let st := locateState loaded state res in
  if Z.gtb (TotalChecks (updateState now st res)) 1
     && negb (Bool.eqb (LastUp st) (Up res))
  then Some (transition (LastUp st) res) else None.
Proof. reflexivity. Qed.

Lemma Aggregator_step_first (loaded : string -> option State) (now : Time)
    (state : gmap string State) (res : CheckResult) :
  state !! TargetName res = None -> loaded (TargetName res) = None ->
  snd (Aggregator_step loaded now state res) = None.
Proof.
  intros Hs Hl. rewrite Aggregator_step_event. cbv zeta.
  unfold locateState. rewrite Hs, Hl. reflexivity.
Qed.

(** C1. The aggregator offers a transition event for a result exactly
    when, after the update, the target has more than one recorded check
    and the up-value of the result differs from the previous one, and the
    event goes from the previous up-value to the new one; the first result
    of a target that has no state and no history gives no event, up or
    down; and over a run from nothing, a result gives an event exactly
    when the preceding result of the same target has the other
    up-value. *)
Theorem C1_event_iff_prior_check_and_flip
    (loaded : string -> option State) (now : Time)
    (state : gmap string State) (res : CheckResult)
    (history : list (Time * CheckResult)) :
  let st := locateState loaded state res in
  let offered := snd (Aggregator_step loaded now state res) in
  (offered <> None <->
   1 < TotalChecks (updateState now st res) /\ LastUp st <> Up res) /\
  (forall e, offered = Some e -> e = transition (LastUp st) res) /\
  (state !! TargetName res = None -> loaded (TargetName res) = None ->
   offered = None) /\
  (Z.of_nat (List.length history) < 2 ^ 63 - 1 ->
   snd (Aggregator_step noHistory now
          (fst (Aggregator noHistory ∅ history)) res) =
   match lastResultFor (TargetName res) history with
   | Some p =>
       if Bool.eqb (Up p) (Up res) then None else Some (transition (Up p) res)
   | None => None
   end).
Proof.
  intros st offered. subst offered. rewrite !Aggregator_step_event. cbv zeta.
  fold st. split; [|split; [|split]].
  - split.
    + intros H.
      destruct (Z.gtb_spec (TotalChecks (updateState now st res)) 1) as [Hgt|Hle];
        [|contradiction].
      split; [lia|]. intros E. rewrite E, Bool.eqb_reflx in H. contradiction.
    + intros [Ht Hu].
      destruct (Z.gtb_spec (TotalChecks (updateState now st res)) 1); [|lia].
      destruct (LastUp st), (Up res); cbn; congruence.
  - intros e.
    destruct (Z.gtb _ 1 && negb _); [|discriminate]. congruence.
  - intros Hs Hl.
    pose proof (Aggregator_step_first loaded now state res Hs Hl) as H.
    rewrite Aggregator_step_event in H. exact H.
  - intros Hlen.
    pose proof (Aggregator_state_inv history (TargetName res) ltac:(lia)) as Hinv.
    pose proof (countFor_le (TargetName res) history) as Hc.
    unfold locateState.
    destruct (lastResultFor (TargetName res) history) as [p|].
    + destruct Hinv as (s & -> & Hup & Htot & Hone).
      cbn [updateState TotalChecks]. rewrite Htot, Hup.
      rewrite wrap64_small by lia.
      destruct (Z.gtb_spec (Z.of_nat (countFor (TargetName res) history) + 1) 1);
        [|lia].
      destruct (Bool.eqb (Up p) (Up res)); reflexivity.
    + destruct Hinv as [-> _]. reflexivity.
Qed.

Lemma C1_event_iff_prior_check_and_flip_witness :
  snd (Aggregator_step noHistory 2001
         (fst (Aggregator noHistory ∅
                 [(1001, CheckOnce (clockAt 1000) alpha (respond 200 "fine"))]))
         (CheckOnce (clockAt 2000) alpha (respond 500 "broken")))
  = Some (transition true (CheckOnce (clockAt 2000) alpha (respond 500 "broken"))).
Proof.
  assert (Hlen : Z.of_nat (List.length
            [(1001, CheckOnce (clockAt 1000) alpha (respond 200 "fine"))])
          < 2 ^ 63 - 1) by (vm_compute; reflexivity).
  destruct (C1_event_iff_prior_check_and_flip noHistory 2001 ∅
              (CheckOnce (clockAt 2000) alpha (respond 500 "broken"))
              [(1001, CheckOnce (clockAt 1000) alpha (respond 200 "fine"))])
    as (_ & _ & _ & H).
  exact (H Hlen).
Defined.

Lemma updateState_up (now : Time) (st : State) (res : CheckResult) :
  Up res = true ->
  LastUp (updateState now st res) = true /\
  ConsecutiveFail (updateState now st res) = 0.
Proof. intros H. cbn [updateState LastUp ConsecutiveFail]. rewrite H. auto. Qed.

Lemma updateState_down (now : Time) (st : State) (res : CheckResult) :
  Up res = false ->
  LastUp (updateState now st res) = false /\
  ConsecutiveSuccess (updateState now st res) = ConsecutiveSuccess st.
Proof.
  intros H. cbn [updateState LastUp ConsecutiveSuccess]. rewrite H. auto.
Qed.

(** C2. The claim fails on the code: after a success followed by a
    failure the state of the target is down and yet its success streak is
    still 1, beside a failure streak of 1; [updateState] resets the
    failure streak on a success and does not reset the success streak on a
    failure. *)
Theorem C2_success_streak_survives_failure :
  exists st,
    fst (Aggregator noHistory ∅ upThenDown) !! "Alpha" = Some st /\
    LastUp st = false /\
    ConsecutiveSuccess st = 1 /\
    ConsecutiveFail st = 1.
Proof.
  eexists. split.
  - unfold upThenDown. cbn [Aggregator Aggregator_step fst].
    apply lookup_insert_eq.
  - vm_compute. repeat split.
Qed.

(** ** The incident collector *)

Lemma active_closed (now : Time) (ev : Event) (target prb : string)
    (r : Incident) :
  active target prb (closed now ev r) = false.
Proof. unfold active, closed. cbn. apply andb_false_r. Qed.

Lemma existsb_filter_nil {A} (f : A -> bool) (l : list A) :
  existsb f l = false <-> List.filter f l = [].
Proof.
  induction l as [|x l IH]; [tauto|].
  cbn [existsb List.filter]. destruct (f x); cbn [orb].
  - split; discriminate.
  - exact IH.
Qed.

(** The rows after an up event: those active for the target are closed,
    the others are as they were. *)
Lemma persistIncident_up (now : Time) (ev : Event) (tbl : Incidents) :
  To ev = true ->
  persistIncident now ev tbl =
  {| rows := List.map (fun r => if active (ev_TargetName ev) "primary" r
                                then closed now ev r else r) (rows tbl);
     next_id := next_id tbl |}.
Proof. intros H. unfold persistIncident. rewrite H. reflexivity. Qed.

Lemma persistIncident_up_rows (now : Time) (ev : Event) (tbl : Incidents) :
  To ev = true ->
  rows (persistIncident now ev tbl) =
  List.map (fun r => if active (ev_TargetName ev) "primary" r
                     then closed now ev r else r) (rows tbl).
Proof. intros H. rewrite persistIncident_up by exact H. reflexivity. Qed.

Lemma filter_active_up (now : Time) (ev : Event) (target prb : string)
    (l : list Incident) :
  List.filter (active target prb)
    (List.map (fun r => if active (ev_TargetName ev) "primary" r
                        then closed now ev r else r) l)
  = List.filter (fun r => active target prb r
                          && negb (active (ev_TargetName ev) "primary" r)) l.
Proof.
  induction l as [|r l IH]; [reflexivity|].
  cbn [List.map List.filter]. rewrite IH.
  destruct (active (ev_TargetName ev) "primary" r) eqn:Ha.
  - rewrite active_closed, andb_false_r. reflexivity.
  - rewrite andb_true_r. reflexivity.
Qed.

Lemma filter_and_length {A} (f g : A -> bool) (l : list A) :
  (List.length (List.filter (fun x => f x && g x) l)
   <= List.length (List.filter f l))%nat.
Proof.
  induction l as [|x l IH]; [reflexivity|].
  cbn [List.filter]. destruct (f x), (g x); cbn [andb List.length]; lia.
Qed.

Lemma map_close_none (now : Time) (ev : Event) (l : list Incident) :
  existsb (active (ev_TargetName ev) "primary") l = false ->
  List.map (fun r => if active (ev_TargetName ev) "primary" r
                     then closed now ev r else r) l = l.
Proof.
  induction l as [|r l IH]; [reflexivity|].
  cbn [existsb List.map]. intros H. apply orb_false_iff in H.
  destruct H as [-> H]. rewrite (IH H). reflexivity.
Qed.

Lemma active_inj (t1 p1 t2 p2 : string) (r : Incident) :
  active t1 p1 r = true -> active t2 p2 r = true -> t1 = t2 /\ p1 = p2.
Proof.
  unfold active. intros H1 H2.
  apply andb_true_iff in H1. destruct H1 as [H1 _].
  apply andb_true_iff in H1. destruct H1 as [Ht1 Hp1].
  apply andb_true_iff in H2. destruct H2 as [H2 _].
  apply andb_true_iff in H2. destruct H2 as [Ht2 Hp2].
  apply String.eqb_eq in Ht1, Hp1, Ht2, Hp2. split; congruence.
Qed.

(** The unique index holds after every statement of [persistIncident]. *)
Lemma persistIncident_uq (now : Time) (ev : Event) (tbl : Incidents) :
  uq_incidents_one_active tbl ->
  uq_incidents_one_active (persistIncident now ev tbl).
Proof.
  intros Huq target prb. specialize (Huq target prb).
  destruct (To ev) eqn:Hto.
  - rewrite persistIncident_up_rows by exact Hto. rewrite filter_active_up.
    etransitivity; [apply filter_and_length|exact Huq].
  - unfold persistIncident. rewrite Hto. cbn [negb].
    destruct (existsb (active (ev_TargetName ev) "primary") (rows tbl)) eqn:Hex;
      [exact Huq|].
    cbn [rows]. rewrite List.filter_app, List.length_app. cbn [List.filter].
    destruct (active target prb _) eqn:Hact; cbn [List.length]; [|lia].
    assert (Hkey : target = ev_TargetName ev /\ prb = "primary").
    { apply (active_inj _ _ _ _ _ Hact). unfold active. cbn.
      rewrite !String.eqb_refl. reflexivity. }
    destruct Hkey as [-> ->].
    apply existsb_filter_nil in Hex. rewrite Hex. cbn. lia.
Qed.

Lemma IncidentCollector_uq (events : list (Time * Event)) (tbl : Incidents) :
  uq_incidents_one_active tbl ->
  uq_incidents_one_active (IncidentCollector events tbl).
Proof.
  revert tbl. induction events as [|[now e] events IH]; intros tbl Huq.
  - exact Huq.
  - cbn [IncidentCollector]. apply IH, persistIncident_uq, Huq.
Qed.

Lemma persistIncident_down_open (now : Time) (ev : Event) (tbl : Incidents) :
  To ev = false ->
  activeRows (ev_TargetName ev) "primary" tbl <> [] ->
  persistIncident now ev tbl = tbl.
Proof.
  intros Hto Hact. unfold persistIncident. rewrite Hto. cbn [negb].
  destruct (existsb _ (rows tbl)) eqn:Hex; [reflexivity|].
  apply existsb_filter_nil in Hex. contradiction.
Qed.

Lemma persistIncident_down_none (now : Time) (ev : Event) (tbl : Incidents) :
  To ev = false ->
  activeRows (ev_TargetName ev) "primary" tbl = [] ->
  persistIncident now ev tbl =
  {| rows := rows tbl ++ [opened now ev (next_id tbl)];
     next_id := next_id tbl + 1 |}.
Proof.
  intros Hto Hact. unfold persistIncident. rewrite Hto. cbn [negb].
  apply existsb_filter_nil in Hact. rewrite Hact.
  unfold opened, statusFromEvent. rewrite Hto. reflexivity.
Qed.

Lemma persistIncident_up_closes (now : Time) (ev : Event) (tbl : Incidents) :
  To ev = true ->
  activeRows (ev_TargetName ev) "primary" (persistIncident now ev tbl) = [].
Proof.
  intros Hto. unfold activeRows.
  rewrite persistIncident_up_rows by exact Hto. rewrite filter_active_up.
  induction (rows tbl) as [|r l IH]; [reflexivity|].
  cbn [List.filter]. rewrite andb_negb_r. exact IH.
Qed.

Lemma persistIncident_up_none (now : Time) (ev : Event) (tbl : Incidents) :
  To ev = true ->
  activeRows (ev_TargetName ev) "primary" tbl = [] ->
  persistIncident now ev tbl = tbl.
Proof.
  intros Hto Hact. apply existsb_filter_nil in Hact.
  rewrite persistIncident_up by exact Hto.
  rewrite (map_close_none now ev _ Hact). destruct tbl; reflexivity.
Qed.

(** C4. For every pair of a target and a probe the table holds one
    active incident at most, after each statement of the collector and
    after any sequence of events: a down event changes nothing when an
    incident of the target is active and else appends one active row, an
    up event closes the active incidents of the target (end time, end
    status UP) and leaves none active, and an up event with no active
    incident leaves the table as it is. *)
Theorem C4_one_open_incident (now : Time) (ev : Event) (tbl : Incidents)
    (events : list (Time * Event)) :
  (uq_incidents_one_active tbl ->
   uq_incidents_one_active (persistIncident now ev tbl) /\
   uq_incidents_one_active (IncidentCollector events tbl)) /\
  uq_incidents_one_active
    (IncidentCollector events noIncidents) /\
  (To ev = false ->
   activeRows (ev_TargetName ev) "primary" tbl <> [] ->
   persistIncident now ev tbl = tbl) /\
  (To ev = false ->
   activeRows (ev_TargetName ev) "primary" tbl = [] ->
   persistIncident now ev tbl =
     {| rows := rows tbl ++ [opened now ev (next_id tbl)];
        next_id := next_id tbl + 1 |} /\
   activeRows (ev_TargetName ev) "primary" (persistIncident now ev tbl)
     = [opened now ev (next_id tbl)]) /\
  (To ev = true ->
   activeRows (ev_TargetName ev) "primary" (persistIncident now ev tbl) = [] /\
   rows (persistIncident now ev tbl) =
     List.map (fun r => if active (ev_TargetName ev) "primary" r
                        then closed now ev r else r) (rows tbl)) /\
  (To ev = true ->
   activeRows (ev_TargetName ev) "primary" tbl = [] ->
   persistIncident now ev tbl = tbl).
Proof.
  split; [|split; [|split; [|split; [|split]]]].
  - intros Huq. split.
    + apply persistIncident_uq, Huq.
    + apply IncidentCollector_uq, Huq.
  - apply IncidentCollector_uq. intros target prb. cbn. lia.
  - apply persistIncident_down_open.
  - intros Hto Hact. split; [apply persistIncident_down_none; assumption|].
    rewrite (persistIncident_down_none now ev tbl Hto Hact).
    unfold activeRows in *. cbn [rows].
    rewrite List.filter_app, Hact. cbn [List.filter app].
    unfold active at 1. cbn [opened target_name probe ended_at].
    rewrite !String.eqb_refl. reflexivity.
  - intros Hto. split.
    + apply persistIncident_up_closes, Hto.
    + apply persistIncident_up_rows, Hto.
  - apply persistIncident_up_none.
Qed.

Lemma C4_one_open_incident_witness :
  persistIncident 3000 (timeoutEvent alpha 2000) noIncidents =
    {| rows := rows noIncidents
               ++ [opened 3000 (timeoutEvent alpha 2000) (next_id noIncidents)];
       next_id := next_id noIncidents + 1 |} /\
  activeRows "Alpha" "primary"
    (persistIncident 3000 (timeoutEvent alpha 2000) noIncidents)
  = [opened 3000 (timeoutEvent alpha 2000) (next_id noIncidents)].
Proof.
  destruct (C4_one_open_incident 3000 (timeoutEvent alpha 2000) noIncidents [])
    as (_ & _ & _ & H & _).
  exact (H eq_refl eq_refl).
Defined.

(** ** Scenario B: a timeout after a success *)

Lemma CheckOnce_TargetName (clk : Clock) (t : Target) (ex : Exchange) :
  TargetName (CheckOnce clk t ex) = Name t.
Proof.
  destruct ex as [e|e|resp]; [reflexivity..|].
  rewrite CheckOnce_responded. cbv zeta.
  repeat (case_if; try reflexivity).
  destruct (bodyRead t resp) as [[b|e]|]; try reflexivity.
  case_if; reflexivity.
Qed.

Lemma CheckOnce_deadline (clk : Clock) (t : Target) (op u : string) :
  CheckOnce clk t (DoFailed (url_Error op u context_DeadlineExceeded))
  = result clk t false 0 "timeout" "".
Proof.
  unfold CheckOnce. cbn [CheckOnce_run fst]. unfold classifyHTTPError.
  rewrite url_Error_deadline. reflexivity.
Qed.

(** C5 as the code has it. A target without state and history whose
    first check succeeds and whose second check times out: the aggregator
    offers one event, from up to down, with reason timeout and status
    code 0; on it the collector, when no incident of the target is active,
    appends one active incident whose start status is DOWN, whose start
    error is timeout and whose start status code is null. *)
Theorem C5_timeout_after_success (t : Target) (clk1 clk2 : Clock)
    (resp : Response) (op u : string) (now1 now2 dbnow : Time)
    (state : gmap string State) (tbl : Incidents) :
  state !! Name t = None ->
  Up (CheckOnce clk1 t (Responded resp)) = true ->
  activeRows (Name t) "primary" tbl = [] ->
  let r1 := CheckOnce clk1 t (Responded resp) in
  let r2 := CheckOnce clk2 t (DoFailed (url_Error op u context_DeadlineExceeded)) in
  let ev := timeoutEvent t (now_at clk2) in
  snd (Aggregator noHistory state [(now1, r1); (now2, r2)]) = [ev] /\
  IncidentCollector [(dbnow, ev)] tbl =
    {| rows := rows tbl ++ [opened dbnow ev (next_id tbl)];
       next_id := next_id tbl + 1 |} /\
  start_status (opened dbnow ev (next_id tbl)) = "DOWN" /\
  start_status_code (opened dbnow ev (next_id tbl)) = None /\
  start_error (opened dbnow ev (next_id tbl)) = Some "timeout" /\
  ended_at (opened dbnow ev (next_id tbl)) = None.
Proof.
  intros Hstate Hup Hact r1 r2 ev. split.
  - cbn [Aggregator].
    destruct (Aggregator_step noHistory now1 state r1) as [s1 e1] eqn:H1.
    destruct (Aggregator_step noHistory now2 s1 r2) as [s2 e2] eqn:H2.
    cbn [snd].
    assert (He1 : e1 = None).
    { change e1 with (snd (s1, e1)). rewrite <- H1.
      apply Aggregator_step_first; [|reflexivity].
      subst r1. rewrite CheckOnce_TargetName. exact Hstate. }
    assert (Hs1 : s1 = <[Name t := updateState now1 (emptyState r1) r1]> state).
    { change s1 with (fst (s1, e1)). rewrite <- H1.
      unfold Aggregator_step. cbv zeta. cbn [fst]. unfold locateState.
      subst r1. rewrite CheckOnce_TargetName, Hstate. reflexivity. }
    assert (He2 : e2 = Some ev).
    { change e2 with (snd (s2, e2)). rewrite <- H2.
      rewrite Aggregator_step_event. cbv zeta. unfold locateState.
      subst r2. rewrite CheckOnce_TargetName, Hs1, lookup_insert_eq.
      cbn [updateState LastUp TotalChecks emptyState]. subst r1. rewrite Hup.
      rewrite CheckOnce_deadline. reflexivity. }
    rewrite He1, He2. reflexivity.
  - split; [|repeat split].
    cbn [IncidentCollector]. apply persistIncident_down_none; [reflexivity|].
    exact Hact.
Qed.

Lemma C5_timeout_after_success_witness :
  snd (Aggregator noHistory ∅ upThenTimeout) = [timeoutEvent alpha 2000] /\
  IncidentCollector [(3000, timeoutEvent alpha 2000)] noIncidents =
    {| rows := rows noIncidents
               ++ [opened 3000 (timeoutEvent alpha 2000) (next_id noIncidents)];
       next_id := next_id noIncidents + 1 |} /\
  start_status (opened 3000 (timeoutEvent alpha 2000) (next_id noIncidents))
    = "DOWN".
Proof.
  destruct (C5_timeout_after_success alpha (clockAt 1000) (clockAt 2000)
              {| resp_StatusCode := 200;
                 resp_Body := {| body_data := "fine"; body_err := None |} |}
              "Get" "https://alpha.example/health" 1001 2001 3000
              ∅ noIncidents (lookup_empty _) eq_refl eq_refl)
    as (Ha & Hb & Hc & _).
  exact (conj Ha (conj Hb Hc)).
Defined.

(** C5, the counterexample: in scenarios A and B for target Alpha the
    incident that the collector opens has the start status DOWN, which is
    not TIMEOUT. *)
Lemma C5_start_status_is_DOWN :
  List.map start_status
    (rows (IncidentCollector
             (List.map (fun e => (3000, e))
                (snd (Aggregator noHistory ∅ upThenTimeout)))
             noIncidents))
  = ["DOWN"] /\
  "DOWN" <> "TIMEOUT".
Proof.
  split; [vm_compute; reflexivity|discriminate].
Qed.

(** ** The scheduler: enqueueing *)

(** C7. A call of [enqueueJob] never blocks.  On a full queue it returns
    with the channel as it was, contents and length, the job being dropped:
    it logs the one warning when the context is live and nothing when the
    context is cancelled, and does nothing else.  A queue within its
    capacity stays within its capacity after any call. *)
Theorem C7_enqueue_on_full_queue (ctxDone pick : bool) (now : Time)
    (jobsCh : Chan CheckJob) (target : Target) :
  (exists out, enqueueJob ctxDone pick now jobsCh target = Some out /\
     chan_cap (jobsCh' out) = chan_cap jobsCh /\
     ((List.length (chan_buf jobsCh) <= chan_cap jobsCh)%nat ->
      (List.length (chan_buf (jobsCh' out)) <= chan_cap jobsCh)%nat)) /\
  (chan_full jobsCh = true ->
   exists out, enqueueJob ctxDone pick now jobsCh target = Some out /\
     jobsCh' out = jobsCh /\
     chan_buf (jobsCh' out) = chan_buf jobsCh /\
     List.length (chan_buf (jobsCh' out)) = List.length (chan_buf jobsCh) /\
     (ctxDone = false -> logged out = [droppedWarning target]) /\
     (ctxDone = true -> logged out = [])).
Proof.
  unfold enqueueJob, select. split.
  - destruct (chan_full jobsCh) eqn:Hfull; cbn [negb].
    + destruct ctxDone; eexists; (split; [reflexivity|]); cbn; auto.
    + unfold chan_full in Hfull. apply Nat.leb_gt in Hfull.
      destruct ctxDone, pick; eexists; (split; [reflexivity|]); cbn;
        rewrite ?List.length_app; cbn; split; auto; lia.
  - intros ->. cbn [negb].
    destruct ctxDone; eexists; (split; [reflexivity|]); cbn;
      repeat split; auto; discriminate.
Qed.

Lemma C7_enqueue_on_full_queue_witness :
  exists out,
    enqueueJob false true 7 fullQueue alphaOK = Some out /\
    jobsCh' out = fullQueue /\
    chan_buf (jobsCh' out) = chan_buf fullQueue /\
    List.length (chan_buf (jobsCh' out)) = List.length (chan_buf fullQueue) /\
    (false = false -> logged out = [droppedWarning alphaOK]) /\
    (false = true -> logged out = []).
Proof.
  apply (proj2 (C7_enqueue_on_full_queue false true 7 fullQueue alphaOK)).
  reflexivity.
Defined.

(** ** The scheduler: the jittered interval *)

(** The constant of the program is the double nearest to one fifth: it
    lies in the binade of 53-bit significands and is within half a unit
    of [2^55 / 5]. *)
Lemma jitterFraction_nearest :
  2 ^ 52 <= fst jitterFraction < 2 ^ 53 /\
  snd jitterFraction = -55 /\
  5 * fst jitterFraction = 2 ^ 55 + 2.
Proof. cbn. lia. Qed.

(** The rounding keeps the exponent or raises it by [sh]; the rounded
    value is within half a unit of the last place, [2^sh / 2], above the
    exact one, and its significand has 53 bits. *)
Lemma round53_bounds (m e : Z) :
  0 <= m ->
  exists sh,
    0 <= sh /\
    snd (round53 m e) = e + sh /\
    0 <= fst (round53 m e) <= 2 ^ 53 /\
    2 * (fst (round53 m e) * 2 ^ sh) <= 2 * m + 2 ^ sh /\
    (forall N, 53 <= N -> m < 2 ^ N -> sh <= N - 53).
Proof.
  intros Hm. unfold round53.
  destruct (Z.eqb_spec m 0) as [->|Hne].
  - exists 0. cbn. repeat split; intros; lia.
  - assert (Hpos : 0 < m) by lia.
    pose proof (Z.log2_spec m Hpos) as [Hlo Hhi].
    pose proof (Z.log2_nonneg m) as Hl0.
    destruct (Z.leb_spec (Z.log2 m + 1) 53) as [Hk|Hk].
    + exists 0. cbn [fst snd]. rewrite Z.pow_0_r.
      assert (m < 2 ^ 53).
      { eapply Z.lt_le_trans; [exact Hhi|].
        apply Z.pow_le_mono_r; lia. }
      repeat split; intros; lia.
    + cbv zeta. cbn [fst snd].
      set (sh := Z.log2 m + 1 - 53).
      assert (Hsh : 0 < sh) by (unfold sh; lia).
      assert (HX : 0 < 2 ^ sh) by (apply Z.pow_pos_nonneg; lia).
      assert (HH : 2 ^ sh = 2 * 2 ^ (sh - 1)).
      { rewrite <- (Z.pow_succ_r 2 (sh - 1)) by lia. f_equal. lia. }
      pose proof (Z.div_mod m (2 ^ sh) ltac:(lia)) as Hdm.
      pose proof (Z.mod_pos_bound m (2 ^ sh) HX) as Hr.
      assert (Hm53 : m < 2 ^ 53 * 2 ^ sh).
      { rewrite <- Z.pow_add_r by lia. unfold sh.
        replace (53 + (Z.log2 m + 1 - 53)) with (Z.succ (Z.log2 m)) by lia.
        exact Hhi. }
      assert (Hq : 0 <= m / 2 ^ sh < 2 ^ 53).
      { split; [apply Z.div_pos; lia|].
        apply Z.div_lt_upper_bound; lia. }
      exists sh. split; [lia|]. split; [reflexivity|].
      set (q := m / 2 ^ sh) in *. set (r := m mod 2 ^ sh) in *.
      set (X := 2 ^ sh) in *. set (H := 2 ^ (sh - 1)) in *.
      assert (Hcases :
        (if Z.gtb r H || (Z.eqb r H && Z.odd q) then q + 1 else q) = q \/
        ((if Z.gtb r H || (Z.eqb r H && Z.odd q) then q + 1 else q) = q + 1
         /\ H <= r)).
      { destruct (Z.gtb_spec r H); cbn [orb]; [right; split; lia|].
        destruct (Z.eqb_spec r H); cbn [andb]; [|left; reflexivity].
        destruct (Z.odd q); [right; split; lia|left; reflexivity]. }
      split; [|split].
      * destruct Hcases as [->|[-> _]]; lia.
      * destruct Hcases as [->|[-> Hge]]; nia.
      * intros N HN HmN. unfold sh.
        assert (Z.log2 m < N) by (apply Z.log2_lt_pow2; lia). lia.
Qed.

(** The truncation is below the value, here scaled by [2^55]. *)
Lemma int64_of_float64_bounds (m e : Z) :
  0 <= m -> -55 <= e ->
  0 <= int64_of_float64 (m, e) /\
  int64_of_float64 (m, e) * 2 ^ 55 <= m * 2 ^ (e + 55).
Proof.
  intros Hm He. unfold int64_of_float64. cbn [fst snd].
  destruct (Z.leb_spec 0 e) as [H0|H0].
  - assert (0 < 2 ^ e) by (apply Z.pow_pos_nonneg; lia).
    split; [nia|]. rewrite Z.pow_add_r by lia. lia.
  - assert (HX : 0 < 2 ^ (- e)) by (apply Z.pow_pos_nonneg; lia).
    assert (HY : 0 < 2 ^ (e + 55)) by (apply Z.pow_pos_nonneg; lia).
    assert (HXY : 2 ^ 55 = 2 ^ (- e) * 2 ^ (e + 55)).
    { rewrite <- Z.pow_add_r by lia. f_equal. lia. }
    pose proof (Z.div_mod m (2 ^ (- e)) ltac:(lia)) as Hdm.
    pose proof (Z.mod_pos_bound m (2 ^ (- e)) HX) as Hr.
    assert (Hq : 0 <= m / 2 ^ (- e)) by (apply Z.div_pos; lia).
    split; [exact Hq|]. rewrite HXY. nia.
Qed.

Lemma pow2_le (a b : Z) : 0 <= a <= b -> 0 < 2 ^ a <= 2 ^ b.
Proof.
  intros H. split; [apply Z.pow_pos_nonneg; lia|].
  apply Z.pow_le_mono_r; lia.
Qed.

(** The largest jitter is never negative and stays below [2^61]; up to
    [2^52] nanoseconds it is no more than a fifth of the interval. *)
Lemma maxJitterOf_bounds (interval : Z) :
  0 < interval < 2 ^ 63 ->
  0 <= maxJitterOf interval < 2 ^ 61 /\
  (interval <= 2 ^ 52 -> 5 * maxJitterOf interval <= interval).
Proof.
  intros HI. unfold maxJitterOf, float64_mul, float64_of_int64.
  change (fst jitterFraction) with 7205759403792794.
  change (snd jitterFraction) with (-55).
  destruct (round53_bounds interval 0 ltac:(lia))
    as (sh1 & Hsh1 & He1 & Hm1 & Hv1 & HN1).
  set (m1 := fst (round53 interval 0)) in *.
  rewrite He1.
  destruct (round53_bounds (m1 * 7205759403792794) (0 + sh1 + -55) ltac:(lia))
    as (sh2 & Hsh2 & He2 & Hm2 & Hv2 & HN2).
  set (f2 := round53 (m1 * 7205759403792794) (0 + sh1 + -55)) in *.
  rewrite (surjective_pairing f2), He2.
  destruct (int64_of_float64_bounds (fst f2) (0 + sh1 + -55 + sh2)
              ltac:(lia) ltac:(lia)) as [Hj0 Hj].
  set (mJ := int64_of_float64 (fst f2, 0 + sh1 + -55 + sh2)) in *.
  replace (0 + sh1 + -55 + sh2 + 55) with (sh2 + sh1) in Hj by lia.
  rewrite Z.pow_add_r in Hj by lia.
  set (m2 := fst f2) in *.
  assert (Hs1 : sh1 <= 10) by (apply (HN1 63); lia).
  assert (Hs2 : sh2 <= 53).
  { apply (HN2 106); [lia|].
    apply Z.le_lt_trans with (2 ^ 53 * 7205759403792794); [nia|lia]. }
  pose proof (pow2_le sh1 10 ltac:(lia)) as HX1.
  pose proof (pow2_le sh2 53 ltac:(lia)) as HX2.
  set (X1 := 2 ^ sh1) in *. set (X2 := 2 ^ sh2) in *.
  assert (Hchain : 2 * (mJ * 2 ^ 55)
                   <= (2 * interval + X1) * 7205759403792794 + X1 * X2).
  { apply Z.le_trans with (2 * (m2 * X2) * X1); [nia|].
    apply Z.le_trans with ((2 * (m1 * 7205759403792794) + X2) * X1); [nia|].
    nia. }
  split.
  - split; [exact Hj0|].
    assert (X1 * X2 <= 2 ^ 10 * 2 ^ 53) by nia. lia.
  - intros Hsmall.
    assert (Hz1 : sh1 <= 0) by (apply (HN1 53); lia).
    assert (sh1 = 0) by lia. subst sh1. subst X1. rewrite Z.pow_0_r in *.
    assert (Hs2' : sh2 <= 52).
    { apply (HN2 105); [lia|].
      apply Z.le_lt_trans with (2 ^ 52 * 7205759403792794); [nia|lia]. }
    pose proof (pow2_le sh2 52 ltac:(lia)) as HX2'. fold X2 in HX2'. lia.
Qed.

(** For a positive interval no step before the last sum wraps around
    and [rand.Int63n] does not panic. *)
Lemma jitteredInterval_positive (raw interval : Z) :
  0 < interval < 2 ^ 63 ->
  exists n,
    0 <= n <= 2 * maxJitterOf interval /\
    jitteredInterval raw interval =
    Some (let delay := wrap64 (interval + (n - maxJitterOf interval)) in
          if Z.ltb delay Millisecond then Millisecond else delay).
Proof.
  intros HI. destruct (maxJitterOf_bounds interval HI) as [[Hj0 Hj1] _].
  unfold jitteredInterval. fold (maxJitterOf interval).
  set (mJ := maxJitterOf interval) in *.
  destruct (Z.leb_spec interval 0) as [|_]; [lia|].
  rewrite (wrap64_small (mJ * 2)) by lia.
  rewrite (wrap64_small (mJ * 2 + 1)) by lia.
  unfold rand_Int63n. destruct (Z.leb_spec (mJ * 2 + 1) 0) as [|_]; [lia|].
  pose proof (Z.mod_pos_bound raw (mJ * 2 + 1) ltac:(lia)) as Hn.
  exists (raw mod (mJ * 2 + 1)). split; [lia|].
  rewrite (wrap64_small (raw mod (mJ * 2 + 1) - mJ)) by lia.
  cbv zeta. destruct (Z.ltb _ Millisecond); reflexivity.
Qed.

(** C6 as the code has it. For an interval that is zero or negative the
    delay is 1 ms; for every [int64] interval the call returns a delay of
    1 ms at least; for an interval of at most [2^52] ns (52 days) the
    delay lies between [max(1 ms, 0.8 I)] and [max(1 ms, 1.2 I)], hence in
    the range of the claim as soon as [1.2 I] reaches 1 ms. *)
Theorem C6_jitter_bounds (raw interval : Z) :
  (interval <= 0 -> jitteredInterval raw interval = Some Millisecond) /\
  (- 2 ^ 63 <= interval < 2 ^ 63 ->
   exists delay, jitteredInterval raw interval = Some delay /\
                 Millisecond <= delay) /\
  (0 < interval <= 2 ^ 52 ->
   exists delay, jitteredInterval raw interval = Some delay /\
     Millisecond <= delay /\
     4 * interval <= 5 * delay /\
     5 * delay <= Z.max (5 * Millisecond) (6 * interval) /\
     (5 * Millisecond <= 6 * interval -> 5 * delay <= 6 * interval)).
Proof.
  assert (H0 : interval <= 0 -> jitteredInterval raw interval = Some Millisecond).
  { intros H. unfold jitteredInterval.
    destruct (Z.leb_spec interval 0); [reflexivity|lia]. }
  split; [exact H0|]. split.
  - intros HI. destruct (Z.le_gt_cases interval 0) as [Hle|Hgt].
    + exists Millisecond. split; [apply H0, Hle|lia].
    + destruct (jitteredInterval_positive raw interval ltac:(lia))
        as (n & _ & ->). cbv zeta.
      destruct (Z.ltb_spec (wrap64 (interval + (n - maxJitterOf interval)))
                  Millisecond); eexists; (split; [reflexivity|lia]).
  - intros HI.
    destruct (maxJitterOf_bounds interval ltac:(lia)) as [[Hj0 _] Hj5].
    specialize (Hj5 ltac:(lia)).
    destruct (jitteredInterval_positive raw interval ltac:(lia))
      as (n & Hn & ->). cbv zeta.
    rewrite wrap64_small by lia.
    unfold Millisecond in *.
    destruct (Z.ltb_spec (interval + (n - maxJitterOf interval)) 1000000);
      eexists; (split; [reflexivity|]); lia.
Qed.

Lemma C6_jitter_bounds_witness :
  exists delay, jitteredInterval 12345 30000000000 = Some delay /\
    Millisecond <= delay /\
    4 * 30000000000 <= 5 * delay /\
    5 * delay <= Z.max (5 * Millisecond) (6 * 30000000000) /\
    (5 * Millisecond <= 6 * 30000000000 -> 5 * delay <= 6 * 30000000000).
Proof.
  apply (proj2 (proj2 (C6_jitter_bounds 12345 30000000000))). lia.
Defined.

(** C6, the counterexample: an interval of 1 ns gives a delay of 1 ms,
    which is above [1.2 I]. *)
Lemma C6_one_nanosecond :
  jitteredInterval 0 1 = Some Millisecond /\ ~ (5 * Millisecond <= 6 * 1).
Proof. split; [reflexivity|]. unfold Millisecond. lia. Qed.

(** Above [2^52] ns the rounding of the product can put the largest
    jitter above a fifth of the interval, and the delay above [1.2 I]. *)
Example jitteredInterval_rounds_up :
  exists delay,
    jitteredInterval (2 * maxJitterOf 8250099869297684) 8250099869297684
      = Some delay /\
    6 * 8250099869297684 < 5 * delay.
Proof. eexists. split; [vm_compute; reflexivity|lia]. Qed.

(** The largest interval a configuration can hold, 2562047 h, with a
    draw that makes the jitter positive: the sum wraps around and the
    delay is 1 ms. *)
Example jitteredInterval_wraps :
  jitteredInterval (2 * maxJitterOf (2562047 * 3600000000000))
    (2562047 * 3600000000000) = Some Millisecond.
Proof. vm_compute. reflexivity. Qed.

(** * Further properties of the code *)

(** ** The checker: the reason of a result *)

Lemma append_nonempty (a b : string) : a <> "" -> a ++ b <> "".
Proof.
  destruct a as [|c a]; [contradiction|]. intros _. rewrite append_cons.
  discriminate.
Qed.

Lemma classifyHTTPError_url_nonempty (op u : string) (inner : GoError) :
  classifyHTTPError (url_Error op u inner) <> "".
Proof.
  unfold classifyHTTPError. repeat (case_if; [discriminate|]).
  intros E. pose proof (url_Error_has_space op u inner) as H.
  rewrite E in H. discriminate H.
Qed.

(** X1. A result never carries both a transport error and a validation
    text; a result that is up carries neither, and a result that is down
    carries one of them (the errors of [http.Client.Do] being
    [*url.Error] values). *)
Theorem CheckOnce_one_reason (clk : Clock) (t : Target) (ex : Exchange) :
  (Error (CheckOnce clk t ex) = "" \/ Validation (CheckOnce clk t ex) = "") /\
  (Up (CheckOnce clk t ex) = true ->
   Error (CheckOnce clk t ex) = "" /\ Validation (CheckOnce clk t ex) = "") /\
  ((forall e, ex = DoFailed e -> exists op u inner, e = url_Error op u inner) ->
   Up (CheckOnce clk t ex) = false ->
   Error (CheckOnce clk t ex) <> "" \/ Validation (CheckOnce clk t ex) <> "").
Proof.
  destruct ex as [e|e|resp].
  - split; [right; reflexivity|]. split; [discriminate|].
    intros _ _. left. apply append_nonempty. discriminate.
  - split; [right; reflexivity|]. split; [discriminate|].
    intros Hurl _. destruct (Hurl e eq_refl) as (op & u & inner & ->).
    left. apply classifyHTTPError_url_nonempty.
  - rewrite CheckOnce_responded. cbv zeta.
    destruct (negb (statusMatchesPolicy t (resp_StatusCode resp))).
    { split; [left; reflexivity|]. split; [discriminate|].
      intros _ _. right. cbn [result Validation].
      case_if; apply append_nonempty; discriminate. }
    destruct (String.eqb (substringRequirement t) "").
    { split; [left; reflexivity|]. split; [auto|discriminate]. }
    destruct (bodyRead t resp) as [[b|e]|].
    + destruct (strings_Contains b (substringRequirement t)).
      * split; [left; reflexivity|]. split; [auto|discriminate].
      * split; [left; reflexivity|]. split; [discriminate|].
        intros _ _. right. apply append_nonempty. discriminate.
    + split; [right; reflexivity|]. split; [discriminate|].
      intros _ _. left. apply append_nonempty. discriminate.
    + split; [left; reflexivity|]. split; [discriminate|].
      intros _ _. right. discriminate.
Qed.

Lemma CheckOnce_one_reason_witness :
  Error (CheckOnce (clockAt 2000) alpha timedOut) <> "" \/
  Validation (CheckOnce (clockAt 2000) alpha timedOut) <> "".
Proof.
  apply (proj2 (proj2 (CheckOnce_one_reason (clockAt 2000) alpha timedOut))).
  - intros e H. injection H as <-. eauto.
  - reflexivity.
Defined.

(** X2. The body of a response is read only when the status has passed
    the policy, a substring that is not blank is required and the method
    is not HEAD; in every other case no byte of it is consumed. *)
Theorem CheckOnce_reads_body_only_for_substring (clk : Clock) (t : Target)
    (ex : Exchange) :
  (0 < bodyBytesRead clk t ex)%nat ->
  exists resp,
    ex = Responded resp /\
    statusMatchesPolicy t (resp_StatusCode resp) = true /\
    substringRequirement t <> "" /\
    strings_ToUpper (Method t) <> "HEAD".
Proof.
  destruct ex as [e|e|resp]; [cbn; lia..|].
  rewrite bodyBytesRead_responded. intros H. exists resp.
  destruct (statusMatchesPolicy t (resp_StatusCode resp)); [|cbn in H; lia].
  cbn [negb] in H.
  destruct (String.eqb_spec (substringRequirement t) ""); [lia|].
  destruct (String.eqb_spec (strings_ToUpper (Method t)) "HEAD"); [lia|].
  auto.
Qed.

Lemma CheckOnce_reads_body_only_for_substring_witness :
  exists resp,
    respond 200 "hello" = Responded resp /\
    statusMatchesPolicy alphaOK (resp_StatusCode resp) = true /\
    substringRequirement alphaOK <> "" /\
    strings_ToUpper (Method alphaOK) <> "HEAD".
Proof.
  apply (CheckOnce_reads_body_only_for_substring (clockAt 1000) alphaOK
           (respond 200 "hello")).
  vm_compute. lia.
Defined.

(** X3. When the body is read, an error of the stream within the limit
    makes the result down with the error under the prefix of the read and
    no validation text, whatever the bytes before it; an error that lies
    beyond the limit is never met: the result is the one of the same
    body without the error. *)
Theorem CheckOnce_body_error (clk : Clock) (t : Target) (code : Z)
    (data : string) (err : GoError) :
  statusMatchesPolicy t code = true ->
  substringRequirement t <> "" ->
  strings_ToUpper (Method t) <> "HEAD" ->
  let failing := Responded {| resp_StatusCode := code;
                              resp_Body := {| body_data := data;
                                              body_err := Some err |} |} in
  let clean := Responded {| resp_StatusCode := code;
                            resp_Body := {| body_data := data;
                                            body_err := None |} |} in
  (Z.of_nat (String.length data) < bodyLimit t ->
   CheckOnce clk t failing
   = result clk t false code ("read body: " ++ err_Error err) "") /\
  (bodyLimit t <= Z.of_nat (String.length data) ->
   CheckOnce clk t failing = CheckOnce clk t clean).
Proof.
  intros Hs Hreq Hm failing clean. subst failing clean.
  rewrite !CheckOnce_responded. cbv zeta. cbn [resp_StatusCode].
  rewrite Hs. cbn [negb].
  destruct (String.eqb_spec (substringRequirement t) ""); [contradiction|].
  unfold bodyRead.
  destruct (String.eqb_spec (strings_ToUpper (Method t)) "HEAD");
    [contradiction|].
  unfold readAllLimited. cbn [resp_Body body_data body_err].
  split; intros Hlen.
  - destruct (Nat.leb_spec (Z.to_nat (bodyLimit t)) (String.length data));
      [lia|]. reflexivity.
  - destruct (Nat.leb_spec (Z.to_nat (bodyLimit t)) (String.length data));
      [|lia]. reflexivity.
Qed.

Lemma CheckOnce_body_error_witness :
  CheckOnce (clockAt 1000) alphaOK
    (Responded {| resp_StatusCode := 200;
                  resp_Body := {| body_data := "partial";
                                  body_err := Some (errors_New "unexpected EOF") |} |})
  = result (clockAt 1000) alphaOK false 200
      ("read body: " ++ err_Error (errors_New "unexpected EOF")) "".
Proof.
  assert (H1 : statusMatchesPolicy alphaOK 200 = true) by reflexivity.
  assert (H2 : substringRequirement alphaOK <> "") by (vm_compute; discriminate).
  assert (H3 : strings_ToUpper (Method alphaOK) <> "HEAD")
    by (vm_compute; discriminate).
  apply (proj1 (CheckOnce_body_error (clockAt 1000) alphaOK 200 "partial"
                  (errors_New "unexpected EOF") H1 H2 H3)).
  vm_compute. reflexivity.
Defined.

(** ** The aggregator: counters over a run *)

Lemma resultsFor_snoc (name : string) (h : list (Time * CheckResult))
    (x : Time * CheckResult) :
  resultsFor name (h ++ [x]) =
  (resultsFor name h ++ if isFor name x then [snd x] else [])%list.
Proof.
  unfold resultsFor. rewrite List.filter_app, List.map_app. cbn [List.filter].
  destruct (isFor name x); reflexivity.
Qed.

Lemma resultsFor_length (name : string) (h : list (Time * CheckResult)) :
  List.length (resultsFor name h) = countFor name h.
Proof. unfold resultsFor, countFor. apply List.length_map. Qed.

Lemma ups_snoc (l : list CheckResult) (r : CheckResult) :
  ups (l ++ [r]) = (ups l + if Up r then 1 else 0)%nat.
Proof.
  unfold ups. rewrite List.filter_app, List.length_app. cbn [List.filter].
  destruct (Up r); reflexivity.
Qed.

Lemma downs_snoc (l : list CheckResult) (r : CheckResult) :
  downs (l ++ [r]) = (downs l + if Up r then 0 else 1)%nat.
Proof.
  unfold downs. rewrite List.filter_app, List.length_app. cbn [List.filter].
  destruct (Up r); reflexivity.
Qed.

Lemma trailingDowns_snoc (l : list CheckResult) (r : CheckResult) :
  trailingDowns (l ++ [r]) = if Up r then O else S (trailingDowns l).
Proof. unfold trailingDowns. rewrite rev_unit. reflexivity. Qed.

Lemma ups_downs_length (l : list CheckResult) :
  (ups l + downs l = List.length l)%nat.
Proof.
  unfold ups, downs. induction l as [|r l IH]; [reflexivity|].
  cbn [List.filter]. destruct (Up r); cbn [negb List.length]; lia.
Qed.

Lemma trailingDowns_le (l : list CheckResult) : (trailingDowns l <= downs l)%nat.
Proof.
  induction l as [|r l IH] using rev_ind; [reflexivity|].
  rewrite trailingDowns_snoc, downs_snoc. destruct (Up r); lia.
Qed.

(** X4. Over a run from nothing a target has a state exactly when it has
    had a result, and then the state is filed under its own name and its
    counters are: the number of its results, the number of its failures,
    the length of its current run of failures, and, as success streak, the
    number of all its successes, so that the total of checks is the
    success streak plus the total of failures. *)
Theorem Aggregator_counters (h : list (Time * CheckResult)) (name : string) :
  Z.of_nat (List.length h) < 2 ^ 63 ->
  match fst (Aggregator noHistory ∅ h) !! name with
  | None => resultsFor name h = []
  | Some st =>
      resultsFor name h <> [] /\
      st_Name st = name /\
      TotalChecks st = Z.of_nat (List.length (resultsFor name h)) /\
      TotalFails st = Z.of_nat (downs (resultsFor name h)) /\
      ConsecutiveFail st = Z.of_nat (trailingDowns (resultsFor name h)) /\
      ConsecutiveSuccess st = Z.of_nat (ups (resultsFor name h)) /\
      TotalChecks st = ConsecutiveSuccess st + TotalFails st
  end.
Proof.
  revert name. induction h as [|[now res] h IH] using rev_ind; intros name Hlen.
  - cbn [Aggregator fst]. rewrite lookup_empty. reflexivity.
  - rewrite List.length_app in Hlen. cbn [List.length] in Hlen.
    rewrite Aggregator_app. cbv zeta.
    destruct (Aggregator noHistory ∅ h) as [s1 e1] eqn:Hagg.
    cbn [Aggregator]. unfold Aggregator_step. cbv zeta. cbn [fst] in *.
    rewrite resultsFor_snoc. unfold isFor. cbn [snd].
    destruct (String.eqb_spec (TargetName res) name) as [<-|Hne].
    + rewrite lookup_insert_eq.
      specialize (IH (TargetName res) ltac:(lia)).
      pose proof (resultsFor_length (TargetName res) h) as Hrl.
      pose proof (countFor_le (TargetName res) h) as Hc.
      pose proof (ups_downs_length (resultsFor (TargetName res) h)) as Hud.
      pose proof (trailingDowns_le (resultsFor (TargetName res) h)) as Htd.
      set (l := resultsFor (TargetName res) h) in *.
      rewrite List.length_app, ups_snoc, downs_snoc, trailingDowns_snoc.
      cbn [List.length].
      assert (Hst : TotalChecks (locateState noHistory s1 res)
                      = Z.of_nat (List.length l) /\
                    TotalFails (locateState noHistory s1 res)
                      = Z.of_nat (downs l) /\
                    ConsecutiveFail (locateState noHistory s1 res)
                      = Z.of_nat (trailingDowns l) /\
                    ConsecutiveSuccess (locateState noHistory s1 res)
                      = Z.of_nat (ups l)).
      { unfold locateState.
        destruct (s1 !! TargetName res) as [st|].
        - destruct IH as (_ & _ & H1 & H2 & H3 & H4 & _). auto.
        - rewrite IH. repeat split. }
      destruct Hst as (H1 & H2 & H3 & H4).
      split; [destruct l; discriminate|]. split; [reflexivity|].
      cbn [updateState TotalChecks TotalFails ConsecutiveFail ConsecutiveSuccess].
      rewrite H1, H2, H3, H4.
      destruct (Up res); rewrite ?wrap64_small by lia; repeat split; lia.
    + rewrite lookup_insert_ne by exact Hne. rewrite List.app_nil_r.
      apply IH. lia.
Qed.

Lemma Aggregator_counters_witness :
  match fst (Aggregator noHistory ∅ upThenDown) !! "Alpha" with
  | None => resultsFor "Alpha" upThenDown = []
  | Some st =>
      resultsFor "Alpha" upThenDown <> [] /\
      st_Name st = "Alpha" /\
      TotalChecks st = Z.of_nat (List.length (resultsFor "Alpha" upThenDown)) /\
      TotalFails st = Z.of_nat (downs (resultsFor "Alpha" upThenDown)) /\
      ConsecutiveFail st
        = Z.of_nat (trailingDowns (resultsFor "Alpha" upThenDown)) /\
      ConsecutiveSuccess st = Z.of_nat (ups (resultsFor "Alpha" upThenDown)) /\
      TotalChecks st = ConsecutiveSuccess st + TotalFails st
  end.
Proof.
  apply (Aggregator_counters upThenDown "Alpha"). vm_compute. reflexivity.
Defined.

(** ** The aggregator: the events of a run *)

Lemma Aggregator_snoc (loaded : string -> option State)
    (state : gmap string State) (h : list (Time * CheckResult))
    (now : Time) (res : CheckResult) :
  Aggregator loaded state (h ++ [(now, res)]) =
  (fst (Aggregator_step loaded now (fst (Aggregator loaded state h)) res),
   (snd (Aggregator loaded state h)
    ++ match snd (Aggregator_step loaded now
                    (fst (Aggregator loaded state h)) res) with
       | Some e => [e]
       | None => []
       end)%list).
Proof.
  rewrite Aggregator_app. cbv zeta.
  destruct (Aggregator loaded state h) as [s1 e1]. cbn [Aggregator fst snd].
  destruct (Aggregator_step loaded now s1 res) as [s2 [e|]]; reflexivity.
Qed.

Lemma Aggregator_step_trace (h : list (Time * CheckResult)) (now : Time)
    (res : CheckResult) :
  Z.of_nat (List.length h) < 2 ^ 63 - 1 ->
  snd (Aggregator_step noHistory now (fst (Aggregator noHistory ∅ h)) res) =
  match lastResultFor (TargetName res) h with
  | Some p =>
      if Bool.eqb (Up p) (Up res) then None else Some (transition (Up p) res)
  | None => None
  end.
Proof.
  intros Hlen. rewrite Aggregator_step_event. cbv zeta.
  pose proof (Aggregator_state_inv h (TargetName res) ltac:(lia)) as Hinv.
  pose proof (countFor_le (TargetName res) h) as Hc.
  unfold locateState.
  destruct (lastResultFor (TargetName res) h) as [p|].
  - destruct Hinv as (s & -> & Hup & Htot & Hone).
    cbn [updateState TotalChecks]. rewrite Htot, Hup.
    rewrite wrap64_small by lia.
    destruct (Z.gtb_spec (Z.of_nat (countFor (TargetName res) h) + 1) 1);
      [|lia].
    destruct (Bool.eqb (Up p) (Up res)); reflexivity.
  - destruct Hinv as [-> _]. reflexivity.
Qed.

Lemma lastEventFor_snoc (name : string) (es : list Event) (e : Event) :
  lastEventFor name (es ++ [e]) =
  if String.eqb (ev_TargetName e) name then Some e else lastEventFor name es.
Proof. unfold lastEventFor. rewrite rev_unit. reflexivity. Qed.

Lemma snoc_split {A} (l es1 es2 : list A) (a e : A) :
  (l ++ [a] = es1 ++ e :: es2)%list ->
  (es2 = [] /\ l = es1 /\ a = e) \/
  (exists es2', es2 = (es2' ++ [a])%list /\ l = (es1 ++ e :: es2')%list).
Proof.
  destruct (List.rev es2) as [|y r] eqn:Hr.
  - apply (f_equal (@List.rev A)) in Hr. rewrite List.rev_involutive in Hr.
    cbn in Hr. subst es2. intros H. apply List.app_inj_tail in H.
    left. destruct H; auto.
  - apply (f_equal (@List.rev A)) in Hr. rewrite List.rev_involutive in Hr.
    cbn [List.rev] in Hr. subst es2. intros H.
    rewrite List.app_comm_cons, List.app_assoc in H.
    apply List.app_inj_tail in H. destruct H as [-> ->].
    right. exists (List.rev r). auto.
Qed.

(** The last event of a target ends on the up-value of its last result,
    and every event starts where the last event of the target ended. *)
Lemma Aggregator_events_inv (h : list (Time * CheckResult)) :
  Z.of_nat (List.length h) < 2 ^ 63 ->
  (forall name e0,
     lastEventFor name (snd (Aggregator noHistory ∅ h)) = Some e0 ->
     exists p, lastResultFor name h = Some p /\ Up p = To e0) /\
  (forall es1 e es2,
     snd (Aggregator noHistory ∅ h) = (es1 ++ e :: es2)%list ->
     From e = negb (To e) /\
     (forall e0, lastEventFor (ev_TargetName e) es1 = Some e0 ->
                 From e = To e0)).
Proof.
  induction h as [|[now res] h IH] using rev_ind; intros Hlen.
  - split.
    + intros name e0 H. discriminate H.
    + intros es1 e es2 H. destruct es1; discriminate H.
  - rewrite List.length_app in Hlen. cbn [List.length] in Hlen.
    destruct (IH ltac:(lia)) as [Hinv Hchain]. clear IH.
    rewrite Aggregator_snoc. cbn [snd].
    rewrite (Aggregator_step_trace h now res) by lia.
    destruct (lastResultFor (TargetName res) h) as [p|] eqn:Hlast.
    + destruct (Bool.eqb (Up p) (Up res)) eqn:Heq.
      * rewrite List.app_nil_r. apply Bool.eqb_prop in Heq. split.
        { intros name e0 H. rewrite lastResultFor_snoc. unfold isFor. cbn [snd].
          destruct (String.eqb_spec (TargetName res) name) as [<-|Hne].
          - destruct (Hinv _ _ H) as (p' & Hp' & Hto).
            exists res. split; [reflexivity|]. congruence.
          - apply (Hinv _ _ H). }
        { exact Hchain. }
      * apply Bool.eqb_false_iff in Heq. split.
        { intros name e0. rewrite lastEventFor_snoc, lastResultFor_snoc.
          unfold isFor. cbn [transition ev_TargetName snd].
          destruct (String.eqb (TargetName res) name).
          - intros H. injection H as <-. exists res. split; reflexivity.
          - apply Hinv. }
        { intros es1 e es2 H. apply snoc_split in H.
          destruct H as [(-> & <- & <-)|(es2' & -> & H)].
          - cbn [transition From To ev_TargetName]. split.
            + destruct (Up p), (Up res); cbn; congruence.
            + intros e0 H0. destruct (Hinv _ _ H0) as (p' & Hp' & Hto).
              congruence.
          - apply (Hchain _ _ _ H). }
    + rewrite List.app_nil_r. split.
      * intros name e0 H. rewrite lastResultFor_snoc. unfold isFor. cbn [snd].
        destruct (String.eqb_spec (TargetName res) name) as [<-|Hne].
        { destruct (Hinv _ _ H) as (p' & Hp' & _). congruence. }
        { apply (Hinv _ _ H). }
      * exact Hchain.
Qed.

(** X5. In the events of a run from nothing every event is a flip (its
    origin is the opposite of its new up-value), and it starts from the
    up-value on which the preceding event of the same target ended: the
    events of a target alternate between down and up. *)
Theorem Aggregator_events_alternate (h : list (Time * CheckResult))
    (es1 es2 : list Event) (e : Event) :
  Z.of_nat (List.length h) < 2 ^ 63 ->
  snd (Aggregator noHistory ∅ h) = (es1 ++ e :: es2)%list ->
  From e = negb (To e) /\
  (forall e0, lastEventFor (ev_TargetName e) es1 = Some e0 ->
              From e = To e0 /\ To e = negb (To e0)).
Proof.
  intros Hlen H. destruct (Aggregator_events_inv h Hlen) as [_ Hchain].
  destruct (Hchain es1 e es2 H) as [Hflip Hprev].
  split; [exact Hflip|]. intros e0 H0. specialize (Hprev e0 H0).
  split; [exact Hprev|]. rewrite <- Hprev, Hflip. now rewrite negb_involutive.
Qed.

Lemma Aggregator_events_alternate_witness :
  From (recoveryEvent alpha 3000) = negb (To (recoveryEvent alpha 3000)) /\
  (forall e0,
     lastEventFor (ev_TargetName (recoveryEvent alpha 3000))
       [timeoutEvent alpha 2000] = Some e0 ->
     From (recoveryEvent alpha 3000) = To e0 /\
     To (recoveryEvent alpha 3000) = negb (To e0)).
Proof.
  apply (Aggregator_events_alternate upTimeoutUp [timeoutEvent alpha 2000] []).
  - vm_compute. reflexivity.
  - vm_compute. reflexivity.
Defined.

(** ** From results to incidents *)

Lemma IncidentCollector_app (a b : list (Time * Event)) (tbl : Incidents) :
  IncidentCollector (a ++ b) tbl = IncidentCollector b (IncidentCollector a tbl).
Proof.
  revert tbl. induction a as [|[now e] a IH]; intros tbl; [reflexivity|].
  rewrite <- List.app_comm_cons. cbn [IncidentCollector]. apply IH.
Qed.

Lemma collect_snoc (dbtime : Event -> Time) (es : list Event) (e : Event)
    (tbl : Incidents) :
  collect dbtime (es ++ [e]) tbl
  = persistIncident (dbtime e) e (collect dbtime es tbl).
Proof.
  unfold collect. rewrite List.map_app, IncidentCollector_app. reflexivity.
Qed.

Lemma active_other (n n0 : string) (r : Incident) :
  n0 <> n -> active n "primary" r = true -> active n0 "primary" r = false.
Proof.
  intros Hne H. destruct (active n0 "primary" r) eqn:H0; [|reflexivity].
  destruct (active_inj _ _ _ _ _ H H0) as [E _]. congruence.
Qed.

(** A statement for one target leaves the active incidents of every
    other target as they are. *)
Lemma activeRows_other (now : Time) (ev : Event) (tbl : Incidents)
    (name : string) :
  ev_TargetName ev <> name ->
  activeRows name "primary" (persistIncident now ev tbl)
  = activeRows name "primary" tbl.
Proof.
  intros Hne. unfold activeRows. destruct (To ev) eqn:Hto.
  - rewrite persistIncident_up_rows by exact Hto. rewrite filter_active_up.
    apply List.filter_ext_in. intros r _.
    destruct (active name "primary" r) eqn:Ha; [|reflexivity].
    rewrite (active_other name (ev_TargetName ev) r Hne Ha). reflexivity.
  - unfold persistIncident. rewrite Hto. cbn [negb].
    destruct (existsb _ (rows tbl)); [reflexivity|].
    cbn [rows]. rewrite List.filter_app. cbn [List.filter].
    unfold active at 2. cbn [target_name].
    destruct (String.eqb_spec (ev_TargetName ev) name); [contradiction|].
    cbn [andb]. apply List.app_nil_r.
Qed.

Lemma lastResultFor_none (name : string) (h : list (Time * CheckResult)) :
  lastResultFor name h = None -> resultsFor name h = [].
Proof.
  induction h as [|x h IH] using rev_ind; [reflexivity|].
  rewrite lastResultFor_snoc, resultsFor_snoc.
  destruct (isFor name x); [discriminate|].
  intros H. rewrite (IH H). reflexivity.
Qed.

Lemma lastResultFor_up (name : string) (h : list (Time * CheckResult))
    (p : CheckResult) :
  lastResultFor name h = Some p -> Up p = true ->
  (0 < ups (resultsFor name h))%nat.
Proof.
  induction h as [|x h IH] using rev_ind; [discriminate|].
  rewrite lastResultFor_snoc, resultsFor_snoc.
  destruct (isFor name x).
  - intros H Hup. injection H as <-. rewrite ups_snoc, Hup. lia.
  - rewrite List.app_nil_r. exact IH.
Qed.

(** X6. After a run from nothing whose events the collector has written
    to an empty table, a target has an active incident exactly when its
    last result is down and it has been up before: a target that is down
    from its first check on has no incident. *)
Theorem incident_active_iff_down_after_up (dbtime : Event -> Time)
    (h : list (Time * CheckResult)) (name : string) :
  Z.of_nat (List.length h) < 2 ^ 63 ->
  activeRows name "primary"
    (collect dbtime (snd (Aggregator noHistory ∅ h)) noIncidents) <> []
  <->
  (exists p, lastResultFor name h = Some p /\ Up p = false) /\
  (0 < ups (resultsFor name h))%nat.
Proof.
  revert name. induction h as [|[now res] h IH] using rev_ind; intros name Hlen.
  - cbn. split; [congruence|]. intros [(p & H & _) _]. discriminate H.
  - rewrite List.length_app in Hlen. cbn [List.length] in Hlen.
    rewrite Aggregator_snoc. cbn [snd].
    rewrite (Aggregator_step_trace h now res) by lia.
    rewrite lastResultFor_snoc, resultsFor_snoc. unfold isFor. cbn [snd].
    set (tbl := collect dbtime (snd (Aggregator noHistory ∅ h)) noIncidents)
      in *.
    destruct (String.eqb_spec (TargetName res) name) as [<-|Hne].
    + specialize (IH (TargetName res) ltac:(lia)). rewrite ups_snoc.
      destruct (lastResultFor (TargetName res) h) as [p|] eqn:Hlast.
      * destruct (Bool.eqb (Up p) (Up res)) eqn:Heq.
        { rewrite List.app_nil_r. fold tbl. apply Bool.eqb_prop in Heq.
          rewrite IH. split.
          - intros [(p' & Hp' & Hd) Hu]. injection Hp' as <-.
            split; [exists res; split; [reflexivity|congruence]|lia].
          - intros [(p' & Hp' & Hd) Hu]. injection Hp' as <-.
            rewrite Hd in Hu. split; [exists p; split; [reflexivity|congruence]|lia]. }
        { apply Bool.eqb_false_iff in Heq. rewrite collect_snoc. fold tbl.
          destruct (Up res) eqn:Hres.
          - (* recovery: the incident is closed *)
            pose proof (persistIncident_up_closes
                          (dbtime (transition (Up p) res))
                          (transition (Up p) res) tbl Hres) as Hcl.
            cbn [transition ev_TargetName] in Hcl. rewrite Hcl.
            split; [congruence|]. intros [(p' & Hp' & Hd) _].
            injection Hp' as <-. congruence.
          - (* failure after a success: an incident is opened *)
            assert (Hp : Up p = true) by (destruct (Up p); congruence).
            assert (Hnone : activeRows (TargetName res) "primary" tbl = []).
            { destruct (activeRows (TargetName res) "primary" tbl) eqn:Ha;
                [reflexivity|].
              assert (Hx : i :: l <> []) by discriminate.
              apply IH in Hx. destruct Hx as [(p' & Hp' & Hd) _].
              injection Hp' as <-. congruence. }
            pose proof (persistIncident_down_none
                          (dbtime (transition (Up p) res))
                          (transition (Up p) res) tbl Hres Hnone) as Hins.
            cbn [transition ev_TargetName] in *. rewrite Hins.
            unfold activeRows in *. cbn [rows].
            rewrite List.filter_app, Hnone. cbn [List.filter app].
            unfold active at 1. cbn [opened target_name probe ended_at].
            rewrite !String.eqb_refl. cbn [andb].
            split; [|discriminate]. intros _.
            split; [exists res; auto|].
            pose proof (lastResultFor_up _ _ _ Hlast Hp). lia. }
      * rewrite List.app_nil_r. fold tbl.
        rewrite (lastResultFor_none _ _ Hlast) in *. rewrite IH.
        split.
        { intros [(p' & Hp' & _) _]. discriminate Hp'. }
        { intros [(p' & Hp' & Hd) Hu]. injection Hp' as <-.
          rewrite Hd in Hu. cbn in Hu. lia. }
    + rewrite List.app_nil_r.
      assert (Hsame :
        activeRows name "primary"
          (collect dbtime
             (snd (Aggregator noHistory ∅ h)
              ++ match
                   match lastResultFor (TargetName res) h with
                   | Some p =>
                       if Bool.eqb (Up p) (Up res) then None
                       else Some (transition (Up p) res)
                   | None => None
                   end
                 with
                 | Some e => [e]
                 | None => []
                 end) noIncidents)
        = activeRows name "primary" tbl).
      { destruct (lastResultFor (TargetName res) h) as [p|];
          [|rewrite List.app_nil_r; reflexivity].
        destruct (Bool.eqb (Up p) (Up res));
          [rewrite List.app_nil_r; reflexivity|].
        rewrite collect_snoc. apply activeRows_other. exact Hne. }
      rewrite Hsame. apply IH. lia.
Qed.

Lemma incident_active_iff_down_after_up_witness :
  activeRows "Alpha" "primary"
    (collect (fun _ => 3000) (snd (Aggregator noHistory ∅ upThenTimeout))
       noIncidents) <> []
  <->
  (exists p, lastResultFor "Alpha" upThenTimeout = Some p /\ Up p = false) /\
  (0 < ups (resultsFor "Alpha" upThenTimeout))%nat.
Proof.
  apply (incident_active_iff_down_after_up (fun _ => 3000) upThenTimeout "Alpha").
  vm_compute. reflexivity.
Defined.

(** A target that is down from its first check on: no event, and no
    incident in the table. *)
Example downFromStart_no_incident :
  snd (Aggregator noHistory ∅ downFromStart) = [] /\
  rows (collect (fun _ => 3000) (snd (Aggregator noHistory ∅ downFromStart))
          noIncidents) = [].
Proof. vm_compute. split; reflexivity. Qed.

(** ** The incident collector: what a statement never touches *)

Lemma nth_error_map_if {A} (c : A -> bool) (f : A -> A) (l : list A)
    (i : nat) (r : A) :
  List.nth_error l i = Some r ->
  List.nth_error (List.map (fun x => if c x then f x else x) l) i
  = Some (if c r then f r else r).
Proof.
  intros H. rewrite List.nth_error_map, H. reflexivity.
Qed.

Lemma persistIncident_row (now : Time) (ev : Event) (tbl : Incidents)
    (i : nat) (r : Incident) :
  List.nth_error (rows tbl) i = Some r ->
  exists r',
    List.nth_error (rows (persistIncident now ev tbl)) i = Some r' /\
    id r' = id r /\ target_name r' = target_name r /\ probe r' = probe r /\
    started_at r' = started_at r /\ start_status r' = start_status r /\
    start_status_code r' = start_status_code r /\
    start_error r' = start_error r /\ created_at r' = created_at r /\
    (ended_at r <> None -> r' = r).
Proof.
  intros H. destruct (To ev) eqn:Hto.
  - rewrite persistIncident_up_rows by exact Hto.
    rewrite (nth_error_map_if _ _ _ _ _ H).
    destruct (active (ev_TargetName ev) "primary" r) eqn:Ha.
    + eexists. split; [reflexivity|]. cbn. repeat split.
      intros Hend. unfold active in Ha. destruct (ended_at r); [|contradiction].
      rewrite andb_false_r in Ha. discriminate.
    + exists r. repeat split.
  - unfold persistIncident. rewrite Hto. cbn [negb].
    destruct (existsb _ (rows tbl)).
    + exists r. repeat split; exact H.
    + exists r. cbn [rows]. repeat split.
      rewrite List.nth_error_app1; [exact H|].
      apply List.nth_error_Some. congruence.
Qed.

(** X7. The collector never deletes or moves a row and never rewrites
    the beginning of an incident: over any sequence of events a row stays
    at its place with its key, target, probe, start time, start status,
    start code and start error, and an incident that has ended stays as it
    is, field for field. *)
Theorem IncidentCollector_keeps_rows (events : list (Time * Event))
    (tbl : Incidents) (i : nat) (r : Incident) :
  List.nth_error (rows tbl) i = Some r ->
  exists r',
    List.nth_error (rows (IncidentCollector events tbl)) i = Some r' /\
    id r' = id r /\ target_name r' = target_name r /\ probe r' = probe r /\
    started_at r' = started_at r /\ start_status r' = start_status r /\
    start_status_code r' = start_status_code r /\
    start_error r' = start_error r /\ created_at r' = created_at r /\
    (ended_at r <> None -> r' = r).
Proof.
  revert tbl r. induction events as [|[now e] events IH]; intros tbl r H.
  - exists r. repeat split. exact H.
  - cbn [IncidentCollector].
    destruct (persistIncident_row now e tbl i r H)
      as (r1 & H1 & E1 & E2 & E3 & E4 & E5 & E6 & E7 & E8 & Hend1).
    destruct (IH _ _ H1)
      as (r2 & H2 & F1 & F2 & F3 & F4 & F5 & F6 & F7 & F8 & Hend2).
    exists r2. split; [exact H2|].
    repeat split; try congruence.
    intros Hend. specialize (Hend1 Hend). subst r1. exact (Hend2 Hend).
Qed.

Lemma IncidentCollector_keeps_rows_witness :
  exists r',
    List.nth_error
      (rows (IncidentCollector [(4000, recoveryEvent alpha 3000)]
               (collect (fun _ => 3000) [timeoutEvent alpha 2000] noIncidents)))
      0 = Some r' /\
    id r' = id (opened 3000 (timeoutEvent alpha 2000) 1) /\
    target_name r' = target_name (opened 3000 (timeoutEvent alpha 2000) 1) /\
    probe r' = probe (opened 3000 (timeoutEvent alpha 2000) 1) /\
    started_at r' = started_at (opened 3000 (timeoutEvent alpha 2000) 1) /\
    start_status r' = start_status (opened 3000 (timeoutEvent alpha 2000) 1) /\
    start_status_code r'
      = start_status_code (opened 3000 (timeoutEvent alpha 2000) 1) /\
    start_error r' = start_error (opened 3000 (timeoutEvent alpha 2000) 1) /\
    created_at r' = created_at (opened 3000 (timeoutEvent alpha 2000) 1) /\
    (ended_at (opened 3000 (timeoutEvent alpha 2000) 1) <> None ->
     r' = opened 3000 (timeoutEvent alpha 2000) 1).
Proof.
  apply (IncidentCollector_keeps_rows [(4000, recoveryEvent alpha 3000)]
           (collect (fun _ => 3000) [timeoutEvent alpha 2000] noIncidents) 0).
  reflexivity.
Defined.

(** ** The scheduler and the workers: the two queues *)




Lemma CheckOnce_job_fields (clk : Clock) (t : Target) (ex : Exchange) :
  TargetName (CheckOnce clk t ex) = Name t /\
  res_URL (CheckOnce clk t ex) = URL t /\
  Attempt (CheckOnce clk t ex) = 1.
Proof.
  destruct ex as [e|e|resp]; [repeat split..|].
  rewrite CheckOnce_responded. cbv zeta.
  repeat (case_if; try (repeat split; fail)).
  destruct (bodyRead t resp) as [[b|e]|]; try (repeat split; fail).
  case_if; repeat split.
Qed.

(** X9. A worker stamps its result with the name, the URL and the
    attempt of the job, which for a job of attempt 1 gives back the
    result of [CheckOnce] itself.  Its send has no default: the worker
    blocks exactly when the result queue is full and the context is live;
    with a live context a result is never dropped, it is appended to the
    queue and the worker goes on; a worker stops, without sending, only
    on a cancelled context. *)
Theorem workerStep_backpressure (ctxDone pick : bool) (clk : Clock)
    (job : CheckJob) (ex : Exchange) (resultsCh : Chan CheckResult) :
  (workerStep ctxDone pick clk job ex resultsCh = None <->
   chan_full resultsCh = true /\ ctxDone = false) /\
  (forall out,
     workerStep ctxDone pick clk job ex resultsCh = Some out ->
     (ctxDone = false ->
      resultsCh' out = chan_send resultsCh (runJob clk job ex) /\
      goesOn out = true) /\
     (goesOn out = false -> ctxDone = true /\ resultsCh' out = resultsCh)) /\
  TargetName (runJob clk job ex) = Name (job_Target job) /\
  res_URL (runJob clk job ex) = URL (job_Target job) /\
  Attempt (runJob clk job ex) = job_Attempt job /\
  (job_Attempt job = 1 ->
   runJob clk job ex = CheckOnce clk (job_Target job) ex).
Proof.
  split; [|split].
  - unfold workerStep, select.
    destruct (chan_full resultsCh), ctxDone, pick; cbn [negb];
      split; try discriminate; try tauto; intros [H1 H2]; discriminate.
  - intros out. unfold workerStep, select.
    destruct (chan_full resultsCh), ctxDone, pick; cbn [negb];
      intros H; try discriminate H; injection H as <-;
      cbn [resultsCh' goesOn]; split; intros; try discriminate; auto.
  - split; [reflexivity|]. split; [reflexivity|]. split; [reflexivity|].
    intros Hatt. unfold runJob. cbv zeta. rewrite Hatt.
    destruct (CheckOnce_job_fields clk (job_Target job) ex) as (H1 & H2 & H3).
    destruct (CheckOnce clk (job_Target job) ex). cbn in *. congruence.
Qed.

Lemma workerStep_backpressure_witness :
  workerStep false true (clockAt 2000)
    {| job_Target := alpha; ScheduledAt := 1999; job_Attempt := 1 |}
    timedOut fullResults = None.
Proof.
  apply (proj1 (workerStep_backpressure false true (clockAt 2000)
                  {| job_Target := alpha; ScheduledAt := 1999;
                     job_Attempt := 1 |} timedOut fullResults)).
  split; reflexivity.
Defined.

(** ** The persistence of results *)

Lemma trimRight_empty (s : string) (c : ascii) :
  trimRight s = "" -> byteIn c s = true -> asciiSpace c = true.
Proof.
  induction s as [|d s IH]; [discriminate|].
  cbn [trimRight byteIn]. destruct (trimRight s) as [|x r]; [|discriminate].
  destruct (asciiSpace d) eqn:Hd; [|discriminate]. intros _ H.
  apply orb_true_iff in H. destruct H as [H|H].
  - apply Ascii.eqb_eq in H. congruence.
  - apply IH; [reflexivity|exact H].
Qed.

Lemma trimLeft_dropped (s : string) (c : ascii) :
  byteIn c s = true -> byteIn c (trimLeft s) = true \/ asciiSpace c = true.
Proof.
  induction s as [|d s IH]; [discriminate|].
  cbn [trimLeft]. destruct (asciiSpace d) eqn:Hd; [|auto].
  cbn [byteIn]. intros H. apply orb_true_iff in H. destruct H as [H|H].
  - apply Ascii.eqb_eq in H. right. congruence.
  - apply IH, H.
Qed.

(** A string that holds a byte other than white space is not blank. *)
Lemma TrimSpace_nonblank (s : string) (c : ascii) :
  byteIn c s = true -> asciiSpace c = false -> strings_TrimSpace s <> "".
Proof.
  intros Hin Hc E. unfold strings_TrimSpace in E.
  destruct (trimLeft_dropped s c Hin) as [H|H]; [|congruence].
  pose proof (trimRight_empty _ c E H). congruence.
Qed.

Lemma TrimSpace_head (c : ascii) (s : string) :
  asciiSpace c = false -> strings_TrimSpace (String c s) <> "".
Proof.
  intros Hc. apply (TrimSpace_nonblank _ c); [|exact Hc].
  cbn [byteIn]. rewrite Ascii.eqb_refl. reflexivity.
Qed.

Lemma TrimSpace_head_app (c : ascii) (a b : string) :
  asciiSpace c = false -> strings_TrimSpace ((String c a) ++ b) <> "".
Proof. intros Hc. rewrite append_cons. apply TrimSpace_head, Hc. Qed.

Lemma classifyHTTPError_url_nonblank (op u : string) (inner : GoError) :
  strings_TrimSpace (classifyHTTPError (url_Error op u inner)) <> "".
Proof.
  unfold classifyHTTPError.
  repeat (case_if; [apply TrimSpace_head; reflexivity|]).
  apply (TrimSpace_nonblank _ dquote); [|reflexivity].
  rewrite url_Error_text, byteIn_app. apply orb_true_iff. left.
  rewrite byteIn_app. apply orb_true_iff. right.
  rewrite append_cons. unfold strconv_Quote.
  cbn [byteIn]. rewrite byteIn_app. cbn [byteIn].
  rewrite Ascii.eqb_refl. rewrite !orb_true_r. reflexivity.
Qed.

(** The reason texts of a result that is down are not blank. *)
Lemma CheckOnce_reason_nonblank (clk : Clock) (t : Target) (ex : Exchange) :
  (forall e, ex = DoFailed e -> exists op u inner, e = url_Error op u inner) ->
  Up (CheckOnce clk t ex) = false ->
  strings_TrimSpace (Error (CheckOnce clk t ex)) <> "" \/
  (Error (CheckOnce clk t ex) = "" /\
   strings_TrimSpace (Validation (CheckOnce clk t ex)) <> "").
Proof.
  intros Hurl. destruct ex as [e|e|resp].
  - intros _. left. apply TrimSpace_head_app. reflexivity.
  - intros _. left. destruct (Hurl e eq_refl) as (op & u & inner & ->).
    apply classifyHTTPError_url_nonblank.
  - rewrite CheckOnce_responded. cbv zeta.
    destruct (negb (statusMatchesPolicy t (resp_StatusCode resp))).
    { intros _. right. split; [reflexivity|]. cbn [result Validation].
      case_if; apply TrimSpace_head_app; reflexivity. }
    destruct (String.eqb (substringRequirement t) ""); [discriminate|].
    destruct (bodyRead t resp) as [[b|e]|].
    + destruct (strings_Contains b (substringRequirement t)); [discriminate|].
      intros _. right. split; [reflexivity|].
      apply TrimSpace_head_app. reflexivity.
    + intros _. left. apply TrimSpace_head_app. reflexivity.
    + intros _. right. split; [reflexivity|].
      apply TrimSpace_head. reflexivity.
Qed.

(** X10. The row that is written for a result of [CheckOnce] has the
    status UP exactly when the result is up, and else TIMEOUT or DOWN; a
    request that failed on its deadline is filed as TIMEOUT with status
    code 0 and the error text timeout; the error column is NULL exactly
    when the result is up, and else holds the transport error or, when
    there is none, the validation text (the errors of [http.Client.Do]
    being [*url.Error] values). *)
Theorem persistCheckResult_row (now : Time) (key : Z) (clk : Clock)
    (t : Target) (ex : Exchange) :
  let res := CheckOnce clk t ex in
  let row := checkRow now res key in
  (status row = "UP" <-> Up res = true) /\
  (status row = "UP" \/ status row = "TIMEOUT" \/ status row = "DOWN") /\
  (forall op u, ex = DoFailed (url_Error op u context_DeadlineExceeded) ->
     status row = "TIMEOUT" /\ status_code row = Some 0 /\
     error row = Some "timeout") /\
  ((forall e, ex = DoFailed e -> exists op u inner, e = url_Error op u inner) ->
   (error row = None <-> Up res = true) /\
   (Up res = false ->
    error row = Some (if String.eqb (Error res) "" then Validation res
                      else Error res))).
Proof.
  intros res row. subst row. cbn [checkRow status status_code error].
  unfold resultStatus. split; [|split; [|split]].
  - destruct (Up res); [tauto|]. case_if; split; discriminate.
  - destruct (Up res); [auto|]. case_if; auto.
  - intros op u ->. subst res. rewrite CheckOnce_deadline.
    cbn [result Up Error StatusCode]. repeat split.
  - intros Hurl. cbn [nullableString].
    destruct (Up res) eqn:Hup.
    + split; [|discriminate].
      assert (HE : Error res = "" /\ Validation res = "").
      { subst res. destruct ex as [e|e|resp]; try discriminate Hup.
        revert Hup. rewrite CheckOnce_responded. cbv zeta.
        repeat (case_if; try discriminate; try (split; reflexivity; fail)).
        destruct (bodyRead t resp) as [[b|e]|]; try discriminate.
        case_if; [split; reflexivity|discriminate]. }
      destruct HE as [-> ->]. split; reflexivity.
    + destruct (CheckOnce_reason_nonblank clk t ex Hurl Hup) as [H|[HE H]];
        fold res in H |- *.
      * destruct (String.eqb_spec (strings_TrimSpace (Error res)) "");
          [contradiction|]. cbn [negb].
        destruct (String.eqb_spec (Error res) "") as [E|_].
        { rewrite E in H. contradiction H. reflexivity. }
        split; [split; discriminate|reflexivity].
      * fold res in HE. rewrite HE. cbn [strings_TrimSpace trimLeft trimRight].
        cbn [String.eqb negb].
        destruct (String.eqb_spec (strings_TrimSpace (Validation res)) "");
          [contradiction|]. cbn [negb].
        split; [split; discriminate|reflexivity].
Qed.

Lemma persistCheckResult_row_witness :
  status (checkRow 2001 (CheckOnce (clockAt 2000) alpha timedOut) 2) = "TIMEOUT" /\
  status_code (checkRow 2001 (CheckOnce (clockAt 2000) alpha timedOut) 2) = Some 0 /\
  error (checkRow 2001 (CheckOnce (clockAt 2000) alpha timedOut) 2) = Some "timeout".
Proof.
  destruct (persistCheckResult_row 2001 2 (clockAt 2000) alpha timedOut)
    as (_ & _ & H & _).
  exact (H "Get" "https://alpha.example/health" eq_refl).
Defined.

(** ** The uptime query over the rows of a run *)

Lemma resultStatus_UP (res : CheckResult) :
  String.eqb (resultStatus res) "UP" = Up res.
Proof.
  unfold resultStatus. destruct (Up res); [reflexivity|].
  case_if; reflexivity.
Qed.

Lemma uptimeQuery_insert (name : string) (from now : Time) (res : CheckResult)
    (tbl : CheckResults) :
  uptimeQuery name from (persistCheckResult now res tbl) =
  let here := isFor name (now, res) && Z.geb (filedAt (now, res)) from in
  (fst (uptimeQuery name from tbl) + (if here then 1 else 0),
   snd (uptimeQuery name from tbl) + (if here && Up res then 1 else 0)).
Proof.
  unfold uptimeQuery, persistCheckResult, isFor, filedAt. cbv zeta.
  cbn [cr_rows fst snd]. rewrite List.filter_app. cbn [List.filter].
  cbn [checkRow cr_target_name checked_at].
  match goal with
  | |- context [if ?c then [_] else []] => destruct c
  end.
  - rewrite List.filter_app, !List.length_app. cbn [List.filter].
    change (status (checkRow now res (cr_next_id tbl)))
      with (resultStatus res).
    rewrite resultStatus_UP. cbn [andb].
    destruct (Up res); cbn [List.length]; f_equal; lia.
  - rewrite !List.app_nil_r. cbn [andb]. f_equal; lia.
Qed.

Lemma uptimeQuery_persistAll (name : string) (from : Time)
    (h : list (Time * CheckResult)) (tbl : CheckResults) :
  uptimeQuery name from (persistAll h tbl) =
  (fst (uptimeQuery name from tbl)
   + Z.of_nat (List.length (resultsSince name from h)),
   snd (uptimeQuery name from tbl)
   + Z.of_nat (ups (resultsSince name from h))).
Proof.
  revert tbl. induction h as [|[now res] h IH]; intros tbl.
  - cbn. rewrite !Z.add_0_r. symmetry. apply surjective_pairing.
  - cbn [persistAll]. rewrite IH, uptimeQuery_insert. cbv zeta. cbn [fst snd].
    unfold resultsSince, ups. cbn [List.filter].
    destruct (isFor name (now, res) && Z.geb (filedAt (now, res)) from).
    + cbn [List.map List.filter snd andb].
      destruct (Up res); cbn [List.length]; f_equal; lia.
    + cbn [andb]. f_equal; lia.
Qed.

(** X11. After the aggregator has written the rows of the results it
    received to an empty table, the uptime query for a target and a
    start time counts the results of that target filed at that time or
    later (under the time of the check, or under the clock when the check
    has none), and, as up, those of them that were up; so the up count
    never exceeds the total. *)
Theorem uptimeQuery_counts_results (name : string) (from : Time)
    (h : list (Time * CheckResult)) :
  uptimeQuery name from (persistAll h noResults) =
  (Z.of_nat (List.length (resultsSince name from h)),
   Z.of_nat (ups (resultsSince name from h))) /\
  0 <= snd (uptimeQuery name from (persistAll h noResults))
    <= fst (uptimeQuery name from (persistAll h noResults)).
Proof.
  rewrite uptimeQuery_persistAll. cbn [uptimeQuery noResults cr_rows List.filter
    List.length fst snd]. cbn [Z.of_nat Z.add]. split; [reflexivity|].
  pose proof (ups_downs_length (resultsSince name from h)). lia.
Qed.

(** ** The snapshot of the states of a run *)

(** Every state of a run from nothing is filed under its own name. *)
Lemma Aggregator_named (loaded : string -> option State)
    (h : list (Time * CheckResult)) (k : string) (st : State) :
  fst (Aggregator loaded ∅ h) !! k = Some st -> st_Name st = k.
Proof.
  revert k st. induction h as [|[now res] h IH] using rev_ind; intros k st.
  - cbn. rewrite lookup_empty. discriminate.
  - rewrite Aggregator_snoc. cbn [fst]. unfold Aggregator_step. cbv zeta.
    cbn [fst].
    destruct (String.eqb_spec (TargetName res) k) as [<-|Hne].
    + rewrite lookup_insert_eq. intros H. injection H as <-. reflexivity.
    + rewrite lookup_insert_ne by exact Hne. apply IH.
Qed.

Lemma find_app_first {A} (f : A -> bool) (l1 l2 : list A) :
  List.find f (l1 ++ l2) =
  match List.find f l1 with
  | Some x => Some x
  | None => List.find f l2
  end.
Proof.
  induction l1 as [|x l1 IH]; [reflexivity|].
  cbn [app List.find]. destruct (f x); [reflexivity|exact IH].
Qed.

Lemma buildSnapshot_fold (format : Time -> string) (order : list State)
    (snap : Snapshot) (k : string) :
  let s := List.fold_left
             (fun snap st =>
                let dto := toDTO format st in
                {| All := All snap ++ [dto];
                   ByName := <[dto_Name dto := dto]> (ByName snap) |})
             order snap in
  All s = (All snap ++ List.map (toDTO format) order)%list /\
  ByName s !! k = match lastNamed k order with
                  | Some st => Some (toDTO format st)
                  | None => ByName snap !! k
                  end.
Proof.
  revert snap. induction order as [|st order IH]; intros snap.
  - cbn. rewrite List.app_nil_r. auto.
  - cbn [List.fold_left]. cbv zeta in *.
    destruct (IH {| All := All snap ++ [toDTO format st];
                    ByName := <[dto_Name (toDTO format st) := toDTO format st]>
                                (ByName snap) |}) as [HA HB].
    split.
    + rewrite HA. cbn [All List.map]. rewrite <- List.app_assoc. reflexivity.
    + rewrite HB. unfold lastNamed. cbn [List.rev ByName].
      rewrite find_app_first.
      destruct (List.find _ (List.rev order)); [reflexivity|].
      cbn [List.find toDTO dto_Name].
      destruct (String.eqb_spec (st_Name st) k) as [<-|Hne].
      * rewrite lookup_insert_eq. reflexivity.
      * rewrite lookup_insert_ne by exact Hne. reflexivity.
Qed.

Lemma statesOf_In (state : gmap string State) (st : State) :
  List.In st (statesOf state) <-> exists k, state !! k = Some st.
Proof.
  unfold statesOf. rewrite List.in_map_iff. split.
  - intros ([k st'] & <- & Hin). exists k.
    apply list_elem_of_In, elem_of_map_to_list in Hin. exact Hin.
  - intros (k & Hk). exists (k, st). split; [reflexivity|].
    apply list_elem_of_In, elem_of_map_to_list. exact Hk.
Qed.

(** X12. The snapshot built from the states of a run of the aggregator,
    in whatever order the runtime ranges over the map, holds under each
    name the entry of the state of that target and nothing under any
    other name, and lists one entry for each state; each entry carries
    the counters of its state. *)
Theorem buildSnapshot_mirrors_state (format : Time -> string)
    (loaded : string -> option State) (h : list (Time * CheckResult))
    (order : list State) :
  Permutation order (statesOf (fst (Aggregator loaded ∅ h))) ->
  let state := fst (Aggregator loaded ∅ h) in
  let snap := buildSnapshot format order in
  (forall k, ByName snap !! k = option_map (toDTO format) (state !! k)) /\
  Permutation (All snap) (List.map (toDTO format) (statesOf state)) /\
  List.length (All snap) = size state /\
  (forall k st, state !! k = Some st ->
     exists dto, ByName snap !! k = Some dto /\ List.In dto (All snap) /\
       dto_Name dto = k /\ dto_Up dto = LastUp st /\
       dto_TotalChecks dto = TotalChecks st /\
       dto_TotalFails dto = TotalFails st /\
       dto_ConsecutiveFail dto = ConsecutiveFail st /\
       dto_ConsecutiveSuccess dto = ConsecutiveSuccess st).
Proof.
  intros Hperm state snap.
  assert (Hby : forall k, ByName snap !! k
                          = option_map (toDTO format) (state !! k)).
  { intros k. subst snap state. unfold buildSnapshot.
    pose proof (buildSnapshot_fold format order {| All := []; ByName := ∅ |} k)
      as Hfold.
    cbv zeta in Hfold |- *. destruct Hfold as [_ ->].
    cbn [ByName]. rewrite lookup_empty.
    unfold lastNamed.
    destruct (List.find _ (List.rev order)) as [st|] eqn:Hf.
    - apply List.find_some in Hf. destruct Hf as [Hin Hname].
      apply String.eqb_eq in Hname. apply List.in_rev in Hin.
      apply (Permutation_in _ Hperm), statesOf_In in Hin.
      destruct Hin as (k' & Hk').
      pose proof (Aggregator_named loaded h k' st Hk') as Hn.
      rewrite Hname in Hn. subst k'. rewrite Hk'. reflexivity.
    - destruct (fst (Aggregator loaded ∅ h) !! k) as [st|] eqn:Hk;
        [|reflexivity]. exfalso.
      assert (Hin : List.In st (List.rev order)).
      { apply List.in_rev. rewrite List.rev_involutive.
        apply (Permutation_in _ (Permutation_sym Hperm)), statesOf_In.
        exists k. exact Hk. }
      pose proof (List.find_none _ _ Hf st Hin) as Hno. cbv beta in Hno.
      rewrite (Aggregator_named loaded h k st Hk), String.eqb_refl in Hno.
      discriminate. }
  assert (HAll : All snap = List.map (toDTO format) order).
  { subst snap. unfold buildSnapshot.
    pose proof (buildSnapshot_fold format order {| All := []; ByName := ∅ |} "")
      as Hfold.
    cbv zeta in Hfold |- *. destruct Hfold as [-> _]. reflexivity. }
  split; [exact Hby|]. split; [|split].
  - rewrite HAll. apply Permutation_map, Hperm.
  - rewrite HAll, List.length_map, (Permutation_length Hperm).
    unfold statesOf. rewrite List.length_map.
    apply length_map_to_list.
  - intros k st Hk. exists (toDTO format st).
    rewrite Hby, Hk. split; [reflexivity|]. split.
    + rewrite HAll. apply List.in_map.
      apply (Permutation_in _ (Permutation_sym Hperm)), statesOf_In.
      exists k. exact Hk.
    + cbn [toDTO dto_Name dto_Up dto_TotalChecks dto_TotalFails
             dto_ConsecutiveFail dto_ConsecutiveSuccess].
      rewrite (Aggregator_named loaded h k st Hk). repeat split.
Qed.

Lemma buildSnapshot_mirrors_state_witness :
  ByName (buildSnapshot (fun _ => "2024-01-01T00:00:00Z")
            (statesOf (fst (Aggregator noHistory ∅ upThenDown)))) !! "Alpha"
  = option_map (toDTO (fun _ => "2024-01-01T00:00:00Z"))
      (fst (Aggregator noHistory ∅ upThenDown) !! "Alpha").
Proof.
  apply (proj1 (buildSnapshot_mirrors_state (fun _ => "2024-01-01T00:00:00Z")
                  noHistory upThenDown
                  (statesOf (fst (Aggregator noHistory ∅ upThenDown)))
                  (Permutation_refl _))).
Defined.

(** ** The configuration *)

(** One test of the validation that has not failed. *)
Ltac passed :=
  match goal with
  | |- (if ?c then Err _ else _) = Ok _ -> _ =>
      let E := fresh "E" in destruct c eqn:E; [discriminate|]
  | |- match ?x with Ok _ => _ | Err _ => Err _ end = Ok _ -> _ =>
      let P := fresh "P" in destruct x eqn:P; [|discriminate]
  end.

Lemma validateTarget_ok (PD : string -> Result Duration) (i : Z)
    (seen : gset string) (t t' : config.Target) :
  config.validateTarget PD i seen t = Ok t' ->
  accepted PD t t' /\
  (config.Name t' ∉ seen) /\
  wellFormed
    {| Name := config.Name t'; URL := config.URL t';
       Method := config.Method t'; Interval := config.IntervalDur t';
       Timeout := config.TimeoutDur t';
       ExpectedStatus := config.ExpectedStatus t';
       Contains := config.Contains t';
       MaxBodyBytes := config.MaxBodyBytes t';
       Enabled := match config.Enabled t' with Some v => v | None => true end;
       Tags := config.Tags t' |}.
Proof.
  unfold config.validateTarget. cbv zeta. repeat passed.
  intros Heq. injection Heq as <-.
  apply String.eqb_neq in E. apply bool_decide_eq_false in E0.
  apply andb_false_iff in E2. apply negb_false_iff, orb_true_iff in E3.
  apply Z.leb_gt in E4, E5. apply orb_false_iff in E6. destruct E6 as [E6 E6'].
  apply Z.ltb_ge in E6, E7. rewrite Z.gtb_ltb in E6'. apply Z.ltb_ge in E6'.
  split; [|split].
  - unfold accepted. cbn. repeat split; assumption.
  - exact E0.
  - unfold wellFormed, substringRequirement. cbn.
    split; [exact E|]. split.
    { destruct E2 as [H|H]; apply negb_false_iff in H; auto. }
    split.
    { destruct E3 as [H|H]; apply String.eqb_eq in H; auto. }
    repeat split; try lia.
    intros Hhead. rewrite Hhead in E8. cbn in E8.
    apply negb_false_iff in E8. unfold config.blank in E8.
    apply String.eqb_eq in E8. exact E8.
Qed.


Lemma validateTargets_ok (PD : string -> Result Duration)
    (ts : list config.Target) :
  forall (i : Z) (seen : gset string) (ts' : list config.Target),
  config.validateTargets PD i seen ts = Ok ts' ->
  Forall2 (accepted PD) ts ts' /\
  NoDup (List.map config.Name ts') /\
  (forall t', In t' ts' -> config.Name t' ∉ seen) /\
  Forall wellFormed (toMonitorTargets ts').
Proof.
  induction ts as [|t rest IH]; intros i seen ts' H;
    cbn [config.validateTargets] in H.
  - injection H as <-. repeat split; try constructor. intros t' [].
  - destruct (config.validateTarget PD i seen t) as [t1|e1] eqn:E1;
      [|discriminate].
    destruct (config.validateTargets PD (i + 1) ({[config.Name t1]} ∪ seen) rest)
      as [rest'|e2] eqn:E2; [|discriminate].
    injection H as <-.
    apply validateTarget_ok in E1. destruct E1 as (Hacc & Hseen & Hwf).
    apply IH in E2. destruct E2 as (HF & HND & Hnot & HWF).
    split; [constructor; assumption|]. split; [|split].
    + cbn [List.map]. constructor; [|exact HND].
      intros Hin. apply list_elem_of_In, in_map_iff in Hin.
      destruct Hin as (t2 & Hn & Hin2).
      apply Hnot in Hin2. apply Hin2. rewrite Hn.
      apply elem_of_union_l, elem_of_singleton. reflexivity.
    + intros t' [<-|Hin]; [exact Hseen|].
      apply Hnot in Hin. intros Hs. apply Hin, elem_of_union_r, Hs.
    + unfold toMonitorTargets in *. cbn [List.map]. constructor; assumption.
Qed.

(** X13.  A configuration that [validateAndNormalize] accepts has at
    least one target; its server and monitoring sections are untouched;
    each target is the given one with name and URL trimmed, the method
    trimmed and in upper case and the two durations parsed; no two
    targets have the same (trimmed) name; and every target handed to the
    monitor is well formed: a name, an http or https URL, GET or HEAD,
    positive interval and timeout, an expected status in 100..599, no
    negative body limit and no substring asked of a HEAD. *)
Theorem validateAndNormalize_sound (PD : string -> Result Duration)
    (cfg cfg' : config.Config) :
  config.validateAndNormalize PD cfg = Ok cfg' ->
  config.Server cfg' = config.Server cfg /\
  config.Monitoring cfg' = config.Monitoring cfg /\
  config.Targets cfg' <> [] /\
  Forall2 (accepted PD) (config.Targets cfg) (config.Targets cfg') /\
  NoDup (List.map config.Name (config.Targets cfg')) /\
  Forall wellFormed (toMonitorTargets (config.Targets cfg')).
Proof.
  unfold config.validateAndNormalize. intros H.
  destruct (config.Targets cfg) as [|t ts] eqn:Ets; [discriminate|].
  destruct (config.validateTargets PD 0 ∅ (t :: ts)) as [ts'|e] eqn:E;
    [|discriminate].
  injection H as <-. cbn [config.Server config.Monitoring config.Targets].
  apply validateTargets_ok in E. destruct E as (HF & HND & _ & HWF).
  repeat split; try assumption.
  inversion HF; subst. discriminate.
Qed.

Lemma validateAndNormalize_sound_witness :
  config.validateAndNormalize sampleParse (config.applyDefaults sampleConfig)
    = Ok sampleLoaded /\
  NoDup (List.map config.Name (config.Targets sampleLoaded)) /\
  Forall wellFormed (toMonitorTargets (config.Targets sampleLoaded)).
Proof.
  split; [vm_compute; reflexivity|].
  exact (proj2 (proj2 (proj2 (proj2
    (validateAndNormalize_sound sampleParse
       (config.applyDefaults sampleConfig) sampleLoaded
       ltac:(vm_compute; reflexivity)))))).
Defined.

(** A target of a loaded configuration, as the monitor gets it. *)
Lemma Load_target (PD : string -> Result Duration) (file : Result string)
    (unmarshal : string -> Result config.Config) (cfg : config.Config)
    (t : Target) :
  config.Load PD file unmarshal = Ok cfg ->
  In t (toMonitorTargets (config.Targets cfg)) ->
  wellFormed t /\ 0 < MaxBodyBytes t.
Proof.
  unfold config.Load. intros H Hin.
  destruct file as [b|e]; [|discriminate].
  destruct (unmarshal b) as [cfg0|e]; [|discriminate].
  unfold config.validateAndNormalize in H.
  destruct (config.Targets (config.applyDefaults cfg0)) as [|t0 ts0] eqn:Ets;
    [discriminate|].
  destruct (config.validateTargets PD 0 ∅ (t0 :: ts0)) as [ts'|e] eqn:E;
    [|discriminate].
  injection H as <-. cbn [config.Targets] in Hin.
  apply validateTargets_ok in E. destruct E as (HF & _ & _ & HWF).
  assert (Hwf : wellFormed t).
  { rewrite Forall_forall in HWF. apply HWF.
    apply list_elem_of_In. exact Hin. }
  split; [exact Hwf|].
  unfold toMonitorTargets in Hin. apply in_map_iff in Hin.
  destruct Hin as (t' & <- & Hin). cbn [MaxBodyBytes].
  assert (Hd : Forall (fun u => config.MaxBodyBytes u <> 0) (t0 :: ts0)).
  { rewrite <- Ets. cbn [config.applyDefaults config.Targets].
    apply Forall_forall. intros u Hu. apply list_elem_of_In in Hu.
    apply in_map_iff in Hu. destruct Hu as (u0 & <- & _).
    cbn [config.defaultTarget config.MaxBodyBytes].
    destruct (Z.eqb_spec (config.MaxBodyBytes u0) 0); lia. }
  assert (Hne : config.MaxBodyBytes t' <> 0).
  { clear Ets Hwf HWF. revert Hd Hin.
    induction HF as [|u u' us us' Hacc HF IH]; intros Hd Hin;
      [destruct Hin|destruct Hin as [<-|Hin]].
    - apply Forall_inv in Hd. destruct Hacc as (_&_&_&_&_&_&_&Hm&_).
      rewrite Hm. exact Hd.
    - apply IH; [eapply Forall_inv_tail; exact Hd|exact Hin]. }
  destruct Hwf as (_&_&_&_&_&_&Hge&_). cbn [MaxBodyBytes] in Hge. lia.
Qed.


(** X14.  In a configuration that [config.Load] returns the defaults are
    in force: workers and the two buffer sizes are positive, the address
    and the user agent are not blank, and every target handed to the
    monitor has a positive body limit and a non-zero expected status.
    So the checker's own fall-backs are never used on it: it reads at
    most [MaxBodyBytes] bytes and a status is right exactly when it is
    the expected one. *)
Theorem Load_defaults_in_force (PD : string -> Result Duration)
    (file : Result string) (unmarshal : string -> Result config.Config)
    (cfg : config.Config) :
  config.Load PD file unmarshal = Ok cfg ->
  0 < config.Workers (config.Monitoring cfg) /\
  0 < config.JobsBuffer (config.Monitoring cfg) /\
  0 < config.ResultsBuffer (config.Monitoring cfg) /\
  config.blank (config.UserAgent (config.Monitoring cfg)) = false /\
  config.blank (config.Addr (config.Server cfg)) = false /\
  (forall t, In t (toMonitorTargets (config.Targets cfg)) ->
     bodyLimit t = MaxBodyBytes t /\
     forall code, statusMatchesPolicy t code = Z.eqb code (ExpectedStatus t)).
Proof.
  intros H.
  assert (Ht : forall t, In t (toMonitorTargets (config.Targets cfg)) ->
                 wellFormed t /\ 0 < MaxBodyBytes t).
  { intros t Hin. exact (Load_target PD file unmarshal cfg t H Hin). }
  unfold config.Load in H.
  destruct file as [b|e]; [|discriminate].
  destruct (unmarshal b) as [cfg0|e]; [|discriminate].
  unfold config.validateAndNormalize in H.
  destruct (config.Targets (config.applyDefaults cfg0)) as [|t0 ts0];
    [discriminate|].
  destruct (config.validateTargets PD 0 ∅ (t0 :: ts0)) as [ts'|e];
    [|discriminate].
  injection H as <-.
  cbn [config.Monitoring config.Server config.applyDefaults config.Workers
       config.JobsBuffer config.ResultsBuffer config.UserAgent config.Addr].
  split; [destruct (Z.leb_spec (config.Workers (config.Monitoring cfg0)) 0); lia|].
  split; [destruct (Z.leb_spec (config.JobsBuffer (config.Monitoring cfg0)) 0); lia|].
  split; [destruct (Z.leb_spec (config.ResultsBuffer (config.Monitoring cfg0)) 0); lia|].
  split.
  { destruct (config.blank (config.UserAgent (config.Monitoring cfg0))) eqn:E;
      [vm_compute; reflexivity|exact E]. }
  split.
  { destruct (config.blank (config.Addr (config.Server cfg0))) eqn:E;
      [vm_compute; reflexivity|exact E]. }
  intros t Hin. destruct (Ht t Hin) as (Hwf & Hpos).
  destruct Hwf as (_&_&_&_&_&Hes&_).
  split.
  - unfold bodyLimit. destruct (Z.leb_spec (MaxBodyBytes t) 0); [lia|reflexivity].
  - intros code. unfold statusMatchesPolicy.
    destruct (Z.eqb_spec (ExpectedStatus t) 0); [lia|reflexivity].
Qed.

Lemma Load_defaults_in_force_witness :
  config.Load sampleParse (Ok "targets: [...]") (fun _ => Ok sampleConfig)
    = Ok sampleLoaded /\
  0 < config.Workers (config.Monitoring sampleLoaded) /\
  0 < config.JobsBuffer (config.Monitoring sampleLoaded) /\
  0 < config.ResultsBuffer (config.Monitoring sampleLoaded).
Proof.
  split; [vm_compute; reflexivity|].
  pose proof (Load_defaults_in_force sampleParse (Ok "targets: [...]")
                (fun _ => Ok sampleConfig) sampleLoaded
                ltac:(vm_compute; reflexivity)) as (Hw & Hj & Hr & _).
  exact (conj Hw (conj Hj Hr)).
Defined.

(** X15.  On a target of a loaded configuration [CheckOnce] gives one of
    two validation messages only: the status received is not the
    expected one, or (status right, method GET) the keyword is missing
    from the body.  The messages for a status outside 200..399 and for a
    substring asked of a HEAD never occur: [config.Load] has excluded
    both cases. *)
Theorem CheckOnce_loaded_validation (PD : string -> Result Duration)
    (file : Result string) (unmarshal : string -> Result config.Config)
    (cfg : config.Config) (t : Target) (clk : Clock) (ex : Exchange) :
  config.Load PD file unmarshal = Ok cfg ->
  In t (toMonitorTargets (config.Targets cfg)) ->
  Validation (CheckOnce clk t ex) = "" \/
  exists resp, ex = Responded resp /\
    ((resp_StatusCode resp <> ExpectedStatus t /\
      Validation (CheckOnce clk t ex) = statusMessage t (resp_StatusCode resp)) \/
     (resp_StatusCode resp = ExpectedStatus t /\ Method t = "GET" /\
      substringRequirement t <> "" /\
      Validation (CheckOnce clk t ex) = keywordMessage t)).
Proof.
  intros H Hin.
  destruct (Load_target PD file unmarshal cfg t H Hin) as (Hwf & Hpos).
  destruct Hwf as (_ & _ & Hm & _ & _ & Hes & _ & Hhead).
  destruct ex as [err|err|resp]; [left; reflexivity|left; reflexivity|].
  unfold CheckOnce, CheckOnce_run. cbv zeta.
  destruct (Z.eqb_spec (ExpectedStatus t) 0) as [|_]; [lia|].
  cbn [negb andb].
  destruct (Z.eqb_spec (resp_StatusCode resp) (ExpectedStatus t)) as [Hc|Hc];
    cbn [negb andb fst].
  - fold (substringRequirement t).
    destruct (String.eqb_spec (substringRequirement t) "") as [Hs|Hs];
      cbn [negb]; [left; reflexivity|].
    destruct Hm as [Hm|Hm]; [|exfalso; exact (Hs (Hhead Hm))].
    rewrite Hm.
    change (String.eqb (strings_ToUpper "GET") "HEAD") with false. cbv iota.
    destruct (readAllLimited _ _) as [[b|e] k]; [|left; reflexivity].
    destruct (strings_Contains b (substringRequirement t));
      cbn [negb fst]; [left; reflexivity|].
    right. exists resp. split; [reflexivity|]. right.
    repeat split; try assumption.
  - right. exists resp. split; [reflexivity|]. left. split; [exact Hc|].
    reflexivity.
Qed.

Lemma CheckOnce_loaded_validation_witness :
  config.Load sampleParse (Ok "targets: [...]") (fun _ => Ok sampleConfig)
    = Ok sampleLoaded /\
  In sampleTarget (toMonitorTargets (config.Targets sampleLoaded)) /\
  (Validation (CheckOnce (clockAt 0) sampleTarget (respond 200 "down")) = "" \/
   exists resp, respond 200 "down" = Responded resp /\
    ((resp_StatusCode resp <> ExpectedStatus sampleTarget /\
      Validation (CheckOnce (clockAt 0) sampleTarget (respond 200 "down"))
        = statusMessage sampleTarget (resp_StatusCode resp)) \/
     (resp_StatusCode resp = ExpectedStatus sampleTarget /\
      Method sampleTarget = "GET" /\
      substringRequirement sampleTarget <> "" /\
      Validation (CheckOnce (clockAt 0) sampleTarget (respond 200 "down"))
        = keywordMessage sampleTarget))).
Proof.
  split; [vm_compute; reflexivity|].
  split; [left; reflexivity|].
  apply (CheckOnce_loaded_validation sampleParse (Ok "targets: [...]")
           (fun _ => Ok sampleConfig) sampleLoaded sampleTarget).
  - vm_compute; reflexivity.
  - left; reflexivity.
Defined.


(** ** Restoring the state *)

Lemma EqualFold_resultStatus (res : CheckResult) :
  strings_EqualFold (resultStatus res) "UP" = Up res.
Proof.
  unfold resultStatus. destruct (Up res); [reflexivity|].
  destruct (_ || _); reflexivity.
Qed.

Lemma rowsOf_insert (now : Time) (res : CheckResult) (tbl : CheckResults) :
  rowsOf (TargetName res) (persistCheckResult now res tbl) =
  (rowsOf (TargetName res) tbl ++ [checkRow now res (cr_next_id tbl)])%list.
Proof.
  unfold rowsOf, persistCheckResult. cbn [cr_rows].
  rewrite List.filter_app. cbn [List.filter checkRow cr_target_name].
  rewrite String.eqb_refl. reflexivity.
Qed.

(** The first row of an answer ordered by time is the row just written,
    when the rows the table had are older. *)
Lemma newestFirst_head (now : Time) (res : CheckResult) (tbl : CheckResults)
    (byTime : list CheckRow) :
  newestFirst (TargetName res) (persistCheckResult now res tbl) byTime ->
  Forall (fun r => checked_at r < filedAt (now, res))
    (rowsOf (TargetName res) tbl) ->
  exists rest, byTime = checkRow now res (cr_next_id tbl) :: rest.
Proof.
  intros [Hperm Hsorted] Hold. rewrite rowsOf_insert in Hperm.
  set (new := checkRow now res (cr_next_id tbl)) in *.
  assert (Hnew : checked_at new = filedAt (now, res)) by reflexivity.
  destruct byTime as [|h rest].
  { apply Permutation_nil in Hperm. destruct (rowsOf _ _); discriminate. }
  exists rest. f_equal.
  assert (Hh : In h (rowsOf (TargetName res) tbl ++ [new])%list).
  { apply list_elem_of_In. rewrite <- Hperm. left. }
  apply in_app_iff in Hh. destruct Hh as [Hh|[Hh|[]]]; [|symmetry; exact Hh].
  exfalso.
  rewrite Forall_forall in Hold. apply list_elem_of_In in Hh.
  specialize (Hold h Hh).
  assert (Hin : In new (h :: rest)).
  { apply list_elem_of_In. rewrite Hperm. apply list_elem_of_In.
    apply in_app_iff. right. left. reflexivity. }
  destruct Hin as [Heq|Hin]; [rewrite Heq in Hold; lia|].
  apply StronglySorted_inv in Hsorted. destruct Hsorted as [_ Hall].
  rewrite Forall_forall in Hall. apply list_elem_of_In in Hin.
  specialize (Hall new Hin). cbv beta in Hall. lia.
Qed.

(** X16.  The first result of a target that the aggregator receives
    after a start, with a database whose statements execute: the result
    is written to [check_results] before the state is restored from it,
    so, the rows the table had for the target being older, the restored
    state is that of the result itself.  No event is produced, whatever the status of
    the target was before the start, and the result is counted twice:
    the total of the new state is the number of rows the table had for
    the target plus two. *)
Theorem Aggregator_receive_restored (insertAt now : Time)
    (latest recent : list CheckRow) (tbl : CheckResults)
    (state : gmap string State) (res : CheckResult) :
  state !! TargetName res = None ->
  newestFirst (TargetName res) (persistCheckResult insertAt res tbl) latest ->
  Forall (fun r => checked_at r < filedAt (insertAt, res))
    (rowsOf (TargetName res) tbl) ->
  let out := Aggregator_receive insertAt now latest recent (Some tbl) state res in
  snd (snd out) = None /\
  exists st, fst (snd out) !! TargetName res = Some st /\
    LastUp st = Up res /\
    TotalChecks st =
      wrap64 (Z.of_nat (List.length (rowsOf (TargetName res) tbl)) + 1 + 1).
Proof.
  intros Hnone Hnewest Hold. cbv zeta.
  destruct (newestFirst_head _ _ _ _ Hnewest Hold) as [rest ->].
  unfold Aggregator_receive, Aggregator_step, locateState. cbv zeta.
  cbn [snd fst option_map]. rewrite Hnone.
  unfold loadStateFromDB. cbv zeta. cbn [LastUp updateState TotalChecks].
  change (status (checkRow insertAt res (cr_next_id tbl)))
    with (resultStatus res).
  rewrite EqualFold_resultStatus. rewrite Bool.eqb_reflx.
  rewrite andb_false_r. split; [reflexivity|].
  eexists. split; [apply lookup_insert_eq|].
  cbn [LastUp TotalChecks]. split; [reflexivity|].
  rewrite rowsOf_insert, List.length_app. cbn [List.length].
  rewrite Nat2Z.inj_add. reflexivity.
Qed.

Lemma Aggregator_receive_restored_witness :
  (∅ : gmap string State) !! TargetName afterRestart = None /\
  newestFirst (TargetName afterRestart)
    (persistCheckResult 3001 afterRestart oneFailure) afterRestartRows /\
  Forall (fun r => checked_at r < filedAt (3001, afterRestart))
    (rowsOf (TargetName afterRestart) oneFailure) /\
  snd (snd (Aggregator_receive 3001 3002 afterRestartRows afterRestartRows
              (Some oneFailure) ∅ afterRestart)) = None.
Proof.
  assert (Hn : newestFirst (TargetName afterRestart)
                 (persistCheckResult 3001 afterRestart oneFailure)
                 afterRestartRows).
  { split.
    - apply Permutation_swap.
    - repeat constructor; cbn; lia. }
  assert (Ho : Forall (fun r => checked_at r < filedAt (3001, afterRestart))
                 (rowsOf (TargetName afterRestart) oneFailure)).
  { repeat constructor. }
  split; [reflexivity|]. split; [exact Hn|]. split; [exact Ho|].
  exact (proj1 (Aggregator_receive_restored 3001 3002 afterRestartRows
                  afterRestartRows oneFailure ∅ afterRestart
                  eq_refl Hn Ho)).
Defined.


Lemma rowsOf_persistCheckResult (name : string) (now : Time)
    (res : CheckResult) (tbl : CheckResults) :
  rowsOf name (persistCheckResult now res tbl) =
  (rowsOf name tbl
   ++ if isFor name (now, res) then [checkRow now res (cr_next_id tbl)] else [])%list.
Proof.
  unfold rowsOf, persistCheckResult, isFor. cbn [cr_rows snd].
  rewrite List.filter_app. cbn [List.filter checkRow cr_target_name].
  destruct (String.eqb (TargetName res) name); reflexivity.
Qed.

(** The rows that a run of the aggregator adds for a target: one for each
    of its results, in the order of the results. *)
Lemma rowsOf_persistAll (name : string) (h : list (Time * CheckResult)) :
  forall tbl, exists added,
    rowsOf name (persistAll h tbl) = (rowsOf name tbl ++ added)%list /\
    List.map status added = List.map resultStatus (resultsFor name h) /\
    List.map checked_at added = List.map filedAt (List.filter (isFor name) h).
Proof.
  induction h as [|[now res] rest IH]; intros tbl.
  - exists []. rewrite List.app_nil_r. repeat split.
  - cbn [persistAll].
    destruct (IH (persistCheckResult now res tbl)) as (added & Hrows & Hst & Hat).
    rewrite rowsOf_persistCheckResult in Hrows.
    unfold resultsFor in *. cbn [List.filter].
    destruct (isFor name (now, res)).
    + exists (checkRow now res (cr_next_id tbl) :: added).
      rewrite Hrows, <- List.app_assoc. cbn [List.app List.map snd].
      rewrite Hst, Hat. repeat split.
    + exists added. rewrite Hrows, List.app_nil_r. repeat split; assumption.
Qed.

Lemma StronglySorted_map {A B : Type} (f : A -> B) (R : B -> B -> Prop)
    (l : list A) :
  StronglySorted R (List.map f l) <->
  StronglySorted (fun a b => R (f a) (f b)) l.
Proof.
  induction l as [|a l IH]; cbn [List.map].
  - split; constructor.
  - split; intros H; apply StronglySorted_inv in H; destruct H as [Hs Hall];
      constructor; try (apply IH; exact Hs).
    + rewrite Forall_forall in Hall. apply Forall_forall. intros x Hx.
      apply Hall. apply list_elem_of_In, in_map, list_elem_of_In, Hx.
    + rewrite Forall_forall in Hall. apply Forall_forall. intros y Hy.
      apply list_elem_of_In, in_map_iff in Hy. destruct Hy as (x & <- & Hx).
      apply Hall, list_elem_of_In, Hx.
Qed.

Lemma StronglySorted_snoc {A : Type} (R : A -> A -> Prop) (l : list A) (a : A) :
  StronglySorted R l -> Forall (fun x => R x a) l ->
  StronglySorted R (l ++ [a]).
Proof.
  induction 1 as [|b l Hs IH Hb]; intros Hall; cbn [List.app].
  - repeat constructor.
  - apply Forall_cons in Hall. destruct Hall as [Hba Hall].
    constructor; [exact (IH Hall)|].
    apply Forall_app. split; [exact Hb|]. repeat constructor. exact Hba.
Qed.

Lemma StronglySorted_rev {A : Type} (R : A -> A -> Prop) (l : list A) :
  StronglySorted R l -> StronglySorted (fun a b => R b a) (List.rev l).
Proof.
  induction 1 as [|a l Hs IH Ha]; cbn [List.rev]; [constructor|].
  apply StronglySorted_snoc; [exact IH|].
  rewrite Forall_forall in Ha. apply Forall_forall. intros x Hx. apply Ha.
  apply list_elem_of_In, in_rev, list_elem_of_In, Hx.
Qed.

(** Rows of distinct times have one order by time only. *)
Lemma newestFirst_unique (q : list CheckRow) :
  forall l,
  StronglySorted (fun a b => checked_at b <= checked_at a) q ->
  StronglySorted (fun a b => checked_at b < checked_at a) l ->
  Permutation q l -> q = l.
Proof.
  induction q as [|a q IH]; intros l Hq Hl Hperm.
  - symmetry. apply Permutation_nil. exact Hperm.
  - destruct l as [|b l].
    { symmetry in Hperm. apply Permutation_nil in Hperm. discriminate. }
    apply StronglySorted_inv in Hq. destruct Hq as [Hq Ha].
    apply StronglySorted_inv in Hl. destruct Hl as [Hl Hb].
    rewrite Forall_forall in Ha, Hb.
    assert (Hab : a = b).
    { assert (Hina : In a (b :: l)).
      { apply list_elem_of_In. rewrite <- Hperm. left. }
      destruct Hina as [Heq|Hina]; [symmetry; exact Heq|].
      assert (Hinb : In b (a :: q)).
      { apply list_elem_of_In. rewrite Hperm. left. }
      destruct Hinb as [Heq|Hinb]; [exact Heq|].
      apply list_elem_of_In in Hina, Hinb.
      specialize (Ha b Hinb). specialize (Hb a Hina). cbv beta in Ha, Hb. lia. }
    subst b. f_equal. apply IH; [exact Hq|exact Hl|].
    eapply Permutation_cons_inv. exact Hperm.
Qed.

Lemma resultStatus_cases (r : CheckResult) :
  resultStatus r = "UP" \/ resultStatus r = "TIMEOUT" \/ resultStatus r = "DOWN".
Proof.
  unfold resultStatus. destruct (Up r); [left; reflexivity|].
  destruct (_ || _); [right; left|right; right]; reflexivity.
Qed.

Lemma EqualFold_statuses (r1 r2 : CheckResult) :
  strings_EqualFold (resultStatus r1) (resultStatus r2) =
  String.eqb (resultStatus r1) (resultStatus r2).
Proof.
  destruct (resultStatus_cases r1) as [->|[->| ->]];
    destruct (resultStatus_cases r2) as [->|[->| ->]]; reflexivity.
Qed.

Lemma streakLoop_run (r0 : CheckResult) (l : list CheckResult) :
  forall k, 0 < k -> k + Z.of_nat (List.length l) < 2 ^ 63 ->
  streakLoop (List.map resultStatus l) k (resultStatus r0) =
  k + Z.of_nat (leadingRun (resultStatus r0) l).
Proof.
  induction l as [|r l IH]; intros k Hk Hlen;
    cbn [List.map streakLoop leadingRun List.length] in *.
  - lia.
  - destruct (Z.eqb_spec k 0) as [|_]; [lia|].
    rewrite EqualFold_statuses.
    destruct (String.eqb (resultStatus r) (resultStatus r0)); cbn [negb]; [|lia].
    rewrite wrap64_small by lia. rewrite IH by lia. lia.
Qed.

Lemma streakLoop_start (l : list CheckResult) :
  Z.of_nat (List.length l) < 2 ^ 63 - 1 ->
  streakLoop (List.map resultStatus l) 0 "" =
  match l with
  | [] => 0
  | r :: _ => Z.of_nat (leadingRun (resultStatus r) l)
  end.
Proof.
  destruct l as [|r l]; intros Hlen; [reflexivity|].
  cbn [List.map streakLoop leadingRun List.length] in *.
  change (Z.eqb 0 0) with true. cbv iota.
  rewrite EqualFold_statuses, String.eqb_refl. cbn [negb].
  change (wrap64 (0 + 1)) with 1.
  rewrite streakLoop_run by lia. lia.
Qed.

Lemma leadingRun_firstn (s : string) (n : nat) (l : list CheckResult) :
  leadingRun s (List.firstn n l) = Nat.min n (leadingRun s l).
Proof.
  revert l. induction n as [|n IH]; intros [|r l]; try reflexivity.
  cbn [List.firstn leadingRun].
  destruct (String.eqb (resultStatus r) s); [|reflexivity].
  rewrite IH. reflexivity.
Qed.

Lemma filter_status_downs (l : list CheckResult) :
  List.length (List.filter (fun s => negb (String.eqb s "UP"))
                 (List.map resultStatus l)) = downs l.
Proof.
  unfold downs. induction l as [|r l IH]; [reflexivity|].
  cbn [List.map List.filter]. rewrite resultStatus_UP.
  destruct (Up r); cbn [negb List.length]; rewrite IH; reflexivity.
Qed.

Lemma filter_map_length {A B : Type} (f : A -> B) (p : B -> bool) (l : list A) :
  List.length (List.filter (fun a => p (f a)) l) =
  List.length (List.filter p (List.map f l)).
Proof.
  induction l as [|a l IH]; [reflexivity|].
  cbn [List.map List.filter]. destruct (p (f a)); cbn [List.length];
    rewrite IH; reflexivity.
Qed.

(** X17.  The state that [loadStateFromDB] restores for a target from
    the rows that the aggregator wrote for the results it received, the
    results of the target being filed at increasing times: it is up as
    the last result was, its totals are the numbers of the results and of
    the failures of the target, and its streak (of successes when up,
    of failures when not) is the number of results at the end that are
    stored under the status of the last, 100 at most.  So the restored
    streak of successes ends at the last failure, and a restored streak
    of failures counts a run of DOWN or a run of TIMEOUT only. *)
Theorem loadStateFromDB_restores (name : string)
    (history : list (Time * CheckResult)) (latest recent : list CheckRow)
    (earlier : list CheckResult) (last : CheckResult) :
  let tbl := persistAll history noResults in
  newestFirst name tbl latest ->
  newestFirst name tbl recent ->
  StronglySorted (fun x y => filedAt x < filedAt y)
    (List.filter (isFor name) history) ->
  resultsFor name history = (earlier ++ [last])%list ->
  exists st,
    loadStateFromDB name (Some tbl) latest recent = Ok (Some st) /\
    LastUp st = Up last /\
    TotalChecks st = Z.of_nat (List.length earlier) + 1 /\
    TotalFails st = Z.of_nat (downs (earlier ++ [last])) /\
    ConsecutiveSuccess st =
      (if Up last then Z.of_nat (Nat.min 100 (trailingRun (earlier ++ [last])))
       else 0) /\
    ConsecutiveFail st =
      (if Up last then 0
       else Z.of_nat (Nat.min 100 (trailingRun (earlier ++ [last])))).
Proof.
  intros tbl [Hp1 Hs1] [Hp3 Hs3] Htimes Hres.
  destruct (rowsOf_persistAll name history noResults)
    as (added & Hrows & Hst & Hat).
  change (rowsOf name noResults) with (@nil CheckRow) in Hrows.
  cbn [List.app] in Hrows. fold tbl in Hrows.
  rewrite Hres in Hst.
  assert (Hasc : StronglySorted (fun a b => checked_at a < checked_at b) added).
  { apply (StronglySorted_map checked_at Z.lt). rewrite Hat.
    apply (StronglySorted_map filedAt Z.lt). exact Htimes. }
  apply StronglySorted_rev in Hasc.
  rewrite Hrows in Hp1, Hp3.
  assert (H1 : latest = List.rev added).
  { apply newestFirst_unique; [exact Hs1|exact Hasc|].
    rewrite Hp1. apply Permutation_rev. }
  assert (H3 : recent = List.rev added).
  { apply newestFirst_unique; [exact Hs3|exact Hasc|].
    rewrite Hp3. apply Permutation_rev. }
  assert (Hrev : List.map status (List.rev added) =
                 List.map resultStatus (last :: List.rev earlier)).
  { rewrite List.map_rev, Hst, <- List.map_rev, List.rev_app_distr.
    reflexivity. }
  assert (Hlen : List.length added = S (List.length earlier)).
  { rewrite <- (List.length_map status), Hst, List.length_map, List.length_app.
    cbn [List.length]. lia. }
  unfold loadStateFromDB. cbv zeta. rewrite H1, H3, Hrows.
  destruct (List.rev added) as [|r rest] eqn:Er;
    [discriminate|].
  cbn [List.map] in Hrev. injection Hrev as Hr Hrest.
  eexists. split; [reflexivity|].
  cbn [LastUp TotalChecks TotalFails ConsecutiveSuccess ConsecutiveFail].
  rewrite Hr, EqualFold_resultStatus.
  assert (Hstreak :
    streakLoop (List.map status (List.firstn 100 (r :: rest))) 0 "" =
    Z.of_nat (Nat.min 100 (trailingRun (earlier ++ [last])))).
  { rewrite <- List.firstn_map. cbn [List.map]. rewrite Hr, Hrest.
    change (resultStatus last :: List.map resultStatus (List.rev earlier))
      with (List.map resultStatus (last :: List.rev earlier)).
    rewrite List.firstn_map, streakLoop_start.
    - unfold trailingRun. rewrite List.rev_app_distr. cbn [List.rev List.app].
      assert (Hhd : List.firstn 100 (last :: List.rev earlier) =
                    last :: List.firstn 99 (List.rev earlier)) by reflexivity.
      destruct (List.firstn 100 (last :: List.rev earlier)) as [|r0 l0] eqn:E;
        [discriminate|].
      injection Hhd as -> _. rewrite <- E, leadingRun_firstn. reflexivity.
    - pose proof (List.firstn_le_length 100 (last :: List.rev earlier)).
      lia. }
  rewrite Hstreak.
  split; [reflexivity|]. split; [rewrite Hlen; lia|]. split; [|split; reflexivity].
  rewrite (filter_map_length status (fun s => negb (String.eqb s "UP"))).
  rewrite Hst. rewrite filter_status_downs. reflexivity.
Qed.

Lemma loadStateFromDB_restores_witness :
  newestFirst "Alpha" (persistAll upDownDown noResults) upDownDownRows /\
  StronglySorted (fun x y => filedAt x < filedAt y)
    (List.filter (isFor "Alpha") upDownDown) /\
  resultsFor "Alpha" upDownDown =
    ([ CheckOnce (clockAt 1000) alpha (respond 200 "fine");
       CheckOnce (clockAt 2000) alpha (respond 500 "broken") ]
     ++ [ CheckOnce (clockAt 3000) alpha (respond 503 "broken") ])%list /\
  exists st,
    loadStateFromDB "Alpha" (Some (persistAll upDownDown noResults))
      upDownDownRows upDownDownRows = Ok (Some st) /\
    LastUp st = false /\ TotalChecks st = 3 /\ TotalFails st = 2 /\
    ConsecutiveSuccess st = 0 /\ ConsecutiveFail st = 2.
Proof.
  assert (Hn : newestFirst "Alpha" (persistAll upDownDown noResults)
                 upDownDownRows).
  { split.
    - apply (Permutation_rev upDownDownRows).
    - repeat constructor; cbn; lia. }
  assert (Hs : StronglySorted (fun x y => filedAt x < filedAt y)
                 (List.filter (isFor "Alpha") upDownDown)).
  { repeat constructor. }
  split; [exact Hn|]. split; [exact Hs|]. split; [reflexivity|].
  exact (loadStateFromDB_restores "Alpha" upDownDown upDownDownRows
           upDownDownRows
           [ CheckOnce (clockAt 1000) alpha (respond 200 "fine");
             CheckOnce (clockAt 2000) alpha (respond 500 "broken") ]
           (CheckOnce (clockAt 3000) alpha (respond 503 "broken"))
           Hn Hn Hs eq_refl).
Defined.


(** ** The alerts *)

(** X18.  The alert for an event that the aggregator produces on a check
    that got no response (the request could not be built, or
    [http.Client.Do] failed with its [*url.Error]): it is the DOWN
    message, and its status line reads TIMEOUT followed by the error of
    the check in brackets, whatever the failure was, a time-out or not. *)
Theorem telegramText_no_response (format : Time -> string)
    (loaded : string -> option State) (now : Time)
    (state state' : gmap string State) (clk : Clock) (t : Target)
    (ex : Exchange) (ev : Event) :
  Aggregator_step loaded now state (CheckOnce clk t ex) = (state', Some ev) ->
  (forall resp, ex <> Responded resp) ->
  (forall e, ex = DoFailed e -> exists op u inner, e = url_Error op u inner) ->
  Error (CheckOnce clk t ex) <> "" /\
  telegramText format ev =
    sirenSign ++ " DOWN: " ++ Name t ++ lineFeed
      ++ ("Status: " ++ ("TIMEOUT (" ++ Error (CheckOnce clk t ex) ++ ")"))
      ++ lineFeed
      ++ "Probe: primary" ++ lineFeed
      ++ "At: " ++ format (now_at clk).
Proof.
  intros Hstep Hno Hurl.
  assert (Hev : snd (Aggregator_step loaded now state (CheckOnce clk t ex))
                = Some ev) by (rewrite Hstep; reflexivity).
  rewrite Aggregator_step_event in Hev. cbv zeta in Hev.
  destruct (_ && _) in Hev; [|discriminate]. injection Hev as <-.
  assert (Hres : exists msg, msg <> "" /\
            CheckOnce clk t ex = result clk t false 0 msg "").
  { destruct ex as [e|e|resp].
    - eexists. split; [|reflexivity]. apply append_nonempty. discriminate.
    - destruct (Hurl e eq_refl) as (op & u & inner & ->).
      eexists. split; [|reflexivity]. apply classifyHTTPError_url_nonempty.
    - exfalso. exact (Hno resp eq_refl). }
  destruct Hres as (msg & Hmsg & ->).
  cbn [result Error]. split; [exact Hmsg|].
  unfold telegramText, formatTelegramDownMessage, transition.
  cbn [To Up result negb ev_StatusCode StatusCode Reason Error ev_TargetName
       TargetName ev_At At].
  cbv zeta. change (Z.eqb 0 0) with true. cbn [andb negb].
  destruct (String.eqb_spec msg "") as [E|_]; [contradiction|].
  cbn [negb andb]. reflexivity.
Qed.

Lemma telegramText_no_response_witness :
  Aggregator_step noHistory 2001
    (fst (Aggregator_step noHistory 1001 ∅
            (CheckOnce (clockAt 1000) alpha (respond 200 "fine"))))
    (CheckOnce (clockAt 2000) alpha refused)
  = (fst (Aggregator noHistory ∅
            [ (1001, CheckOnce (clockAt 1000) alpha (respond 200 "fine"));
              (2001, CheckOnce (clockAt 2000) alpha refused) ]),
     Some (transition true (CheckOnce (clockAt 2000) alpha refused))) /\
  Error (CheckOnce (clockAt 2000) alpha refused) <> "" /\
  telegramText sampleFormat
    (transition true (CheckOnce (clockAt 2000) alpha refused)) =
    sirenSign ++ " DOWN: " ++ Name alpha ++ lineFeed
      ++ ("Status: "
          ++ ("TIMEOUT (" ++ Error (CheckOnce (clockAt 2000) alpha refused)
              ++ ")"))
      ++ lineFeed
      ++ "Probe: primary" ++ lineFeed
      ++ "At: " ++ sampleFormat (now_at (clockAt 2000)).
Proof.
  split; [reflexivity|].
  apply (telegramText_no_response sampleFormat noHistory 2001
           (fst (Aggregator_step noHistory 1001 ∅
                   (CheckOnce (clockAt 1000) alpha (respond 200 "fine"))))
           (fst (Aggregator noHistory ∅
                   [ (1001, CheckOnce (clockAt 1000) alpha (respond 200 "fine"));
                     (2001, CheckOnce (clockAt 2000) alpha refused) ]))
           (clockAt 2000) alpha refused).
  - reflexivity.
  - intros resp; discriminate.
  - intros e He. injection He as <-. repeat eexists.
Defined.
